(** * lol-counter-quiz: the feature-extraction pipeline

    A shallow embedding of the feature-extraction scripts
    ([build_dataset.py], [augment_objectives.py], [augment_more.py],
    [augment_champ_roles.py]) and the properties of the time-windowed
    aggregation they implement.

    Conventions of the embedding:
    - a JSON object whose keys the code reads with [.get] is a record of
      [option] fields ([None] = key absent or JSON null);
    - integers are [Z] (Python integers are unbounded);
    - a Python [dict] is a [gmap]; [d[k]] on a key that is always present is
      the total lookup [d !!! k];
    - a loop over a list is a [foldl] of the loop body. *)

From stdpp Require Import gmap strings list fin_maps pretty sorting.

Local Open Scope Z_scope.

(** ** Values and input records *)

(** A cell of an output row. *)
Inductive pyval :=
  | VNone
  | VInt (z : Z)
  | VStr (s : string).

#[global] Instance pyval_eq_dec : EqDecision pyval.
Proof. solve_decision. Defined.

(** An output row: column name to value. *)
Abbreviation row := (gmap string pyval).

(** One entry of [info.participants] in a match record. *)
Record participant := Participant {
  participantId : option Z;
  teamId : option Z;
}.

(** One entry of [info.teams]; [team_win] is the truthiness of its [win]. *)
Record team_entry := TeamEntry {
  team_teamId : option Z;
  team_win : bool;
}.

(** A match record: the metadata the builders copy, and the participants. *)
Record match_json := MatchJson {
  gameCreation : pyval;
  gameDuration : pyval;
  gameVersion : pyval;
  queueId : pyval;
  mapId : pyval;
  platformId : pyval;
  participants : list participant;
  teams : list team_entry;
}.

(** A timeline event; every field is read with [ev.get]. *)
Record event := Event {
  ev_timestamp : option Z;
  ev_type : option string;
  killerId : option Z;
  victimId : option Z;
  assistingParticipantIds : option (list Z);
  killerTeamId : option Z;
  buildingType : option string;
  monsterType : option string;
  creatorId : option Z;
  wardType : option string;
}.

(** A participant-frame snapshot. *)
Record pframe := PFrame {
  totalGold : option Z;
  xp : option Z;
  level : option Z;
  minionsKilled : option Z;
  jungleMinionsKilled : option Z;
  currentGold : option Z;
}.

(** A timeline frame; [participantFrames] is keyed by the participant id
    written as a string. *)
Record frame := Frame {
  fr_timestamp : option Z;
  participantFrames : gmap string pframe;
  events : list event;
}.

(** A timeline record: [tl.get("info", {}).get("frames", [])]. *)
Record timeline := Timeline {
  frames : list frame;
}.

#[global] Instance pframe_eq_dec : EqDecision pframe.
Proof. solve_decision. Defined.

#[global] Instance event_eq_dec : EqDecision event.
Proof. solve_decision. Defined.

#[global] Instance frame_eq_dec : EqDecision frame.
Proof. solve_decision. Defined.

(** [team in (100, 200)] for a team id that may be [None]. *)
Definition team_in (team : option Z) : bool :=
  match team with
  | Some t => (t =? 100) || (t =? 200)
  | None => false
  end.

(** [x or 0]. *)
Definition or0 (x : option Z) : Z := default 0 x.

(** ** augment_objectives.py *)

Module augment_objectives.

Definition CUT10 : Z := 10 * 60 * 1000.
Definition CUT14 : Z := 14 * 60 * 1000.
Definition CUT15 : Z := 15 * 60 * 1000.

(** participantId -> teamId; a later participant with the same id
    overwrites an earlier one. *)
Definition get_participant_team_map (match_json_ : match_json) : gmap Z Z :=
  foldl (fun (m : gmap Z Z) p =>
           match participantId p, teamId p with
           | Some pid, Some tid => <[pid := tid]> m
           | _, _ => m
           end) ∅ (participants match_json_).

(** Ids are integers here, so [int(pid)] is the identity and never raises. *)
Definition team_from_pid (pid : option Z) (pid2team : gmap Z Z) : option Z :=
  match pid with
  | None => None
  | Some pid => pid2team !! pid
  end.

(** [counts[team][field] += inc], guarded by [team in (100, 200)].  Both
    inner dicts hold every field from the start, so the lookup never
    fails. *)
Definition update_counts (counts : gmap Z (gmap string Z))
    (team : option Z) (field : string) (inc : Z) : gmap Z (gmap string Z) :=
  match team with
  | Some t =>
      if negb (team_in team) then counts
      else <[t := <[field := (counts !!! t) !!! field + inc]> (counts !!! t)]> counts
  | None => counts
  end.

(** The local variables of [compute_features] that the scan mutates. *)
Record scan_state := ScanState {
  base : gmap Z (gmap string Z);
  first_blood_team : Z;
  first_drake_team : Z;
  first_tower_team : Z;
  first_herald_team : Z;
}.

Definition zero_counts : gmap string Z :=
  list_to_map [("k10", 0); ("d10", 0); ("a10", 0); ("k15", 0); ("d15", 0);
               ("a15", 0); ("plates14", 0); ("towers15", 0); ("drakes15", 0);
               ("herald15", 0)].

Definition init_state : scan_state :=
  {| base := <[100 := zero_counts]> (<[200 := zero_counts]> ∅);
     first_blood_team := 0;
     first_drake_team := 0;
     first_tower_team := 0;
     first_herald_team := 0 |}.

(** [if first == 0 and killer_team in (100, 200): first = killer_team]. *)
Definition latch (first : Z) (killer_team : option Z) : Z :=
  match killer_team with
  | Some t => if (first =? 0) && team_in killer_team then t else first
  | None => first
  end.

(** The loop [for ap in assists: update_counts(base, team_from_pid(ap, ..), field, 1)]. *)
Definition count_assists (pid2team : gmap Z Z) (field : string)
    (b : gmap Z (gmap string Z)) (assists : list Z) : gmap Z (gmap string Z) :=
  foldl (fun b ap => update_counts b (team_from_pid (Some ap) pid2team) field 1)
        b assists.

(** The killer-team resolution of the building and monster branches: the
    participant lookup first, the event's [killerTeamId] as the fallback. *)
Definition killer_team_with_fallback (pid2team : gmap Z Z) (ev : event) : option Z :=
  let killer_team := team_from_pid (killerId ev) pid2team in
  if negb (team_in killer_team) then
    let kt := killerTeamId ev in
    if team_in kt then kt else killer_team
  else killer_team.

(** The body of the inner loop [for ev in events]. *)
Definition process_event (pid2team : gmap Z Z) (st : scan_state) (ev : event)
    : scan_state :=
  match ev_timestamp ev with
  | None => st
  | Some ts =>
    if CUT15 <? ts then st
    else
      let et := ev_type ev in
      if decide (et = Some "CHAMPION_KILL") then
        let killer_team := team_from_pid (killerId ev) pid2team in
        let victim_team := team_from_pid (victimId ev) pid2team in
        let assists := default [] (assistingParticipantIds ev) in
        let fb := latch (first_blood_team st) killer_team in
        let b := base st in
        let b :=
          if ts <=? CUT10 then
            let b := update_counts b killer_team "k10" 1 in
            let b := update_counts b victim_team "d10" 1 in
            count_assists pid2team "a10" b assists
          else b in
        let b := update_counts b killer_team "k15" 1 in
        let b := update_counts b victim_team "d15" 1 in
        let b := count_assists pid2team "a15" b assists in
        {| base := b;
           first_blood_team := fb;
           first_drake_team := first_drake_team st;
           first_tower_team := first_tower_team st;
           first_herald_team := first_herald_team st |}
      else if decide (et = Some "TURRET_PLATE_DESTROYED") then
        if ts <=? CUT14 then
          let killer_team := team_from_pid (killerId ev) pid2team in
          {| base := update_counts (base st) killer_team "plates14" 1;
             first_blood_team := first_blood_team st;
             first_drake_team := first_drake_team st;
             first_tower_team := first_tower_team st;
             first_herald_team := first_herald_team st |}
        else st
      else if decide (et = Some "BUILDING_KILL") then
        if decide (buildingType ev = Some "TOWER_BUILDING") then
          let killer_team := killer_team_with_fallback pid2team ev in
          {| base := update_counts (base st) killer_team "towers15" 1;
             first_blood_team := first_blood_team st;
             first_drake_team := first_drake_team st;
             first_tower_team := latch (first_tower_team st) killer_team;
             first_herald_team := first_herald_team st |}
        else st
      else if decide (et = Some "ELITE_MONSTER_KILL") then
        let mtype := monsterType ev in
        let killer_team := killer_team_with_fallback pid2team ev in
        if decide (mtype = Some "DRAGON") then
          {| base := update_counts (base st) killer_team "drakes15" 1;
             first_blood_team := first_blood_team st;
             first_drake_team := latch (first_drake_team st) killer_team;
             first_tower_team := first_tower_team st;
             first_herald_team := first_herald_team st |}
        else if decide (mtype = Some "RIFTHERALD") then
          {| base := update_counts (base st) killer_team "herald15" 1;
             first_blood_team := first_blood_team st;
             first_drake_team := first_drake_team st;
             first_tower_team := first_tower_team st;
             first_herald_team := latch (first_herald_team st) killer_team |}
        else st
      else st
  end.

(** The two nested loops [for fr in frames: for ev in events]. *)
Definition scan (pid2team : gmap Z Z) (st : scan_state) (frames_ : list frame)
    : scan_state :=
  foldl (fun st fr => foldl (process_event pid2team) st (events fr)) st frames_.

(** [base[100][field] - base[200][field]]. *)
Definition diff (b : gmap Z (gmap string Z)) (field : string) : Z :=
  (b !!! 100) !!! field - (b !!! 200) !!! field.

(** 1 (team 100), -1 (team 200), 0 (none). *)
Definition first_enc (team : Z) : Z :=
  if team =? 100 then 1 else if team =? 200 then -1 else 0.

Definition row_of_state (match_id : string) (st : scan_state) : row :=
  list_to_map
    [("match_id", VStr match_id);
     ("diff_k10", VInt (diff (base st) "k10"));
     ("diff_d10", VInt (diff (base st) "d10"));
     ("diff_a10", VInt (diff (base st) "a10"));
     ("diff_k15", VInt (diff (base st) "k15"));
     ("diff_d15", VInt (diff (base st) "d15"));
     ("diff_a15", VInt (diff (base st) "a15"));
     ("diff_plates14", VInt (diff (base st) "plates14"));
     ("diff_towers15", VInt (diff (base st) "towers15"));
     ("diff_drakes15", VInt (diff (base st) "drakes15"));
     ("diff_herald15", VInt (diff (base st) "herald15"));
     ("first_blood", VInt (first_enc (first_blood_team st)));
     ("first_drake", VInt (first_enc (first_drake_team st)));
     ("first_tower", VInt (first_enc (first_tower_team st)));
     ("first_herald", VInt (first_enc (first_herald_team st)))].

Definition compute_features (match_id : string) (match_json_ : match_json)
    (tl_json : timeline) : row :=
  let pid2team := get_participant_team_map match_json_ in
  row_of_state match_id (scan pid2team init_state (frames tl_json)).

(** The rows [main] collects: one per timeline file whose match file
    exists, [match_id] being the stem of the file name. *)
Definition main_rows (files : list (string * match_json * timeline)) : list row :=
  (fun f : string * match_json * timeline =>
     compute_features f.1.1 f.1.2 f.2) <$> files.

End augment_objectives.

(** ** augment_more.py *)

Module augment_more.

Definition CUT8 : Z := 8 * 60 * 1000.
Definition CUT10 : Z := 10 * 60 * 1000.
Definition CUT12 : Z := 12 * 60 * 1000.
Definition CUT15 : Z := 15 * 60 * 1000.

Definition get_pid2team (match_json_ : match_json) : gmap Z Z :=
  foldl (fun (m : gmap Z Z) p =>
           match participantId p, teamId p with
           | Some pid, Some tid => <[pid := tid]> m
           | _, _ => m
           end) ∅ (participants match_json_).

Definition team_from_pid (pid : option Z) (pid2team : gmap Z Z) : option Z :=
  match pid with
  | None => None
  | Some pid => pid2team !! pid
  end.

(** The loop of [pick_frame]: [best] is the loop variable, a frame without
    a timestamp is skipped, the first timestamp above the cut ends the loop. *)
Fixpoint pick_frame_loop (best : option frame) (frames_ : list frame)
    (cut_ms : Z) : option frame :=
  match frames_ with
  | [] => best
  | fr :: rest =>
      match fr_timestamp fr with
      | None => pick_frame_loop best rest cut_ms
      | Some ts =>
          if ts <=? cut_ms then pick_frame_loop (Some fr) rest cut_ms
          else best
      end
  end.

(** [best if best is not None else (frames[0] if frames else None)]. *)
Definition pick_frame (frames_ : list frame) (cut_ms : Z) : option frame :=
  match pick_frame_loop None frames_ cut_ms with
  | Some best => Some best
  | None => head frames_
  end.

Definition zero_totals : gmap string Z :=
  list_to_map [("gold", 0); ("xp", 0); ("cs", 0); ("lvl", 0)].

(** [totals[tid][field] += v] and [c[tid][field] += 1]. *)
Definition add_to (totals : gmap Z (gmap string Z)) (tid : Z) (field : string)
    (v : Z) : gmap Z (gmap string Z) :=
  <[tid := <[field := (totals !!! tid) !!! field + v]> (totals !!! tid)]> totals.

Section WithInt.

(** Python's [int] on a string: [None] stands for the [ValueError] that the
    [try] turns into [continue].  The aggregation never looks inside it. *)
Variable py_int : string → option Z.

(** The body of the loop [for pid_str, obj in pf.items()]. *)
Definition sum_entry (pid2team : gmap Z Z) (totals : gmap Z (gmap string Z))
    (entry : string * pframe) : gmap Z (gmap string Z) :=
  let '(pid_str, obj) := entry in
  match py_int pid_str with
  | None => totals
  | Some pid =>
      match pid2team !! pid with
      | None => totals
      | Some tid =>
          if negb (team_in (Some tid)) then totals
          else
            let gold := or0 (totalGold obj) in
            let xp_ := or0 (xp obj) in
            let lvl := or0 (level obj) in
            let cs := or0 (minionsKilled obj) + or0 (jungleMinionsKilled obj) in
            let totals := add_to totals tid "gold" gold in
            let totals := add_to totals tid "xp" xp_ in
            let totals := add_to totals tid "cs" cs in
            add_to totals tid "lvl" lvl
      end
  end.

(** [frame] is [None] when [pick_frame] found nothing. *)
Definition sum_team_from_frame (frame_ : option frame) (pid2team : gmap Z Z)
    : gmap Z (gmap string Z) :=
  let pf := match frame_ with
            | Some fr => participantFrames fr
            | None => ∅
            end in
  foldl (sum_entry pid2team)
        (<[100 := zero_totals]> (<[200 := zero_totals]> ∅))
        (map_to_list pf).

End WithInt.

Definition zero_wards : gmap string Z :=
  list_to_map [("wp10", 0); ("wk10", 0); ("cwp10", 0); ("wp15", 0);
               ("wk15", 0); ("cwp15", 0)].

(** The body of the inner loop of [count_wards]. *)
Definition ward_event (pid2team : gmap Z Z) (c : gmap Z (gmap string Z))
    (ev : event) : gmap Z (gmap string Z) :=
  match ev_timestamp ev with
  | None => c
  | Some ts =>
    if CUT15 <? ts then c
    else
      let et := ev_type ev in
      if decide (et = Some "WARD_PLACED") then
        match team_from_pid (creatorId ev) pid2team with
        | None => c
        | Some tid =>
            if negb (team_in (Some tid)) then c
            else
              let ward_type := default "" (wardType ev) in
              let c :=
                if ts <=? CUT10 then
                  let c := add_to c tid "wp10" 1 in
                  if decide (ward_type = "CONTROL_WARD")
                  then add_to c tid "cwp10" 1 else c
                else c in
              let c := add_to c tid "wp15" 1 in
              if decide (ward_type = "CONTROL_WARD")
              then add_to c tid "cwp15" 1 else c
        end
      else if decide (et = Some "WARD_KILL") then
        match team_from_pid (killerId ev) pid2team with
        | None => c
        | Some tid =>
            if negb (team_in (Some tid)) then c
            else
              let c := if ts <=? CUT10 then add_to c tid "wk10" 1 else c in
              add_to c tid "wk15" 1
        end
      else c
  end.

Definition ward_scan (pid2team : gmap Z Z) (c : gmap Z (gmap string Z))
    (frames_ : list frame) : gmap Z (gmap string Z) :=
  foldl (fun c fr => foldl (ward_event pid2team) c (events fr)) c frames_.

Definition diff (c : gmap Z (gmap string Z)) (field : string) : Z :=
  (c !!! 100) !!! field - (c !!! 200) !!! field.

Definition count_wards (frames_ : list frame) (pid2team : gmap Z Z) : row :=
  let c := ward_scan pid2team
             (<[100 := zero_wards]> (<[200 := zero_wards]> ∅)) frames_ in
  list_to_map
    [("diff_wardsPlaced10", VInt (diff c "wp10"));
     ("diff_wardsKilled10", VInt (diff c "wk10"));
     ("diff_ctrlWardsPlaced10", VInt (diff c "cwp10"));
     ("diff_wardsPlaced15", VInt (diff c "wp15"));
     ("diff_wardsKilled15", VInt (diff c "wk15"));
     ("diff_ctrlWardsPlaced15", VInt (diff c "cwp15"))].

(** The body of the loop of [main] for one match whose two files exist:
    the dict literal, then [row.update(ward_feats)]. *)
Definition match_row (py_int : string → option Z) (match_id : string)
    (match_json_ : match_json) (tl_json : timeline) : row :=
  let pid2team := get_pid2team match_json_ in
  let frames_ := frames tl_json in
  let fr8 := pick_frame frames_ CUT8 in
  let fr12 := pick_frame frames_ CUT12 in
  let t8 := sum_team_from_frame py_int fr8 pid2team in
  let t12 := sum_team_from_frame py_int fr12 pid2team in
  let d := diff in
  let ward_feats := count_wards frames_ pid2team in
  let row_ : row :=
    list_to_map
      [("match_id", VStr match_id);
       ("delta_m8_gold_100_minus_200", VInt (d t8 "gold"));
       ("delta_m8_xp_100_minus_200", VInt (d t8 "xp"));
       ("delta_m8_cs_100_minus_200", VInt (d t8 "cs"));
       ("delta_m8_lvl_100_minus_200", VInt (d t8 "lvl"));
       ("delta_m12_gold_100_minus_200", VInt (d t12 "gold"));
       ("delta_m12_xp_100_minus_200", VInt (d t12 "xp"));
       ("delta_m12_cs_100_minus_200", VInt (d t12 "cs"));
       ("delta_m12_lvl_100_minus_200", VInt (d t12 "lvl"))] in
  ward_feats ∪ row_.

(** The rows [main] collects, as in [augment_objectives.py]. *)
Definition main_rows (py_int : string → option Z)
    (files : list (string * match_json * timeline)) : list row :=
  (fun f : string * match_json * timeline =>
     match_row py_int f.1.1 f.1.2 f.2) <$> files.

End augment_more.

(** ** build_dataset.py *)

Module build_dataset.

(** Snapshots are taken at these minutes (frame index = minute). *)
Definition SNAP_MINUTES : list Z := [10; 15].

Definition get_frame (tl : timeline) (minute : Z) : option frame :=
  match frames tl with
  | [] => None
  | frames_ =>
      let idx := minute in
      if (idx <? 0) || (Z.of_nat (length frames_) <=? idx) then None
      else frames_ !! Z.to_nat idx
  end.

(** [str(pid)]; a participant without an id gives [str(None)]. *)
Definition py_str (pid : option Z) : string :=
  match pid with
  | Some z => pretty z
  | None => "None"
  end.

(** The running totals of [extract_team_snapshot]. *)
Record totals := Totals {
  total_gold : Z;
  total_xp : Z;
  total_cs : Z;
  total_lvl : Z;
  ok : Z;
}.

(** The body of the loop [for pid in team_participant_ids]. *)
Definition add_participant (pf : gmap string pframe) (acc : totals)
    (pid : option Z) : totals :=
  let key := py_str pid in
  match pf !! key with
  | None => acc
  | Some x =>
      let g := totalGold x in
      let xp_ := xp x in
      let cs := or0 (minionsKilled x) + or0 (jungleMinionsKilled x) in
      let lvl := level x in
      match g, xp_, lvl with
      | Some g, Some xp_, Some lvl =>
          {| total_gold := total_gold acc + g;
             total_xp := total_xp acc + xp_;
             total_cs := total_cs acc + cs;
             total_lvl := total_lvl acc + lvl;
             ok := ok acc + 1 |}
      | _, _, _ => acc
      end
  end.

(** The column name [f"team_m{minute}_{name}"]. *)
Definition team_key (minute : Z) (name : string) : string :=
  "team_m" +:+ pretty minute +:+ "_" +:+ name.

(** The returned dict is kept as its list of items, in the order of the
    dict literal: the caller walks it with [.items()].  [{}] is []. *)
Definition extract_team_snapshot (tl : timeline) (minute : Z)
    (team_participant_ids : list (option Z)) : list (string * Z) :=
  match get_frame tl minute with
  | None => []
  | Some frame_ =>
      let pf := participantFrames frame_ in
      let acc := foldl (add_participant pf) (Totals 0 0 0 0 0)
                       team_participant_ids in
      if ok acc =? 0 then []
      else
        [(team_key minute "totalGold", total_gold acc);
         (team_key minute "xp", total_xp acc);
         (team_key minute "cs", total_cs acc);
         (team_key minute "levelSum", total_lvl acc);
         (team_key minute "participants_ok", ok acc)]
  end.

(** [s.get(key)] on such a dict. *)
Definition snapshot_get (s : list (string * Z)) (key : string) : option Z :=
  (list_to_map s : gmap string Z) !! key.

(** [for k, v in s.items(): team_base[f"{prefix}{k}"] = v]. *)
Definition copy_snapshot (prefix : string) (team_base : row)
    (s : list (string * Z)) : row :=
  foldl (fun (tb : row) kv => <[prefix +:+ kv.1 := VInt kv.2]> tb) team_base s.

(** The column name [f"delta_m{m}_{name}_100_minus_200"]. *)
Definition delta_key (m : Z) (name : string) : string :=
  "delta_m" +:+ pretty m +:+ "_" +:+ name +:+ "_100_minus_200".

(** The body of the loop [for m in SNAP_MINUTES] of [main]. *)
Definition snap_minute (tl : timeline) (team100 team200 : list (option Z))
    (team_base : row) (m : Z) : row :=
  let s100 := extract_team_snapshot tl m team100 in
  let s200 := extract_team_snapshot tl m team200 in
  let team_base := copy_snapshot "t100_" team_base s100 in
  let team_base := copy_snapshot "t200_" team_base s200 in
  let g100 := snapshot_get s100 (team_key m "totalGold") in
  let g200 := snapshot_get s200 (team_key m "totalGold") in
  let team_base :=
    match g100, g200 with
    | Some g100, Some g200 =>
        <[delta_key m "gold" := VInt (g100 - g200)]> team_base
    | _, _ => team_base
    end in
  let xp100 := snapshot_get s100 (team_key m "xp") in
  let xp200 := snapshot_get s200 (team_key m "xp") in
  match xp100, xp200 with
  | Some xp100, Some xp200 =>
      <[delta_key m "xp" := VInt (xp100 - xp200)]> team_base
  | _, _ => team_base
  end.

(** The win labels: the last entry of [teams] with a given team id wins. *)
Definition win_labels (teams_ : list team_entry) : option Z * option Z :=
  foldl (fun (w : option Z * option Z) t =>
           let w := if decide (team_teamId t = Some 100)
                    then (Some (if team_win t then 1 else 0), w.2) else w in
           if decide (team_teamId t = Some 200)
           then (w.1, Some (if team_win t then 1 else 0)) else w)
        (None, None) teams_.

Definition of_label (w : option Z) : pyval :=
  match w with
  | Some z => VInt z
  | None => VNone
  end.

(** The team row that [main] appends for one match whose timeline exists;
    [None] when the match is skipped for not having 10 participants.
    [match_id] is [metadata.get("matchId") or mp.stem]. *)
Definition team_row (match_id : string) (match_ : match_json) (tl : timeline)
    : option row :=
  let base_match : row :=
    list_to_map
      [("matchId", VStr match_id);
       ("gameCreation", gameCreation match_);
       ("gameDuration", gameDuration match_);
       ("gameVersion", gameVersion match_);
       ("queueId", queueId match_);
       ("mapId", mapId match_);
       ("platformId", platformId match_)] in
  let participants_ := participants match_ in
  if decide (length participants_ ≠ 10%nat) then None
  else
    let team100 :=
      participantId <$> filter (fun p => teamId p = Some 100) participants_ in
    let team200 :=
      participantId <$> filter (fun p => teamId p = Some 200) participants_ in
    let team_base := foldl (snap_minute tl team100 team200) base_match SNAP_MINUTES in
    let '(win100, win200) := win_labels (teams match_) in
    let team_base := <["team100_win" := of_label win100]> team_base in
    let team_base := <["team200_win" := of_label win200]> team_base in
    Some team_base.

(** The column name [f"m{minute}_{name}"]. *)
Definition participant_key (minute : Z) (name : string) : string :=
  "m" +:+ pretty minute +:+ "_" +:+ name.

(** [extract_participant_snapshot]: the raw fields of one participant at the
    frame of index [minute]; a null field stays a null cell.  The returned
    dict is kept as its list of items, [{}] is []. *)
Definition extract_participant_snapshot (tl : timeline) (minute : Z)
    (participant_id : option Z) : list (string * pyval) :=
  match get_frame tl minute with
  | None => []
  | Some frame_ =>
      let pf := participantFrames frame_ in
      let key := py_str participant_id in
      match pf !! key with
      | None => []
      | Some x =>
          [(participant_key minute "totalGold", of_label (totalGold x));
           (participant_key minute "xp", of_label (xp x));
           (participant_key minute "level", of_label (level x));
           (participant_key minute "minionsKilled", of_label (minionsKilled x));
           (participant_key minute "jungleMinionsKilled",
            of_label (jungleMinionsKilled x));
           (participant_key minute "currentGold", of_label (currentGold x))]
      end
  end.

End build_dataset.

(** ** augment_champ_roles.py *)

Module augment_champ_roles.

Definition ROLES : list string :=
  ["TOP"; "JUNGLE"; "MIDDLE"; "BOTTOM"; "UTILITY"].

(** The fields of a participant record that this script reads. *)
Record role_participant := RoleParticipant {
  rp_teamId : option Z;
  teamPosition : option string;
  championId : option Z;
}.

(** The column name [f"t{tid}_{r}_champ"]. *)
Definition champ_key (tid : Z) (r : string) : string :=
  "t" +:+ pretty tid +:+ "_" +:+ r +:+ "_champ".

(** [row = {"match_id": match_id}], then every champion column set to
    [None]. *)
Definition init_row (match_id : string) : row :=
  foldl (fun (row_ : row) tid =>
           foldl (fun (row_ : row) r => <[champ_key tid r := VNone]> row_)
                 row_ ROLES)
        {[ "match_id" := VStr match_id ]} [100; 200].

(** The body of the loop [for p in parts].  The key is one of the columns
    set by [init_row], so [row[key]] never fails. *)
Definition assign (row_ : row) (p : role_participant) : row :=
  match rp_teamId p, teamPosition p, championId p with
  | Some tid, Some role, Some champ =>
      if team_in (Some tid) && bool_decide (role ∈ ROLES) then
        let key := champ_key tid role in
        match row_ !! key with
        | Some VNone => <[key := VInt champ]> row_
        | _ => row_
        end
      else row_
  | _, _, _ => row_
  end.

(** The row [main] builds for one match file. *)
Definition match_row (match_id : string) (parts : list role_participant) : row :=
  foldl assign (init_row match_id) parts.

End augment_champ_roles.

(** ** The dataset merger *)

Module merger.

(** Modelled from the spec: the left-outer join that both [main]s call as
    [base.merge(feat, left_on=key_col, right_on="match_id", how="left")];
    the join itself is the table library's and is not part of the sources.
    A table is the list of its rows, a missing cell is an absent key.  Each
    base row, in order, is paired with every feature row whose [match_id]
    equals the base row's key cell; a base row with no partner is kept as it
    is, so that every new column is missing in it. *)
Definition merge_left (key_col : string) (base feat : list row) : list row :=
  l ← base;
  match filter (fun r : row => r !! "match_id" = l !! key_col) feat with
  | [] => [l]
  | partners => (fun r : row => l ∪ r) <$> partners
  end.

(** The key column of a table. *)
Definition keys (col : string) (table : list row) : list (option pyval) :=
  (fun r : row => r !! col) <$> table.

End merger.

(** * Vocabulary of the properties *)

Module objectives_spec.
Import augment_objectives.

(** The counter [base[t][field]]. *)
Definition counter (b : gmap Z (gmap string Z)) (t : Z) (field : string) : Z :=
  (b !!! t) !!! field.

(** 1 when [team] is resolved to [t], else 0. *)
Definition hit (team : option Z) (t : Z) : Z :=
  if decide (team = Some t) then 1 else 0.

(** How many of the assisting participants are on team [t]. *)
Definition assists_of (pid2team : gmap Z Z) (t : Z) (assists : list Z) : Z :=
  Z.of_nat (length (filter (fun ap => team_from_pid (Some ap) pid2team = Some t) assists)).

(** Every event of a timeline, in scan order. *)
Definition all_events (frames_ : list frame) : list event :=
  frames_ ≫= events.

(** A timeline without the events past the 15-minute cut. *)
Definition within15 (ev : event) : Prop :=
  match ev_timestamp ev with
  | Some ts => ts ≤ CUT15
  | None => True
  end.

#[global] Instance within15_dec ev : Decision (within15 ev).
Proof. unfold within15. destruct (ev_timestamp ev); apply _. Defined.

Definition drop_late (frames_ : list frame) : list frame :=
  (fun fr => {| fr_timestamp := fr_timestamp fr;
                participantFrames := participantFrames fr;
                events := filter within15 (events fr) |}) <$> frames_.

(** The four first-occurrence markers, their variable and their column. *)
Inductive marker_id := Blood | Drake | Tower | Herald.

Definition marker (m : marker_id) (st : scan_state) : Z :=
  match m with
  | Blood => first_blood_team st
  | Drake => first_drake_team st
  | Tower => first_tower_team st
  | Herald => first_herald_team st
  end.

Definition marker_column (m : marker_id) : string :=
  match m with
  | Blood => "first_blood"
  | Drake => "first_drake"
  | Tower => "first_tower"
  | Herald => "first_herald"
  end.

End objectives_spec.

Module more_spec.
Import augment_more.

(** The frame has a timestamp and it does not exceed the cutoff. *)
Definition at_or_before (cut_ms : Z) (fr : frame) : bool :=
  match fr_timestamp fr with
  | Some ts => ts <=? cut_ms
  | None => false
  end.

(** The timestamps that are present never decrease along the list. *)
Definition ts_sorted (frames_ : list frame) : Prop :=
  Sorted Z.le (omap fr_timestamp frames_).

(** The latest frame at or before the cutoff, the earliest frame when there
    is none: the selection rule in the words of the specification. *)
Definition latest_at_or_before (frames_ : list frame) (cut_ms : Z) : option frame :=
  match last (filter (fun fr => at_or_before cut_ms fr) frames_) with
  | Some fr => Some fr
  | None => head frames_
  end.

(** No entry of the frame's [participantFrames] resolves to team 100 or
    200: its key is not an integer, or the id is unknown or on another
    team. *)
Definition unresolved (py_int : string → option Z) (pid2team : gmap Z Z)
    (fr : frame) : Prop :=
  ∀ pid_str obj, participantFrames fr !! pid_str = Some obj →
    match py_int pid_str with
    | Some pid => team_in (pid2team !! pid) = false
    | None => True
    end.

(** The eight windowed-economy delta columns. *)
Definition delta_columns : list string :=
  ["delta_m8_gold_100_minus_200"; "delta_m8_xp_100_minus_200";
   "delta_m8_cs_100_minus_200"; "delta_m8_lvl_100_minus_200";
   "delta_m12_gold_100_minus_200"; "delta_m12_xp_100_minus_200";
   "delta_m12_cs_100_minus_200"; "delta_m12_lvl_100_minus_200"].

End more_spec.

Module dataset_spec.
Import build_dataset.

(** The ids [main] hands to the extractor for team [t]. *)
Definition team_ids (t : Z) (match_ : match_json) : list (option Z) :=
  participantId <$> filter (fun p => teamId p = Some t) (participants match_).

(** Ten participants, five on each of the teams 100 and 200. *)
Definition five_a_side (match_ : match_json) : Prop :=
  length (participants match_) = 10%nat
  ∧ length (team_ids 100 match_) = 5%nat
  ∧ length (team_ids 200 match_) = 5%nat.

(** The participant has an entry in the frame. *)
Definition present (pf : gmap string pframe) (pid : option Z) : bool :=
  bool_decide (is_Some (pf !! py_str pid)).

(** The participant has an entry in the frame whose gold, xp and level are
    all there: the ones the loop adds up. *)
Definition aggregated (pf : gmap string pframe) (pid : option Z) : bool :=
  match pf !! py_str pid with
  | Some x =>
      bool_decide (is_Some (totalGold x) ∧ is_Some (xp x) ∧ is_Some (level x))
  | None => false
  end.

(** minionsKilled + jungleMinionsKilled of a participant of the frame. *)
Definition cs_of (pf : gmap string pframe) (pid : option Z) : Z :=
  match pf !! py_str pid with
  | Some x => or0 (minionsKilled x) + or0 (jungleMinionsKilled x)
  | None => 0
  end.

Definition sum_cs (pf : gmap string pframe) (ids : list (option Z)) : Z :=
  foldr Z.add 0 (cs_of pf <$> ids).

(** A match of ten, ids 1..5 on team 100 and 6..10 on team 200. *)
Definition sample_match : match_json :=
  {| gameCreation := VNone; gameDuration := VNone; gameVersion := VNone;
     queueId := VNone; mapId := VNone; platformId := VNone;
     participants :=
       (fun i => Participant (Some i) (Some (if i <=? 5 then 100 else 200)))
       <$> [1; 2; 3; 4; 5; 6; 7; 8; 9; 10];
     teams := [TeamEntry (Some 100) true; TeamEntry (Some 200) false] |}.

(** A one-frame timeline in which participant 1 has 7 minions but a null
    [totalGold], and participants 2..5 have 10 minions each. *)
Definition null_gold_timeline : timeline :=
  let full := PFrame (Some 500) (Some 300) (Some 1) (Some 10) (Some 0) (Some 0) in
  {| frames :=
       [ {| fr_timestamp := Some 0;
            participantFrames :=
              list_to_map
                [("1", PFrame None (Some 300) (Some 1) (Some 7) (Some 0) (Some 0));
                 ("2", full); ("3", full); ("4", full); ("5", full)];
            events := [] |} ] |}.

End dataset_spec.

Module merger_spec.
Import merger.

(** A per-match feature table: no two rows carry the same match id. *)
Definition per_match (feat : list row) : Prop :=
  NoDup (keys "match_id" feat).

(** The feature row joined to a base row, if there is one. *)
Definition partner (key_col : string) (feat : list row) (l : row) : option row :=
  head (filter (fun r : row => r !! "match_id" = l !! key_col) feat).

End merger_spec.

(** Concrete inputs on which the properties are run. *)
Module samples.

(** Ids 1..5 on team 100, 6..10 on team 200. *)
Definition pid2team : gmap Z Z :=
  augment_objectives.get_participant_team_map dataset_spec.sample_match.

(** Participant 1 kills participant 6, helped by 2 and 3. *)
Definition kill_at (ts : Z) : event :=
  {| ev_timestamp := Some ts; ev_type := Some "CHAMPION_KILL";
     killerId := Some 1; victimId := Some 6;
     assistingParticipantIds := Some [2; 3]; killerTeamId := None;
     buildingType := None; monsterType := None; creatorId := None;
     wardType := None |}.

(** Participant 7 kills participant 2, alone. *)
Definition revenge_at (ts : Z) : event :=
  {| ev_timestamp := Some ts; ev_type := Some "CHAMPION_KILL";
     killerId := Some 7; victimId := Some 2;
     assistingParticipantIds := None; killerTeamId := None;
     buildingType := None; monsterType := None; creatorId := None;
     wardType := None |}.

(** Participant 1 kills participant 6, alone. *)
Definition solo_kill_at (ts : Z) : event :=
  {| ev_timestamp := Some ts; ev_type := Some "CHAMPION_KILL";
     killerId := Some 1; victimId := Some 6;
     assistingParticipantIds := None; killerTeamId := None;
     buildingType := None; monsterType := None; creatorId := None;
     wardType := None |}.

(** Participant 1 takes a turret plate. *)
Definition plate_at (ts : Z) : event :=
  {| ev_timestamp := Some ts; ev_type := Some "TURRET_PLATE_DESTROYED";
     killerId := Some 1; victimId := None;
     assistingParticipantIds := None; killerTeamId := None;
     buildingType := None; monsterType := None; creatorId := None;
     wardType := None |}.

(** Participant 8 places a control ward. *)
Definition ward_at (ts : Z) : event :=
  {| ev_timestamp := Some ts; ev_type := Some "WARD_PLACED";
     killerId := None; victimId := None;
     assistingParticipantIds := None; killerTeamId := None;
     buildingType := None; monsterType := None; creatorId := Some 8;
     wardType := Some "CONTROL_WARD" |}.

(** A frame with the given events, and one with the given timestamp. *)
Definition frame_of (evs : list event) : frame :=
  {| fr_timestamp := Some 0; participantFrames := ∅; events := evs |}.

Definition frame_at (ts : Z) : frame :=
  {| fr_timestamp := Some ts; participantFrames := ∅; events := [] |}.

(** Every participant of the match with the same snapshot, except that the
    players of team 200 have 100 gold more. *)
Definition full_frame (ts : Z) : frame :=
  {| fr_timestamp := Some ts;
     participantFrames :=
       list_to_map
         ((fun i : Z =>
             (pretty i,
              PFrame (Some (if i <=? 5 then 3000 else 3100)) (Some 2500)
                     (Some 6) (Some 60) (Some 4) (Some 0)))
          <$> [1; 2; 3; 4; 5; 6; 7; 8; 9; 10]);
     events := [] |}.

(** Eleven frames, minutes 0 to 10; only the last one has participants. *)
Definition eleven_minutes : timeline :=
  {| frames := (frame_at <$> [0; 60000; 120000; 180000; 240000; 300000;
                              360000; 420000; 480000; 540000])
               ++ [full_frame 600000] |}.

(** Eight frames, minutes 0 to 7. *)
Definition eight_minutes : timeline :=
  {| frames := full_frame <$> [0; 60000; 120000; 180000; 240000; 300000;
                               360000; 420000] |}.

(** Decimal digits read as an integer: a plain stand-in for [int] on the
    keys of [participantFrames]. *)
Fixpoint digits_value (acc : Z) (s : string) : option Z :=
  match s with
  | EmptyString => Some acc
  | String c rest =>
      let n := Z.of_N (Ascii.N_of_ascii c) in
      if (48 <=? n) && (n <=? 57) then digits_value (10 * acc + (n - 48)) rest
      else None
  end.

Definition int_of_digits (s : string) : option Z :=
  match s with
  | EmptyString => None
  | _ => digits_value 0 s
  end.

(** A timeline whose frames only know the ids 11 and 12, which are on no
    team. *)
Definition strangers : timeline :=
  {| frames :=
       [ {| fr_timestamp := Some 0;
            participantFrames :=
              list_to_map
                [("11", PFrame (Some 900) (Some 800) (Some 3) (Some 20) None None);
                 ("12", PFrame (Some 950) (Some 700) (Some 3) (Some 25) None None)];
            events := [] |} ] |}.

(** A base table of two matches and a feature table that knows one. *)
Definition base_table : list row :=
  [ {[ "matchId" := VStr "EUW1_1" ]}; {[ "matchId" := VStr "EUW1_2" ]} ].

Definition feature_table : list row :=
  [ <["match_id" := VStr "EUW1_2"]> {[ "diff_k10" := VInt 3 ]} ].

End samples.

(** * Vocabulary of the further properties *)

Module scan_laws.
Import augment_objectives objectives_spec.

(** The team the map gives to [pid]: that of the last participant carrying
    this id together with a team id. *)
Definition team_of_last (pid : Z) (ps : list participant) : option Z :=
  last (omap (fun p =>
                match participantId p, teamId p with
                | Some i, Some t => if decide (i = pid) then Some t else None
                | _, _ => None
                end) ps).

(** What one event adds to the counter [field] of team [t]: its effect on
    the fresh counters. *)
Definition contribution (pid2team : gmap Z Z) (ev : event) (t : Z)
    (field : string) : Z :=
  counter (base (process_event pid2team init_state ev)) t field.

(** The sum of a list of integers. *)
Definition sum_Z (l : list Z) : Z := foldr Z.add 0 l.

(** The team an event latches the marker [m] to when the marker is still
    free, if any. *)
Definition latch_of (pid2team : gmap Z Z) (m : marker_id) (ev : event)
    : option Z :=
  let v := marker m (process_event pid2team init_state ev) in
  if v =? 0 then None else Some v.

(** The 15-minute counter that goes with a marker. *)
Definition marker_field (m : marker_id) : string :=
  match m with
  | Blood => "k15"
  | Drake => "drakes15"
  | Tower => "towers15"
  | Herald => "herald15"
  end.

(** The ten difference columns of the objective row and their counters. *)
Definition diff_columns : list (string * string) :=
  [("diff_k10", "k10"); ("diff_d10", "d10"); ("diff_a10", "a10");
   ("diff_k15", "k15"); ("diff_d15", "d15"); ("diff_a15", "a15");
   ("diff_plates14", "plates14"); ("diff_towers15", "towers15");
   ("diff_drakes15", "drakes15"); ("diff_herald15", "herald15")].

(** The ten counters of a team. *)
Definition counter_fields : list string := diff_columns.*2.

(** The event is a tower, dragon or Rift Herald kill, [field] is its counter
    and [m] its marker. *)
Definition objective_kind (ev : event) (field : string) (m : marker_id) : Prop :=
  (ev_type ev = Some "BUILDING_KILL"
   ∧ buildingType ev = Some "TOWER_BUILDING"
   ∧ field = "towers15" ∧ m = Tower)
  ∨ (ev_type ev = Some "ELITE_MONSTER_KILL"
     ∧ monsterType ev = Some "DRAGON"
     ∧ field = "drakes15" ∧ m = Drake)
  ∨ (ev_type ev = Some "ELITE_MONSTER_KILL"
     ∧ monsterType ev = Some "RIFTHERALD"
     ∧ field = "herald15" ∧ m = Herald).

End scan_laws.

Module ward_laws.
Import augment_more objectives_spec.

(** The counters [count_wards] starts from. *)
Definition ward_init : gmap Z (gmap string Z) :=
  <[100 := zero_wards]> (<[200 := zero_wards]> ∅).

(** 1 when the ward event is inside the 10-minute horizon. *)
Definition in10 (ts : Z) : Z := if ts <=? CUT10 then 1 else 0.

(** 1 when the placed ward is a control ward. *)
Definition control (ev : event) : Z :=
  if decide (wardType ev = Some "CONTROL_WARD") then 1 else 0.

(** The frames the loop of [pick_frame] visits: those before the first
    frame stamped later than the cutoff. *)
Fixpoint visited (frames_ : list frame) (cut_ms : Z) : list frame :=
  match frames_ with
  | [] => []
  | fr :: rest =>
      match fr_timestamp fr with
      | Some ts => if ts <=? cut_ms then fr :: visited rest cut_ms else []
      | None => fr :: visited rest cut_ms
      end
  end.

(** What one entry of [participantFrames] adds to a total: its effect on
    the fresh totals. *)
Definition entry_share (py_int : string → option Z) (pid2team : gmap Z Z)
    (entry : string * pframe) (t : Z) (field : string) : Z :=
  counter (sum_entry py_int pid2team
             (<[100 := zero_totals]> (<[200 := zero_totals]> ∅)) entry) t field.

(** The four totals of a team. *)
Definition total_fields : list string := ["gold"; "xp"; "cs"; "lvl"].

End ward_laws.

Module dataset_laws.
Import build_dataset dataset_spec.

(** A field of a participant of the frame, 0 when the participant or the
    field is missing. *)
Definition field_of (get : pframe → option Z) (pf : gmap string pframe)
    (pid : option Z) : Z :=
  default 0 (pf !! py_str pid ≫= get).

(** The label of team [t]: that of the last entry of [teams] with this team
    id, 1 for a win and 0 otherwise. *)
Definition label_of (t : Z) (teams_ : list team_entry) : option Z :=
  last (omap (fun e => if decide (team_teamId e = Some t)
                       then Some (if team_win e then 1 else 0) else None)
          teams_).

(** The five columns of a team snapshot. *)
Definition team_columns : list string :=
  ["totalGold"; "xp"; "cs"; "levelSum"; "participants_ok"].

End dataset_laws.

Module roles_laws.
Import augment_champ_roles.

(** The champion a participant brings to the column of team [tid] and role
    [role], if any. *)
Definition pick (tid : Z) (role : string) (p : role_participant) : option Z :=
  if decide (rp_teamId p = Some tid ∧ teamPosition p = Some role)
  then championId p else None.

(** A champion cell: the id, or the null cell. *)
Definition champ_cell (c : option Z) : pyval :=
  match c with
  | Some c => VInt c
  | None => VNone
  end.

End roles_laws.

(** ** Further sample inputs *)

Module more_samples.
Import samples.

(** A minion wave of team 200 takes a tower: the killer id 0 is no
    participant, the event names the team. *)
Definition tower_at (ts : Z) : event :=
  {| ev_timestamp := Some ts; ev_type := Some "BUILDING_KILL";
     killerId := Some 0; victimId := None;
     assistingParticipantIds := None; killerTeamId := Some 200;
     buildingType := Some "TOWER_BUILDING"; monsterType := None;
     creatorId := None; wardType := None |}.

(** Participant 2 dies to a tower: the killer id 0 is no participant. *)
Definition execution_at (ts : Z) : event :=
  {| ev_timestamp := Some ts; ev_type := Some "CHAMPION_KILL";
     killerId := Some 0; victimId := Some 2;
     assistingParticipantIds := None; killerTeamId := None;
     buildingType := None; monsterType := None; creatorId := None;
     wardType := None |}.

(** Two participants of team 100 in the top lane, champions 86 and 24. *)
Definition two_tops : list augment_champ_roles.role_participant :=
  [augment_champ_roles.RoleParticipant (Some 100) (Some "TOP") (Some 86);
   augment_champ_roles.RoleParticipant (Some 100) (Some "TOP") (Some 24)].

End more_samples.
(** * Properties *)

(** ** The objective aggregator *)

Section scan_facts.

Import augment_objectives objectives_spec.

Context (pid2team : gmap Z Z).

Lemma team_in_spec team :
  team_in team = true ↔ team = Some 100 ∨ team = Some 200.
Proof.
  destruct team as [t|]; simpl; [|naive_solver].
  rewrite orb_true_iff, !Z.eqb_eq. naive_solver.
Qed.

Lemma counter_update b team field inc t f :
  counter (update_counts b team field inc) t f =
  counter b t f +
  (if decide (team = Some t ∧ team_in team = true ∧ field = f) then inc else 0).
Proof.
  unfold update_counts, counter.
  destruct team as [t'|]; [|case_decide; [naive_solver|lia]].
  destruct (team_in (Some t')) eqn:Hin; simpl.
  - destruct (decide (t' = t)) as [->|Hne].
    + rewrite lookup_total_insert_eq.
      destruct (decide (field = f)) as [->|Hf].
      * rewrite lookup_total_insert_eq. case_decide; [lia|naive_solver].
      * rewrite lookup_total_insert_ne by done. case_decide; [naive_solver|lia].
    + rewrite lookup_total_insert_ne by done. case_decide; [naive_solver|lia].
  - case_decide; [naive_solver|lia].
Qed.

Lemma counter_hit b team field t f :
  t = 100 ∨ t = 200 →
  counter (update_counts b team field 1) t f =
  counter b t f + (if decide (field = f) then hit team t else 0).
Proof.
  intros Ht. rewrite counter_update. unfold hit.
  destruct (decide (team = Some t)) as [->|Hne].
  - assert (team_in (Some t) = true) by (apply team_in_spec; naive_solver).
    repeat case_decide; naive_solver.
  - repeat case_decide; naive_solver.
Qed.

Lemma counter_assists field b assists t f :
  t = 100 ∨ t = 200 →
  counter (count_assists pid2team field b assists) t f =
  counter b t f +
  (if decide (field = f) then assists_of pid2team t assists else 0).
Proof.
  intros Ht. unfold count_assists, assists_of. revert b.
  induction assists as [|ap assists IH]; intros b; simpl.
  - case_decide; lia.
  - rewrite IH, counter_hit by done. unfold hit.
    rewrite filter_cons. repeat case_decide; simpl; try lia; naive_solver.
Qed.

Lemma scan_all_events st frames_ :
  scan pid2team st frames_ = foldl (process_event pid2team) st (all_events frames_).
Proof.
  unfold scan, all_events. revert st.
  induction frames_ as [|fr frames_ IH]; intros st; simpl; [done|].
  by rewrite foldl_app, IH.
Qed.

Lemma process_event_late st ev ts :
  ev_timestamp ev = Some ts → CUT15 < ts → process_event pid2team st ev = st.
Proof.
  intros Hts Hlate. unfold process_event. rewrite Hts.
  by destruct (Z.ltb_spec CUT15 ts); [|lia].
Qed.

Lemma foldl_drop_late st evs :
  foldl (process_event pid2team) st (filter within15 evs) =
  foldl (process_event pid2team) st evs.
Proof.
  revert st. induction evs as [|ev evs IH]; intros st; [done|].
  rewrite filter_cons. destruct (decide (within15 ev)) as [Hin|Hout]; simpl.
  - apply IH.
  - rewrite IH. f_equal. unfold within15 in Hout.
    destruct (ev_timestamp ev) as [ts|] eqn:Hts; [|done].
    symmetry. apply (process_event_late st ev ts); [done|lia].
Qed.

Lemma scan_drop_late st frames_ :
  scan pid2team st (drop_late frames_) = scan pid2team st frames_.
Proof.
  unfold scan, drop_late. revert st.
  induction frames_ as [|fr frames_ IH]; intros st; simpl; [done|].
  by rewrite foldl_drop_late, IH.
Qed.

(** A latched marker is left alone by [latch]. *)
Lemma latch_latched first killer_team :
  first ≠ 0 → latch first killer_team = first.
Proof.
  intros Hne. unfold latch. destruct killer_team; [|done].
  by destruct (Z.eqb_spec first 0).
Qed.

Lemma latch_range first killer_team :
  first = 0 ∨ first = 100 ∨ first = 200 →
  latch first killer_team = 0 ∨ latch first killer_team = 100
  ∨ latch first killer_team = 200.
Proof.
  intros Hr. unfold latch. destruct killer_team as [t|]; [|done].
  destruct ((first =? 0) && team_in (Some t)) eqn:Hc; [|done].
  apply andb_true_iff in Hc as [_ Hin]. apply team_in_spec in Hin.
  naive_solver.
Qed.



(** Reading a counter after a champion kill, whatever the horizon. *)
Lemma champion_kill_counter st ev ts t f :
  ev_type ev = Some "CHAMPION_KILL" →
  ev_timestamp ev = Some ts →
  ts ≤ CUT15 →
  t = 100 ∨ t = 200 →
  let killer := team_from_pid (killerId ev) pid2team in
  let victim := team_from_pid (victimId ev) pid2team in
  let assists := default [] (assistingParticipantIds ev) in
  counter (base (process_event pid2team st ev)) t f =
  counter (base st) t f
  + (if decide ("a15" = f) then assists_of pid2team t assists else 0)
  + (if decide ("d15" = f) then hit victim t else 0)
  + (if decide ("k15" = f) then hit killer t else 0)
  + (if ts <=? CUT10 then
       (if decide ("a10" = f) then assists_of pid2team t assists else 0)
       + (if decide ("d10" = f) then hit victim t else 0)
       + (if decide ("k10" = f) then hit killer t else 0)
     else 0).
Proof.
  intros Het Hts H15 Ht. unfold process_event. rewrite Hts, Het.
  destruct (Z.ltb_spec CUT15 ts); [lia|].
  rewrite decide_True by done. cbn [base].
  rewrite counter_assists, !counter_hit by done.
  destruct (ts <=? CUT10).
  - rewrite counter_assists, !counter_hit by done. lia.
  - lia.
Qed.

Lemma marker_step_latched m st ev :
  marker m st ≠ 0 → marker m (process_event pid2team st ev) = marker m st.
Proof.
  intros Hne. unfold process_event.
  repeat (case_match; try done);
    destruct m; cbn [marker first_blood_team first_drake_team
                     first_tower_team first_herald_team] in *;
    try done; by apply latch_latched.
Qed.

Lemma marker_foldl_latched m st evs :
  marker m st ≠ 0 →
  marker m (foldl (process_event pid2team) st evs) = marker m st.
Proof.
  revert st. induction evs as [|ev evs IH]; intros st Hne; [done|].
  simpl. rewrite IH; rewrite marker_step_latched; done.
Qed.

Lemma marker_step_range m st ev :
  marker m st = 0 ∨ marker m st = 100 ∨ marker m st = 200 →
  marker m (process_event pid2team st ev) = 0
  ∨ marker m (process_event pid2team st ev) = 100
  ∨ marker m (process_event pid2team st ev) = 200.
Proof.
  intros Hr. unfold process_event.
  repeat (case_match; try done);
    destruct m; cbn [marker first_blood_team first_drake_team
                     first_tower_team first_herald_team] in *;
    try done; by apply latch_range.
Qed.

Lemma marker_foldl_range m st evs :
  marker m st = 0 ∨ marker m st = 100 ∨ marker m st = 200 →
  let st' := foldl (process_event pid2team) st evs in
  marker m st' = 0 ∨ marker m st' = 100 ∨ marker m st' = 200.
Proof.
  revert st. induction evs as [|ev evs IH]; intros st Hr; [done|].
  simpl. apply IH. by apply marker_step_range.
Qed.

Lemma plate_counter st ev ts t t' f :
  ev_type ev = Some "TURRET_PLATE_DESTROYED" →
  ev_timestamp ev = Some ts →
  team_from_pid (killerId ev) pid2team = Some t →
  t = 100 ∨ t = 200 →
  t' = 100 ∨ t' = 200 →
  counter (base (process_event pid2team st ev)) t' f =
  counter (base st) t' f
  + (if decide (t' = t ∧ f = "plates14" ∧ ts ≤ CUT14) then 1 else 0).
Proof.
  intros Het Hts Hk Ht Ht'. unfold process_event. rewrite Hts, Het, Hk.
  destruct (Z.ltb_spec CUT15 ts).
  { rewrite decide_False; [lia|]. unfold CUT14, CUT15 in *. lia. }
  rewrite decide_False by done. rewrite decide_True by done.
  destruct (Z.leb_spec ts CUT14).
  - cbn [base]. rewrite counter_hit by done. unfold hit.
    repeat case_decide; naive_solver.
  - rewrite decide_False; [lia|]. lia.
Qed.

End scan_facts.

Section objective_claims.

Import augment_objectives objectives_spec.

(** C1.  A champion kill inside the 15-minute window adds the kill, the death
    and the assists to the 15-minute counters of the resolved teams; at or
    before 10 minutes it adds the same amounts to the 10-minute counters, and
    after 10 minutes it leaves the 10-minute counters as they were.  No other
    counter moves.  A timeline whose only event is a kill at 5 minutes, killer
    on team 100, victim on team 200, no assists, gives [diff_k15 = 1],
    [diff_d15 = -1], [first_blood = 1] and the same on the 10-minute
    columns. *)
Theorem champion_kill_horizons :
  (∀ (pid2team : gmap Z Z) st ev ts t,
      ev_type ev = Some "CHAMPION_KILL" →
      ev_timestamp ev = Some ts →
      ts ≤ CUT15 →
      t = 100 ∨ t = 200 →
      let st' := process_event pid2team st ev in
      let k := hit (team_from_pid (killerId ev) pid2team) t in
      let d := hit (team_from_pid (victimId ev) pid2team) t in
      let a := assists_of pid2team t (default [] (assistingParticipantIds ev)) in
      counter (base st') t "k15" = counter (base st) t "k15" + k
      ∧ counter (base st') t "d15" = counter (base st) t "d15" + d
      ∧ counter (base st') t "a15" = counter (base st) t "a15" + a
      ∧ (ts ≤ CUT10 →
           counter (base st') t "k10" = counter (base st) t "k10" + k
           ∧ counter (base st') t "d10" = counter (base st) t "d10" + d
           ∧ counter (base st') t "a10" = counter (base st) t "a10" + a)
      ∧ (CUT10 < ts →
           counter (base st') t "k10" = counter (base st) t "k10"
           ∧ counter (base st') t "d10" = counter (base st) t "d10"
           ∧ counter (base st') t "a10" = counter (base st) t "a10")
      ∧ (∀ f, f ∉ ["k10"; "d10"; "a10"; "k15"; "d15"; "a15"] →
           counter (base st') t f = counter (base st) t f))
  ∧ (∀ match_id match_json_ fts pf ev,
      ev_type ev = Some "CHAMPION_KILL" →
      ev_timestamp ev = Some (5 * 60 * 1000) →
      team_from_pid (killerId ev) (get_participant_team_map match_json_) = Some 100 →
      team_from_pid (victimId ev) (get_participant_team_map match_json_) = Some 200 →
      default [] (assistingParticipantIds ev) = [] →
      let r := compute_features match_id match_json_
                 (Timeline [Frame fts pf [ev]]) in
      r !! "diff_k15" = Some (VInt 1)
      ∧ r !! "diff_d15" = Some (VInt (-1))
      ∧ r !! "diff_a15" = Some (VInt 0)
      ∧ r !! "first_blood" = Some (VInt 1)
      ∧ r !! "diff_k10" = Some (VInt 1)
      ∧ r !! "diff_d10" = Some (VInt (-1))
      ∧ r !! "diff_a10" = Some (VInt 0)).
Proof.
  split.
  - intros pid2team st ev ts t Het Hts H15 Ht st' k d a. subst st' k d a.
    pose proof (champion_kill_counter pid2team st ev ts t) as Hc.
    cbn zeta in Hc. split_and!.
    + rewrite Hc by done. destruct (ts <=? CUT10); simpl; lia.
    + rewrite Hc by done. destruct (ts <=? CUT10); simpl; lia.
    + rewrite Hc by done. destruct (ts <=? CUT10); simpl; lia.
    + intros Hcut. destruct (Z.leb_spec ts CUT10); [|lia].
      split_and!; rewrite Hc by done; simpl; lia.
    + intros Hcut. destruct (Z.leb_spec ts CUT10); [lia|].
      split_and!; rewrite Hc by done; simpl; lia.
    + intros f Hf. rewrite Hc by done.
      rewrite !decide_False by set_solver. destruct (ts <=? CUT10); lia.
  - intros match_id match_json_ fts pf ev Het Hts Hk Hv Ha r. subst r.
    unfold compute_features, scan. cbn [frames foldl events].
    unfold process_event. rewrite Hts, Het, Hk, Hv, Ha.
    repeat split; vm_compute; reflexivity.
Qed.

(** C9.  A turret-plate event whose destroyer resolves to a team adds one to
    that team's plate counter when its timestamp is at most 14 minutes and
    adds nothing when it is later; no other counter of either team moves.  A
    plate taken at 14:00:01 leaves [diff_plates14] at 0, one taken at 14:00:00
    sharp counts. *)
Theorem plate_cutoff :
  (∀ (pid2team : gmap Z Z) st ev ts t,
      ev_type ev = Some "TURRET_PLATE_DESTROYED" →
      ev_timestamp ev = Some ts →
      team_from_pid (killerId ev) pid2team = Some t →
      t = 100 ∨ t = 200 →
      let st' := process_event pid2team st ev in
      (ts ≤ CUT14 →
         counter (base st') t "plates14" = counter (base st) t "plates14" + 1)
      ∧ (CUT14 < ts →
         counter (base st') t "plates14" = counter (base st) t "plates14")
      ∧ (∀ t' f, t' = 100 ∨ t' = 200 → (t', f) ≠ (t, "plates14") →
         counter (base st') t' f = counter (base st) t' f))
  ∧ (∀ match_id match_json_ fts pf ev ts,
      ev_type ev = Some "TURRET_PLATE_DESTROYED" →
      ev_timestamp ev = Some ts →
      team_from_pid (killerId ev) (get_participant_team_map match_json_) = Some 100 →
      let r := compute_features match_id match_json_
                 (Timeline [Frame fts pf [ev]]) in
      (ts = 14 * 60 * 1000 + 1000 → r !! "diff_plates14" = Some (VInt 0))
      ∧ (ts = 14 * 60 * 1000 → r !! "diff_plates14" = Some (VInt 1))).
Proof.
  split.
  - intros pid2team st ev ts t Het Hts Hk Ht st'. subst st'.
    split_and!.
    + intros Hcut. rewrite (plate_counter pid2team st ev ts t) by done.
      rewrite decide_True by done. lia.
    + intros Hcut. rewrite (plate_counter pid2team st ev ts t) by done.
      rewrite decide_False; [lia|]. lia.
    + intros t' f Ht' Hne. rewrite (plate_counter pid2team st ev ts t) by done.
      rewrite decide_False; [lia|]. naive_solver.
  - intros match_id match_json_ fts pf ev ts Het Hts Hk r. subst r.
    unfold compute_features, scan. cbn [frames foldl events].
    unfold process_event. rewrite Hts, Het, Hk.
    split; intros ->; vm_compute; reflexivity.
Qed.

(** C3.  Within one scan a first-occurrence marker that has latched keeps its
    value through every later event; it only ever holds 0, 100 or 200; and
    the row carries it as 0 when it never latched, 1 for team 100 and -1 for
    team 200. *)
Theorem markers_write_once :
  ∀ (m : marker_id) match_id match_json_ tl_json,
    let pid2team := get_participant_team_map match_json_ in
    let final := scan pid2team init_state (frames tl_json) in
    (∀ evs1 evs2,
        all_events (frames tl_json) = evs1 ++ evs2 →
        let st1 := foldl (process_event pid2team) init_state evs1 in
        marker m st1 ≠ 0 → marker m final = marker m st1)
    ∧ (∀ st ev, marker m st ≠ 0 →
        marker m (process_event pid2team st ev) = marker m st)
    ∧ (let r := compute_features match_id match_json_ tl_json in
       (marker m final = 0 ∧ r !! marker_column m = Some (VInt 0))
       ∨ (marker m final = 100 ∧ r !! marker_column m = Some (VInt 1))
       ∨ (marker m final = 200 ∧ r !! marker_column m = Some (VInt (-1)))).
Proof.
  intros m match_id match_json_ tl_json pid2team final. split_and!.
  - intros evs1 evs2 Hsplit st1 Hne. subst final st1.
    rewrite scan_all_events, Hsplit, foldl_app.
    by apply marker_foldl_latched.
  - intros st ev. apply marker_step_latched.
  - cbn zeta. unfold compute_features. fold pid2team. fold final.
    assert (marker m final = 0 ∨ marker m final = 100 ∨ marker m final = 200)
      as Hr.
    { subst final. rewrite scan_all_events.
      apply marker_foldl_range. destruct m; by left. }
    assert (row_of_state match_id final !! marker_column m
            = Some (VInt (first_enc (marker m final)))) as ->.
    { destruct m; reflexivity. }
    destruct Hr as [->| [->| ->]]; [left|right; left|right; right]; done.
Qed.

End objective_claims.

(** ** The ward counter and the 15-minute window *)

Section ward_facts.

Import objectives_spec.

Context (pid2team : gmap Z Z).

Lemma ward_event_late c ev ts :
  ev_timestamp ev = Some ts → augment_more.CUT15 < ts →
  augment_more.ward_event pid2team c ev = c.
Proof.
  intros Hts Hlate. unfold augment_more.ward_event. rewrite Hts.
  by destruct (Z.ltb_spec augment_more.CUT15 ts); [|lia].
Qed.

Lemma ward_foldl_drop_late c evs :
  foldl (augment_more.ward_event pid2team) c (filter within15 evs) =
  foldl (augment_more.ward_event pid2team) c evs.
Proof.
  revert c. induction evs as [|ev evs IH]; intros c; [done|].
  rewrite filter_cons. destruct (decide (within15 ev)) as [Hin|Hout]; simpl.
  - apply IH.
  - rewrite IH. f_equal. unfold within15 in Hout.
    destruct (ev_timestamp ev) as [ts|] eqn:Hts; [|done].
    symmetry. apply (ward_event_late c ev ts); [done|].
    unfold augment_more.CUT15, augment_objectives.CUT15 in *. lia.
Qed.

Lemma ward_scan_drop_late c frames_ :
  augment_more.ward_scan pid2team c (drop_late frames_) =
  augment_more.ward_scan pid2team c frames_.
Proof.
  unfold augment_more.ward_scan, drop_late. revert c.
  induction frames_ as [|fr frames_ IH]; intros c; simpl; [done|].
  by rewrite ward_foldl_drop_late, IH.
Qed.

End ward_facts.

(** C2.  An event stamped later than 15 minutes leaves the whole state of the
    objective scan (every counter of both teams, and the markers) and every
    ward counter exactly as it was; a timeline stripped of such events gives
    the same objective row and the same ward columns. *)
Theorem late_events_ignored :
  (∀ (pid2team : gmap Z Z) st ev ts,
      ev_timestamp ev = Some ts → 15 * 60 * 1000 < ts →
      augment_objectives.process_event pid2team st ev = st)
  ∧ (∀ (pid2team : gmap Z Z) c ev ts,
      ev_timestamp ev = Some ts → 15 * 60 * 1000 < ts →
      augment_more.ward_event pid2team c ev = c)
  ∧ (∀ match_id match_json_ tl_json,
      augment_objectives.compute_features match_id match_json_
        (Timeline (objectives_spec.drop_late (frames tl_json)))
      = augment_objectives.compute_features match_id match_json_ tl_json)
  ∧ (∀ frames_ (pid2team : gmap Z Z),
      augment_more.count_wards (objectives_spec.drop_late frames_) pid2team
      = augment_more.count_wards frames_ pid2team).
Proof.
  split_and!.
  - intros pid2team st ev ts Hts Hlate.
    by apply (process_event_late pid2team st ev ts).
  - intros pid2team c ev ts Hts Hlate.
    by apply (ward_event_late pid2team c ev ts).
  - intros match_id match_json_ tl_json.
    unfold augment_objectives.compute_features. cbn [frames].
    by rewrite scan_drop_late.
  - intros frames_ pid2team. unfold augment_more.count_wards.
    by rewrite ward_scan_drop_late.
Qed.

(** ** The windowed frame selector and the windowed-economy deltas *)

Section more_facts.

Import augment_more more_spec.

Lemma at_or_before_spec cut_ms fr :
  at_or_before cut_ms fr ↔ ∃ ts, fr_timestamp fr = Some ts ∧ ts ≤ cut_ms.
Proof.
  unfold at_or_before. destruct (fr_timestamp fr) as [ts|].
  - rewrite Is_true_true, Z.leb_le. naive_solver.
  - naive_solver.
Qed.

Lemma filter_none {A} (P : A → Prop) `{!∀ x, Decision (P x)} (l : list A) :
  (∀ x, x ∈ l → ¬ P x) → filter P l = [].
Proof.
  intros Hl. destruct (filter P l) as [|x l'] eqn:Hf; [done|].
  assert (x ∈ filter P l) as Hin by (rewrite Hf; by left).
  apply list_elem_of_filter in Hin as [HP Hin]. by destruct (Hl x).
Qed.

Lemma pick_frame_loop_spec cut_ms frames_ best :
  ts_sorted frames_ →
  pick_frame_loop best frames_ cut_ms =
  match last (filter (fun fr => at_or_before cut_ms fr) frames_) with
  | Some fr => Some fr
  | None => best
  end.
Proof.
  unfold ts_sorted. revert best.
  induction frames_ as [|fr rest IH]; intros best Hs; [done|].
  cbn [pick_frame_loop]. rewrite filter_cons.
  cbn [omap list_omap] in Hs. fold (omap fr_timestamp rest) in Hs.
  pose proof (at_or_before_spec cut_ms fr) as Hb.
  destruct (fr_timestamp fr) as [ts|] eqn:Hts.
  - apply Sorted_StronglySorted in Hs; [|intros ???; lia].
    apply StronglySorted_inv in Hs as [Hs Hall].
    apply StronglySorted_Sorted in Hs.
    destruct (Z.leb_spec ts cut_ms) as [Hle|Hgt].
    + rewrite decide_True by (apply Hb; eauto). rewrite IH by done.
      rewrite last_cons. by destruct (last _).
    + rewrite decide_False by (rewrite Hb; intros (? & [= <-] & ?); lia).
      rewrite filter_none; [done|].
      intros fr' Hin (ts' & Hts' & Hle)%at_or_before_spec.
      rewrite Forall_forall in Hall.
      assert (ts ≤ ts'); [|lia].
      apply Hall, list_elem_of_omap. eauto.
  - rewrite decide_False by (rewrite Hb; naive_solver). by apply IH.
Qed.

(** The last element of a filtered list, by position in the list. *)
Lemma last_filter_lookup {A} (P : A → Prop) `{!∀ x, Decision (P x)}
    (l : list A) (x : A) :
  last (filter P l) = Some x →
  ∃ i, l !! i = Some x ∧ P x
       ∧ ∀ j y, (i < j)%nat → l !! j = Some y → ¬ P y.
Proof.
  induction l as [|y l IH] using rev_ind; [done|].
  rewrite filter_app, filter_cons, filter_nil.
  destruct (decide (P y)) as [HP|HP].
  - rewrite last_snoc. intros [= ->]. exists (length l). split_and!.
    + by rewrite lookup_app_r, Nat.sub_diag by done.
    + done.
    + intros j z Hj Hz. apply lookup_lt_Some in Hz.
      rewrite length_app in Hz. simpl in Hz. lia.
  - rewrite app_nil_r. intros Hlast.
    destruct (IH Hlast) as (i & Hi & HPx & Hlater).
    exists i. split_and!; [by apply lookup_app_l_Some|done|].
    intros j z Hj Hz. apply lookup_app_Some in Hz as [Hz|[Hlen Hz]].
    + by apply (Hlater j).
    + apply list_lookup_singleton_Some in Hz as [_ <-]. done.
Qed.

Lemma pick_frame_empty cut_ms : pick_frame [] cut_ms = None.
Proof. done. Qed.

Section sums.

Context (py_int : string → option Z) (pid2team : gmap Z Z).

Lemma sum_entry_unresolved totals pid_str obj :
  match py_int pid_str with
  | Some pid => team_in (pid2team !! pid) = false
  | None => True
  end →
  sum_entry py_int pid2team totals (pid_str, obj) = totals.
Proof.
  intros Hu. unfold sum_entry. destruct (py_int pid_str) as [pid|]; [|done].
  destruct (pid2team !! pid) as [tid|]; [|done]. by rewrite Hu.
Qed.

Lemma sum_team_unresolved fr :
  unresolved py_int pid2team fr →
  sum_team_from_frame py_int (Some fr) pid2team =
  sum_team_from_frame py_int None pid2team.
Proof.
  intros Hu. unfold sum_team_from_frame. rewrite map_to_list_empty.
  cbn [foldl].
  assert (∀ l totals,
    (∀ k obj, (k, obj) ∈ l → participantFrames fr !! k = Some obj) →
    foldl (sum_entry py_int pid2team) totals l = totals) as Hfold.
  { induction l as [|[k obj] l IH]; intros totals Hl; [done|].
    cbn [foldl]. rewrite sum_entry_unresolved.
    - apply IH. intros k' obj' Hin. apply Hl. by right.
    - apply (Hu k obj), Hl. by left. }
  apply Hfold. intros k obj Hin. by apply elem_of_map_to_list.
Qed.

Lemma diff_no_frame field :
  field ∈ ["gold"; "xp"; "cs"; "lvl"] →
  diff (sum_team_from_frame py_int None pid2team) field = 0.
Proof.
  intros Hf. unfold sum_team_from_frame. rewrite map_to_list_empty.
  cbn [foldl]. repeat (apply elem_of_cons in Hf as [->|Hf]; [by vm_compute|]).
  by apply elem_of_nil in Hf.
Qed.

End sums.


(** C7.  On a non-empty frame list whose timestamps never decrease, the
    selector returns a frame, and it is the one the rule names: the last
    frame of the list among those stamped at or before the cutoff, or the
    first frame of the list when no frame is stamped at or before it. *)
Theorem pick_frame_latest :
  ∀ (frames_ : list frame) (cut_ms : Z),
    frames_ ≠ [] →
    more_spec.ts_sorted frames_ →
    augment_more.pick_frame frames_ cut_ms
    = more_spec.latest_at_or_before frames_ cut_ms
    ∧ is_Some (augment_more.pick_frame frames_ cut_ms)
    ∧ (∀ fr, augment_more.pick_frame frames_ cut_ms = Some fr →
         (∃ i, frames_ !! i = Some fr
               ∧ more_spec.at_or_before cut_ms fr = true
               ∧ ∀ j fj, (i < j)%nat → frames_ !! j = Some fj →
                   more_spec.at_or_before cut_ms fj = false)
         ∨ (head frames_ = Some fr
            ∧ ∀ fj, fj ∈ frames_ → more_spec.at_or_before cut_ms fj = false)).
Proof.
  intros frames_ cut_ms Hne Hs.
  assert (augment_more.pick_frame frames_ cut_ms
          = more_spec.latest_at_or_before frames_ cut_ms) as Heq.
  { unfold augment_more.pick_frame, more_spec.latest_at_or_before.
    rewrite pick_frame_loop_spec by done. by destruct (last _). }
  split_and!; [done| |].
  - rewrite Heq. unfold more_spec.latest_at_or_before.
    destruct (last _); [by eexists|]. by destruct frames_; [|eexists].
  - intros fr. rewrite Heq. unfold more_spec.latest_at_or_before.
    destruct (last _) as [fr'|] eqn:Hlast.
    + intros [= ->]. left.
      apply last_filter_lookup in Hlast as (i & Hi & Hb & Hlater).
      exists i. split_and!; [done|by apply Is_true_eq_true|].
      intros j fj Hj Hfj. specialize (Hlater j fj Hj Hfj).
      by destruct (more_spec.at_or_before cut_ms fj).
    + intros Hh. right. split; [done|].
      apply last_None in Hlast. intros fj Hin.
      destruct (more_spec.at_or_before cut_ms fj) eqn:Hb; [|done].
      assert (fj ∈ filter (fun fr => more_spec.at_or_before cut_ms fr) frames_)
        as Hin' by (apply list_elem_of_filter; split; [by rewrite Hb|done]).
      rewrite Hlast in Hin'. by apply elem_of_nil in Hin'.
Qed.

(** Each delta column holds the team difference of one field of one of the
    two selected frames. *)
Lemma match_row_delta py_int match_id match_json_ tl_json col :
  col ∈ delta_columns →
  ∃ cut_ms field,
    cut_ms ∈ [CUT8; CUT12] ∧ field ∈ ["gold"; "xp"; "cs"; "lvl"]
    ∧ match_row py_int match_id match_json_ tl_json !! col
      = Some (VInt (diff (sum_team_from_frame py_int
                            (pick_frame (frames tl_json) cut_ms)
                            (get_pid2team match_json_)) field)).
Proof.
  unfold delta_columns, match_row. intros Hcol.
  apply elem_of_cons in Hcol as [->|Hcol].
  { exists CUT8, "gold". split_and!; [set_solver..|reflexivity]. }
  apply elem_of_cons in Hcol as [->|Hcol].
  { exists CUT8, "xp". split_and!; [set_solver..|reflexivity]. }
  apply elem_of_cons in Hcol as [->|Hcol].
  { exists CUT8, "cs". split_and!; [set_solver..|reflexivity]. }
  apply elem_of_cons in Hcol as [->|Hcol].
  { exists CUT8, "lvl". split_and!; [set_solver..|reflexivity]. }
  apply elem_of_cons in Hcol as [->|Hcol].
  { exists CUT12, "gold". split_and!; [set_solver..|reflexivity]. }
  apply elem_of_cons in Hcol as [->|Hcol].
  { exists CUT12, "xp". split_and!; [set_solver..|reflexivity]. }
  apply elem_of_cons in Hcol as [->|Hcol].
  { exists CUT12, "cs". split_and!; [set_solver..|reflexivity]. }
  apply elem_of_cons in Hcol as [->|Hcol].
  { exists CUT12, "lvl". split_and!; [set_solver..|reflexivity]. }
  by apply elem_of_nil in Hcol.
Qed.

End more_facts.

(** C10.  The row of the windowed-economy extractor always holds each of its
    eight delta columns with an integer in it; when the timeline has no
    frames, or when neither selected frame has a participant entry that
    resolves to team 100 or 200, that integer is 0. *)
Theorem windowed_deltas_zero_filled :
  ∀ (py_int : string → option Z) match_id match_json_ tl_json col,
    let pid2team := augment_more.get_pid2team match_json_ in
    let r := augment_more.match_row py_int match_id match_json_ tl_json in
    col ∈ more_spec.delta_columns →
    (∃ z, r !! col = Some (VInt z))
    ∧ (frames tl_json = []
       ∨ (∀ cut_ms fr,
            cut_ms ∈ [augment_more.CUT8; augment_more.CUT12] →
            augment_more.pick_frame (frames tl_json) cut_ms = Some fr →
            more_spec.unresolved py_int pid2team fr) →
       r !! col = Some (VInt 0)).
Proof.
  intros py_int match_id match_json_ tl_json col pid2team r Hcol.
  destruct (match_row_delta py_int match_id match_json_ tl_json col Hcol)
    as (cut_ms & field & Hcut & Hfield & Hr).
  fold pid2team r in Hr. rewrite Hr. split; [by eexists|].
  intros Hcase. do 2 f_equal.
  destruct (augment_more.pick_frame (frames tl_json) cut_ms) as [fr|] eqn:Hp.
  - destruct Hcase as [Hnil|Hun].
    + by rewrite Hnil in Hp.
    + rewrite sum_team_unresolved by eauto. by apply diff_no_frame.
  - by apply diff_no_frame.
Qed.

(** ** The team snapshot extractor *)

Section dataset_facts.

Import build_dataset dataset_spec.

#[local] Instance team_key_inj minute : Inj (=) (=) (team_key minute).
Proof.
  intros a b Heq. unfold team_key in Heq.
  by repeat apply String.app_inj in Heq.
Qed.

Lemma get_frame_lookup tl minute :
  get_frame tl minute =
  if bool_decide (0 ≤ minute < Z.of_nat (length (frames tl)))
  then frames tl !! Z.to_nat minute else None.
Proof.
  unfold get_frame. destruct (frames tl) as [|fr rest] eqn:Hf.
  { rewrite lookup_nil. by case_bool_decide. }
  rewrite <- Hf. clear Hf.
  destruct (Z.ltb_spec minute 0), (Z.leb_spec (Z.of_nat (length (frames tl))) minute);
    simpl; case_bool_decide; try done; lia.
Qed.

Section totals.

Context (pf : gmap string pframe).

Lemma add_participant_skipped acc pid :
  aggregated pf pid = false → add_participant pf acc pid = acc.
Proof.
  unfold aggregated, add_participant.
  destruct (pf !! py_str pid) as [x|]; [|done].
  destruct (totalGold x), (xp x), (level x); done.
Qed.

Lemma add_participant_counted acc pid :
  aggregated pf pid = true →
  ok (add_participant pf acc pid) = ok acc + 1
  ∧ total_cs (add_participant pf acc pid) = total_cs acc + cs_of pf pid.
Proof.
  unfold aggregated, add_participant, cs_of.
  destruct (pf !! py_str pid) as [x|]; [|done].
  intros Hb. apply bool_decide_eq_true in Hb as ([g ->] & [e ->] & [l ->]).
  done.
Qed.

Lemma sum_cs_cons pid ids :
  sum_cs pf (pid :: ids) = cs_of pf pid + sum_cs pf ids.
Proof. done. Qed.

Lemma foldl_add_participant acc ids :
  let acc' := foldl (add_participant pf) acc ids in
  let counted := filter (fun pid => aggregated pf pid) ids in
  ok acc' = ok acc + Z.of_nat (length counted)
  ∧ total_cs acc' = total_cs acc + sum_cs pf counted.
Proof.
  revert acc. induction ids as [|pid ids IH]; intros acc.
  { unfold sum_cs. simpl. lia. }
  cbn [foldl]. rewrite filter_cons.
  destruct (decide (aggregated pf pid)) as [Hag|Hag].
  - apply Is_true_true in Hag.
    destruct (IH (add_participant pf acc pid)) as [-> ->].
    destruct (add_participant_counted acc pid Hag) as [-> ->].
    rewrite sum_cs_cons, length_cons. lia.
  - apply Is_true_false in Hag.
    rewrite add_participant_skipped by done. apply IH.
Qed.

End totals.

(** What the extractor returns, in terms of the frame and of the
    participants the loop adds up. *)
Lemma extract_team_snapshot_unfold tl minute ids :
  extract_team_snapshot tl minute ids =
  match get_frame tl minute with
  | None => []
  | Some fr =>
      let pf := participantFrames fr in
      let acc := foldl (add_participant pf) (Totals 0 0 0 0 0) ids in
      if decide (filter (fun pid => aggregated pf pid) ids = []) then []
      else
        [(team_key minute "totalGold", total_gold acc);
         (team_key minute "xp", total_xp acc);
         (team_key minute "cs", sum_cs pf (filter (fun pid => aggregated pf pid) ids));
         (team_key minute "levelSum", total_lvl acc);
         (team_key minute "participants_ok",
          Z.of_nat (length (filter (fun pid => aggregated pf pid) ids)))]
  end.
Proof.
  unfold extract_team_snapshot. destruct (get_frame tl minute) as [fr|]; [|done].
  cbn zeta.
  destruct (foldl_add_participant (participantFrames fr) (Totals 0 0 0 0 0) ids)
    as [Hok Hcs].
  cbn [ok total_cs] in Hok, Hcs. rewrite Hok, Hcs, !Z.add_0_l.
  destruct (filter _ ids) as [|pid counted]; simpl; [done|].
  destruct (Z.eqb_spec (Z.pos (Pos.of_succ_nat (length counted))) 0); [lia|done].
Qed.

Lemma snapshot_get_cs minute g x c l k :
  snapshot_get
    [(team_key minute "totalGold", g); (team_key minute "xp", x);
     (team_key minute "cs", c); (team_key minute "levelSum", l);
     (team_key minute "participants_ok", k)] (team_key minute "cs")
  = Some c.
Proof.
  unfold snapshot_get. cbn [list_to_map foldr uncurry fst snd].
  rewrite !lookup_insert_ne by (intros Heq%(inj _); done).
  apply lookup_insert_eq.
Qed.

Lemma extract_team_snapshot_empty tl minute ids fr :
  get_frame tl minute = Some fr →
  extract_team_snapshot tl minute ids = []
  ↔ filter (fun pid => aggregated (participantFrames fr) pid) ids = [].
Proof.
  intros Hfr. rewrite extract_team_snapshot_unfold, Hfr. cbn zeta.
  by case_decide.
Qed.

(** The returned dict is empty or has exactly the five columns. *)
Lemma extract_team_snapshot_shape tl minute ids :
  extract_team_snapshot tl minute ids = []
  ∨ ∃ g x c l k,
      extract_team_snapshot tl minute ids =
      [(team_key minute "totalGold", g); (team_key minute "xp", x);
       (team_key minute "cs", c); (team_key minute "levelSum", l);
       (team_key minute "participants_ok", k)].
Proof.
  rewrite extract_team_snapshot_unfold.
  destruct (get_frame tl minute); [|by left]. cbn zeta.
  case_decide; [by left|right]. by repeat eexists.
Qed.

Lemma snapshot_get_gold_xp minute g x c l k :
  let s := [(team_key minute "totalGold", g); (team_key minute "xp", x);
            (team_key minute "cs", c); (team_key minute "levelSum", l);
            (team_key minute "participants_ok", k)] in
  snapshot_get s (team_key minute "totalGold") = Some g
  ∧ snapshot_get s (team_key minute "xp") = Some x.
Proof.
  unfold snapshot_get. cbn [list_to_map foldr uncurry fst snd]. split.
  - apply lookup_insert_eq.
  - rewrite lookup_insert_ne by (intros Heq%(inj _); done).
    apply lookup_insert_eq.
Qed.

(** The delta columns are written by nothing but their own assignment. *)
Lemma copy_snapshot_delta prefix tb s m name :
  prefix = "t100_" ∨ prefix = "t200_" →
  copy_snapshot prefix tb s !! delta_key m name = tb !! delta_key m name.
Proof.
  intros Hp. unfold copy_snapshot. revert tb.
  induction s as [|kv s IH]; intros tb; [done|].
  cbn [foldl]. rewrite IH. apply lookup_insert_ne.
  by destruct Hp as [->| ->].
Qed.

Lemma delta_key_gold_xp m : delta_key m "gold" ≠ delta_key m "xp".
Proof.
  unfold delta_key. intros Heq. by repeat apply String.app_inj in Heq.
Qed.

Lemma delta_key_10_15 name name' : delta_key 10 name ≠ delta_key 15 name'.
Proof.
  unfold delta_key. intros Heq. apply String.app_inj in Heq.
  change (pretty 10) with "10" in Heq. change (pretty 15) with "15" in Heq.
  done.
Qed.

(** One turn of the minute loop seen from the delta columns. *)
Lemma snap_minute_delta tl team100 team200 tb m m' name :
  let s100 := extract_team_snapshot tl m team100 in
  let s200 := extract_team_snapshot tl m team200 in
  let cell (field : string) :=
    match snapshot_get s100 (team_key m field),
          snapshot_get s200 (team_key m field) with
    | Some v100, Some v200 => Some (VInt (v100 - v200))
    | _, _ => tb !! delta_key m' name
    end in
  snap_minute tl team100 team200 tb m !! delta_key m' name =
  if decide (delta_key m' name = delta_key m "xp") then cell "xp"
  else if decide (delta_key m' name = delta_key m "gold") then cell "totalGold"
  else tb !! delta_key m' name.
Proof.
  cbn zeta. unfold snap_minute.
  set (s100 := extract_team_snapshot tl m team100).
  set (s200 := extract_team_snapshot tl m team200).
  set (k := delta_key m' name).
  set (tb1 := copy_snapshot "t200_" (copy_snapshot "t100_" tb s100) s200).
  assert (tb1 !! k = tb !! k) as Htb1.
  { subst tb1 k. by rewrite !copy_snapshot_delta by auto. }
  pose proof (delta_key_gold_xp m) as Hne.
  clearbody tb1 k.
  destruct (snapshot_get s100 (team_key m "xp")) as [xp100|],
           (snapshot_get s200 (team_key m "xp")) as [xp200|],
           (snapshot_get s100 (team_key m "totalGold")) as [g100|],
           (snapshot_get s200 (team_key m "totalGold")) as [g200|];
    repeat case_decide; simplify_map_eq; done.
Qed.

(** The delta cell of minute [m] in the finished row. *)
Lemma team_row_delta match_id match_ tl r m field name :
  team_row match_id match_ tl = Some r →
  m ∈ SNAP_MINUTES →
  (field, name) = ("totalGold", "gold") ∨ (field, name) = ("xp", "xp") →
  r !! delta_key m name =
  match snapshot_get (extract_team_snapshot tl m (team_ids 100 match_))
                     (team_key m field),
        snapshot_get (extract_team_snapshot tl m (team_ids 200 match_))
                     (team_key m field) with
  | Some v100, Some v200 => Some (VInt (v100 - v200))
  | _, _ => None
  end.
Proof.
  intros Hrow Hm Hname. unfold team_row in Hrow. case_decide; [done|].
  destruct (win_labels (teams match_)) as [win100 win200].
  injection Hrow as <-. fold (team_ids 100 match_) (team_ids 200 match_).
  rewrite !lookup_insert_ne by done.
  unfold SNAP_MINUTES in *. cbn [foldl].
  rewrite !snap_minute_delta.
  pose proof (delta_key_gold_xp 10) as Hgx10.
  pose proof (delta_key_gold_xp 15) as Hgx15.
  pose proof (delta_key_10_15 name "xp") as H1.
  pose proof (delta_key_10_15 name "gold") as H2.
  pose proof (delta_key_10_15 "xp" name) as H3.
  pose proof (delta_key_10_15 "gold" name) as H4.
  apply elem_of_cons in Hm as [->|Hm%elem_of_cons];
    [|destruct Hm as [->|Hm%elem_of_nil]; [|done]];
    destruct Hname as [[= -> ->]|[= -> ->]];
    repeat case_decide; try done;
    repeat case_match; done.
Qed.

Lemma snapshot_get_nonempty tl minute ids :
  extract_team_snapshot tl minute ids ≠ [] →
  is_Some (snapshot_get (extract_team_snapshot tl minute ids)
                        (team_key minute "totalGold"))
  ∧ is_Some (snapshot_get (extract_team_snapshot tl minute ids)
                          (team_key minute "xp")).
Proof.
  intros Hne.
  destruct (extract_team_snapshot_shape tl minute ids)
    as [?|(g & x & c & l & k & ->)]; [done|].
  destruct (snapshot_get_gold_xp minute g x c l k) as [-> ->]. eauto.
Qed.

End dataset_facts.

Section dataset_claims.

Import build_dataset dataset_spec.

(** C4.  The extractor reads the frame at index [minute].  When there is no
    such index (negative, or past the last frame) it returns the empty
    result; when the frame exists it returns the empty result exactly when
    none of the requested participants could be added up.  With 8 frames a
    request for minute 10 gives the empty result. *)
Theorem no_snapshot_without_frame_or_players :
  ∀ (tl : timeline) (minute : Z) (ids : list (option Z)),
    (0 ≤ minute < Z.of_nat (length (frames tl)) →
       is_Some (get_frame tl minute)
       ∧ get_frame tl minute = frames tl !! Z.to_nat minute)
    ∧ (minute < 0 ∨ Z.of_nat (length (frames tl)) ≤ minute →
       get_frame tl minute = None
       ∧ extract_team_snapshot tl minute ids = [])
    ∧ (∀ fr, get_frame tl minute = Some fr →
       (extract_team_snapshot tl minute ids = []
        ↔ ∀ pid, pid ∈ ids → aggregated (participantFrames fr) pid = false))
    ∧ (length (frames tl) = 8%nat → extract_team_snapshot tl 10 ids = []).
Proof.
  intros tl minute ids. split_and!.
  - intros Hin. rewrite get_frame_lookup, bool_decide_eq_true_2 by done.
    split; [|done]. apply lookup_lt_is_Some. lia.
  - intros Hout.
    assert (get_frame tl minute = None) as Hnone.
    { rewrite get_frame_lookup, bool_decide_eq_false_2; [done|lia]. }
    split; [done|]. unfold extract_team_snapshot. by rewrite Hnone.
  - intros fr Hfr. rewrite (extract_team_snapshot_empty tl minute ids fr) by done.
    split.
    + intros Hnil pid Hin.
      destruct (aggregated (participantFrames fr) pid) eqn:Hag; [|done].
      assert (pid ∈ filter (fun pid => aggregated (participantFrames fr) pid) ids)
        as Hc by (apply list_elem_of_filter; by rewrite Hag).
      rewrite Hnil in Hc. by apply elem_of_nil in Hc.
    + intros Hall. apply filter_none. intros pid Hin Hag.
      by rewrite (Hall pid Hin) in Hag.
  - intros Hlen. unfold extract_team_snapshot.
    rewrite get_frame_lookup, bool_decide_eq_false_2; [done|]. rewrite Hlen. lia.
Qed.

(** C6, as the code has it.  In a match of ten split five and five, when the
    queried frame exists, the creep-score total of a team is the sum of
    minionsKilled + jungleMinionsKilled over those of its participants that
    are in the frame with gold, xp and level all present (at most five); when
    there is none, no snapshot is returned. *)
Theorem cs_sum_over_aggregated :
  ∀ (match_ : match_json) (tl : timeline) (minute t : Z) (fr : frame),
    five_a_side match_ →
    t = 100 ∨ t = 200 →
    get_frame tl minute = Some fr →
    let ids := team_ids t match_ in
    let pf := participantFrames fr in
    let counted := filter (fun pid => aggregated pf pid) ids in
    (length counted ≤ 5)%nat
    ∧ (counted ≠ [] →
       snapshot_get (extract_team_snapshot tl minute ids) (team_key minute "cs")
       = Some (sum_cs pf counted))
    ∧ (counted = [] → extract_team_snapshot tl minute ids = []).
Proof.
  intros match_ tl minute t fr (H10 & H100 & H200) Ht Hfr ids pf counted.
  split_and!.
  - etrans; [apply length_filter|]. subst ids. by destruct Ht as [->| ->]; lia.
  - intros Hne. rewrite extract_team_snapshot_unfold, Hfr. cbn zeta.
    fold pf. fold counted. rewrite decide_False by done.
    apply snapshot_get_cs.
  - intros Hnil. by apply (extract_team_snapshot_empty tl minute ids fr).
Qed.

(** C5.  In the team row of a match, for each snapshot minute, the gold and
    xp delta columns are there, holding team 100's total minus team 200's,
    when both teams produced a snapshot for that minute; when either snapshot
    is empty the two delta columns are absent from the row. *)
Theorem delta_only_when_both_snapshots :
  ∀ (match_id : string) (match_ : match_json) (tl : timeline) (r : row) (m : Z),
    team_row match_id match_ tl = Some r →
    m ∈ SNAP_MINUTES →
    let s100 := extract_team_snapshot tl m (team_ids 100 match_) in
    let s200 := extract_team_snapshot tl m (team_ids 200 match_) in
    (s100 ≠ [] ∧ s200 ≠ [] →
       ∃ g100 g200 xp100 xp200,
         snapshot_get s100 (team_key m "totalGold") = Some g100
         ∧ snapshot_get s200 (team_key m "totalGold") = Some g200
         ∧ snapshot_get s100 (team_key m "xp") = Some xp100
         ∧ snapshot_get s200 (team_key m "xp") = Some xp200
         ∧ r !! delta_key m "gold" = Some (VInt (g100 - g200))
         ∧ r !! delta_key m "xp" = Some (VInt (xp100 - xp200)))
    ∧ (s100 = [] ∨ s200 = [] →
       r !! delta_key m "gold" = None ∧ r !! delta_key m "xp" = None).
Proof.
  intros match_id match_ tl r m Hrow Hm s100 s200.
  rewrite (team_row_delta match_id match_ tl r m "totalGold" "gold") by auto.
  rewrite (team_row_delta match_id match_ tl r m "xp" "xp") by auto.
  fold s100 s200. split.
  - intros [H100 H200].
    destruct (snapshot_get_nonempty _ _ _ H100) as [[g100 Hg100] [xp100 Hx100]].
    destruct (snapshot_get_nonempty _ _ _ H200) as [[g200 Hg200] [xp200 Hx200]].
    fold s100 in Hg100, Hx100. fold s200 in Hg200, Hx200.
    exists g100, g200, xp100, xp200. by rewrite Hg100, Hg200, Hx100, Hx200.
  - intros [->| ->]; unfold snapshot_get; cbn [list_to_map foldr];
      rewrite lookup_empty; by repeat case_match.
Qed.

End dataset_claims.

(** ** The dataset merger *)

Section merger_facts.

Import merger merger_spec.

Lemma filter_key_unique (feat : list row) (k : option pyval) :
  per_match feat →
  (length (filter (fun r : row => r !! "match_id" = k) feat) ≤ 1)%nat.
Proof.
  unfold per_match, keys. induction feat as [|r feat IH]; [simpl; lia|].
  rewrite fmap_cons, NoDup_cons. intros [Hnotin Hnd].
  rewrite filter_cons. case_decide as Hk; [|by apply IH].
  rewrite filter_none; [simpl; lia|].
  intros r' Hin Hk'. apply Hnotin. rewrite Hk, <- Hk'.
  by apply list_elem_of_fmap_2.
Qed.

Lemma merge_left_rows key_col base feat :
  per_match feat →
  merge_left key_col base feat =
  (fun l : row =>
     match partner key_col feat l with
     | Some r => l ∪ r
     | None => l
     end) <$> base.
Proof.
  intros Hpm. unfold merge_left, partner.
  induction base as [|l base IH]; [done|].
  rewrite bind_cons, fmap_cons, IH. f_equal.
  pose proof (filter_key_unique feat (l !! key_col) Hpm) as Hlen.
  destruct (filter _ feat) as [|r [|r' rest]]; simpl in *; [done|done|lia].
Qed.

Lemma per_match_rows (stems : list string) (feat : list row) :
  NoDup stems →
  keys "match_id" feat ≡ₚ (fun s => Some (VStr s)) <$> stems →
  per_match feat.
Proof.
  intros Hnd Hperm. unfold per_match. rewrite Hperm.
  apply NoDup_fmap_2; [|done]. by intros s1 s2 [= ->].
Qed.

(** Without that condition the join is not row-preserving: a match id
    carried by two feature rows gives its base row twice. *)
Remark merge_left_repeated_id :
  length (merge_left "matchId" samples.base_table
            (samples.feature_table ++ samples.feature_table)) = 3%nat.
Proof. reflexivity. Qed.

End merger_facts.

(** C8.  Joining a per-match feature table (no match id twice) onto a base
    table gives one output row for each base row, in the base table's order;
    each output row extends its base row, by the columns of the feature row
    with the same match id when there is one, and by nothing otherwise, so
    that a column the base row lacks is missing in it.  The feature tables
    of both augmentation scripts, one row per file stem and sorted
    afterwards, are per-match. *)
Theorem left_join_keeps_rows :
  ∀ (key_col : string) (base feat : list row),
    merger_spec.per_match feat →
    let out := merger.merge_left key_col base feat in
    length out = length base
    ∧ (∀ i l, base !! i = Some l →
         ∃ o, out !! i = Some o
              ∧ l ⊆ o
              ∧ (∀ r, r ∈ feat → r !! "match_id" = l !! key_col → o = l ∪ r)
              ∧ ((∀ r, r ∈ feat → r !! "match_id" ≠ l !! key_col) →
                   o = l ∧ ∀ col, l !! col = None → o !! col = None))
    ∧ (∀ (py_int : string → option Z) files sorted,
         NoDup (files.*1.*1) →
         (sorted ≡ₚ augment_objectives.main_rows files
          ∨ sorted ≡ₚ augment_more.main_rows py_int files) →
         merger_spec.per_match sorted).
Proof.
  intros key_col base feat Hpm out. subst out.
  rewrite merge_left_rows by done. split_and!.
  - by rewrite length_fmap.
  - intros i l Hl. rewrite list_lookup_fmap, Hl. simpl. eexists. split; [done|].
    unfold merger_spec.partner.
    pose proof (filter_key_unique feat (l !! key_col) Hpm) as Hlen.
    destruct (filter _ feat) as [|r0 rest] eqn:Hf.
    + split_and!; [done| |done].
      intros r Hin Hk.
      assert (r ∈ filter (fun r : row => r !! "match_id" = l !! key_col) feat)
        as Hr by by apply list_elem_of_filter.
      rewrite Hf in Hr. by apply elem_of_nil in Hr.
    + simpl. split_and!; [apply map_union_subseteq_l| |].
      * intros r Hin Hk.
        assert (r ∈ filter (fun r : row => r !! "match_id" = l !! key_col) feat)
          as Hr by by apply list_elem_of_filter.
        rewrite Hf in Hr. destruct rest; [|simpl in Hlen; lia].
        by apply list_elem_of_singleton in Hr as ->.
      * intros Hnone.
        assert (r0 ∈ filter (fun r : row => r !! "match_id" = l !! key_col) feat)
          as Hr by (rewrite Hf; by left).
        apply list_elem_of_filter in Hr as [Hk Hin]. by destruct (Hnone r0).
  - intros py_int files sorted Hnd Hperm.
    apply (per_match_rows (files.*1.*1)); [done|].
    unfold merger.keys.
    destruct Hperm as [-> | ->];
      unfold augment_objectives.main_rows, augment_more.main_rows;
      rewrite <- !list_fmap_compose;
      (erewrite list_fmap_ext; [reflexivity|]); by intros i [[id m] tl] _.
Qed.

(** * The properties on concrete inputs *)

Import objectives_spec samples.

Lemma champion_kill_horizons_witness :
  let st5 := augment_objectives.process_event pid2team
               augment_objectives.init_state (kill_at 300000) in
  let st12 := augment_objectives.process_event pid2team
                augment_objectives.init_state (kill_at 720000) in
  300000 ≤ augment_objectives.CUT10
  ∧ augment_objectives.CUT10 < 720000 ≤ augment_objectives.CUT15
  ∧ counter (augment_objectives.base st5) 100 "k10" = 1
  ∧ counter (augment_objectives.base st5) 100 "a10" = 2
  ∧ counter (augment_objectives.base st5) 100 "k15" = 1
  ∧ counter (augment_objectives.base st12) 100 "k10" = 0
  ∧ counter (augment_objectives.base st12) 100 "k15" = 1
  ∧ augment_objectives.compute_features "EUW1_1" dataset_spec.sample_match
      (Timeline [frame_of [solo_kill_at 300000]]) !! "diff_d15"
    = Some (VInt (-1)).
Proof.
  intros st5 st12.
  destruct champion_kill_horizons as [Hgen Hone].
  destruct (Hgen pid2team augment_objectives.init_state (kill_at 300000)
              300000 100) as (Hk15 & _ & _ & H10 & _ & _);
    [reflexivity|reflexivity|vm_compute; discriminate|by left|].
  destruct H10 as (Hk10 & _ & Ha10); [vm_compute; discriminate|].
  destruct (Hgen pid2team augment_objectives.init_state (kill_at 720000)
              720000 100) as (Hk15' & _ & _ & _ & Hlate & _);
    [reflexivity|reflexivity|vm_compute; discriminate|by left|].
  destruct Hlate as (Hk10' & _ & _); [reflexivity|].
  destruct (Hone "EUW1_1" dataset_spec.sample_match (Some 0) ∅
              (solo_kill_at 300000)) as (_ & Hd15 & _);
    [reflexivity|reflexivity|reflexivity|reflexivity|reflexivity|].
  split_and!.
  - vm_compute; discriminate.
  - reflexivity.
  - vm_compute; discriminate.
  - subst st5. rewrite Hk10. reflexivity.
  - subst st5. rewrite Ha10. reflexivity.
  - subst st5. rewrite Hk15. reflexivity.
  - subst st12. rewrite Hk10'. reflexivity.
  - subst st12. rewrite Hk15'. reflexivity.
  - exact Hd15.
Defined.

Lemma late_events_ignored_witness :
  15 * 60 * 1000 < 900001
  ∧ augment_objectives.process_event pid2team augment_objectives.init_state
      (kill_at 900001) = augment_objectives.init_state
  ∧ augment_more.ward_event pid2team ∅ (ward_at 900001) = ∅
  ∧ augment_more.count_wards
      (drop_late [frame_of [ward_at 60000; ward_at 900001]]) pid2team
    = augment_more.count_wards [frame_of [ward_at 60000; ward_at 900001]] pid2team.
Proof.
  destruct late_events_ignored as (Hobj & Hward & _ & Hrow).
  split_and!.
  - lia.
  - apply (Hobj pid2team augment_objectives.init_state (kill_at 900001) 900001);
      [reflexivity|lia].
  - apply (Hward pid2team ∅ (ward_at 900001) 900001); [reflexivity|lia].
  - apply Hrow.
Defined.

Lemma markers_write_once_witness :
  let tl := Timeline [frame_of [solo_kill_at 60000]; frame_of [revenge_at 120000]] in
  let pid2team' := augment_objectives.get_participant_team_map
                     dataset_spec.sample_match in
  all_events (frames tl) = [solo_kill_at 60000] ++ [revenge_at 120000]
  ∧ marker Blood (foldl (augment_objectives.process_event pid2team')
                    augment_objectives.init_state [solo_kill_at 60000]) = 100
  ∧ marker Blood (augment_objectives.scan pid2team'
                    augment_objectives.init_state (frames tl)) = 100
  ∧ augment_objectives.compute_features "EUW1_1" dataset_spec.sample_match tl
      !! "first_blood" = Some (VInt 1).
Proof.
  intros tl pid2team'.
  destruct (markers_write_once Blood "EUW1_1" dataset_spec.sample_match tl)
    as (Hkeep & _ & Henc).
  assert (marker Blood (foldl (augment_objectives.process_event pid2team')
                          augment_objectives.init_state [solo_kill_at 60000])
          = 100) as Hfirst by reflexivity.
  specialize (Hkeep [solo_kill_at 60000] [revenge_at 120000] eq_refl).
  cbn zeta in Hkeep. fold pid2team' in Hkeep. rewrite Hfirst in Hkeep.
  assert (marker Blood (augment_objectives.scan pid2team'
                          augment_objectives.init_state (frames tl)) = 100)
    as Hfinal by (apply Hkeep; lia).
  split_and!; [reflexivity|exact Hfirst|exact Hfinal|].
  cbn zeta in Henc. fold pid2team' in Henc. rewrite Hfinal in Henc.
  destruct Henc as [[Hz _]|[[_ Hrow]|[Hz _]]]; [lia|exact Hrow|lia].
Defined.

Lemma plate_cutoff_witness :
  let st := augment_objectives.process_event pid2team
              augment_objectives.init_state (plate_at 841000) in
  let st' := augment_objectives.process_event pid2team
               augment_objectives.init_state (plate_at 840000) in
  augment_objectives.CUT14 < 841000
  ∧ counter (augment_objectives.base st) 100 "plates14"
    = counter (augment_objectives.base augment_objectives.init_state) 100 "plates14"
  ∧ counter (augment_objectives.base st') 100 "plates14"
    = counter (augment_objectives.base augment_objectives.init_state) 100 "plates14" + 1
  ∧ augment_objectives.compute_features "EUW1_1" dataset_spec.sample_match
      (Timeline [frame_of [plate_at 841000]]) !! "diff_plates14"
    = Some (VInt 0).
Proof.
  intros st st'. destruct plate_cutoff as [Hgen Hone].
  destruct (Hgen pid2team augment_objectives.init_state (plate_at 841000)
              841000 100) as (_ & Hlate & _);
    [reflexivity|reflexivity|reflexivity|by left|].
  destruct (Hgen pid2team augment_objectives.init_state (plate_at 840000)
              840000 100) as (Hin & _ & _);
    [reflexivity|reflexivity|reflexivity|by left|].
  destruct (Hone "EUW1_1" dataset_spec.sample_match (Some 0) ∅
              (plate_at 841000) 841000) as (Hrow & _);
    [reflexivity|reflexivity|reflexivity|].
  split_and!.
  - reflexivity.
  - apply Hlate. reflexivity.
  - apply Hin. vm_compute; discriminate.
  - apply Hrow. reflexivity.
Defined.

Lemma pick_frame_latest_witness :
  let frames_ := frame_at <$> [0; 420000; 480000; 540000] in
  more_spec.ts_sorted frames_
  ∧ augment_more.pick_frame frames_ augment_more.CUT8
    = more_spec.latest_at_or_before frames_ augment_more.CUT8
  ∧ more_spec.latest_at_or_before frames_ augment_more.CUT8
    = Some (frame_at 480000)
  ∧ augment_more.pick_frame (frame_at <$> [540000; 600000]) augment_more.CUT8
    = Some (frame_at 540000).
Proof.
  intros frames_.
  assert (more_spec.ts_sorted frames_) as Hs.
  { unfold more_spec.ts_sorted. simpl. repeat constructor; lia. }
  assert (more_spec.ts_sorted (frame_at <$> [540000; 600000])) as Hs'.
  { unfold more_spec.ts_sorted. simpl. repeat constructor; lia. }
  destruct (pick_frame_latest frames_ augment_more.CUT8) as (Heq & _ & _);
    [discriminate|exact Hs|].
  destruct (pick_frame_latest (frame_at <$> [540000; 600000]) augment_more.CUT8)
    as (Heq' & _ & _); [discriminate|exact Hs'|].
  split_and!; [exact Hs|exact Heq|reflexivity|].
  rewrite Heq'. reflexivity.
Defined.

Lemma windowed_deltas_zero_filled_witness :
  frames (Timeline []) = []
  ∧ "delta_m8_gold_100_minus_200" ∈ more_spec.delta_columns
  ∧ "delta_m12_cs_100_minus_200" ∈ more_spec.delta_columns
  ∧ augment_more.match_row int_of_digits "EUW1_1" dataset_spec.sample_match
      (Timeline []) !! "delta_m8_gold_100_minus_200" = Some (VInt 0)
  ∧ augment_more.match_row int_of_digits "EUW1_1" dataset_spec.sample_match
      strangers !! "delta_m12_cs_100_minus_200" = Some (VInt 0).
Proof.
  assert ("delta_m8_gold_100_minus_200" ∈ more_spec.delta_columns) as Hcol
    by (by left).
  assert ("delta_m12_cs_100_minus_200" ∈ more_spec.delta_columns) as Hcol'
    by (by do 6 right; left).
  split_and!; [reflexivity|exact Hcol|exact Hcol'| |].
  - apply windowed_deltas_zero_filled; [exact Hcol|by left].
  - apply windowed_deltas_zero_filled; [exact Hcol'|right].
    intros cut_ms fr _ Hfr pid_str obj Hobj.
    assert (fr = {| fr_timestamp := Some 0;
                    participantFrames := participantFrames fr;
                    events := [] |} ∧
            participantFrames fr
            = list_to_map
                [("11", PFrame (Some 900) (Some 800) (Some 3) (Some 20) None None);
                 ("12", PFrame (Some 950) (Some 700) (Some 3) (Some 25) None None)])
      as [_ Hpf].
    { unfold augment_more.pick_frame in Hfr. simpl in Hfr.
      destruct (0 <=? cut_ms); injection Hfr as <-; done. }
    rewrite Hpf in Hobj. cbn [list_to_map foldr uncurry] in Hobj.
    apply lookup_insert_Some in Hobj as [[<- _]|[_ Hobj]]; [reflexivity|].
    apply lookup_insert_Some in Hobj as [[<- _]|[_ Hobj]]; [reflexivity|].
    by rewrite lookup_empty in Hobj.
Defined.

Lemma no_snapshot_without_frame_or_players_witness :
  length (frames eight_minutes) = 8%nat
  ∧ (10 < 0 ∨ Z.of_nat (length (frames eight_minutes)) ≤ 10)
  ∧ build_dataset.get_frame eight_minutes 10 = None
  ∧ build_dataset.extract_team_snapshot eight_minutes 10
      (dataset_spec.team_ids 100 dataset_spec.sample_match) = []
  ∧ build_dataset.extract_team_snapshot eleven_minutes 9
      (dataset_spec.team_ids 100 dataset_spec.sample_match) = [].
Proof.
  assert (10 < 0 ∨ Z.of_nat (length (frames eight_minutes)) ≤ 10) as Hout
    by (right; vm_compute; discriminate).
  destruct (no_snapshot_without_frame_or_players eight_minutes 10
              (dataset_spec.team_ids 100 dataset_spec.sample_match))
    as (_ & Hnone & _ & _).
  destruct (Hnone Hout) as [Hframe Hsnap].
  destruct (no_snapshot_without_frame_or_players eleven_minutes 9
              (dataset_spec.team_ids 100 dataset_spec.sample_match))
    as (_ & _ & Hplayers & _).
  split_and!; [reflexivity|exact Hout|exact Hframe|exact Hsnap|].
  apply (Hplayers (frame_at 540000)); [reflexivity|].
  intros pid _. unfold dataset_spec.aggregated. simpl.
  by rewrite lookup_empty.
Defined.

Lemma delta_only_when_both_snapshots_witness :
  let r := default ∅ (build_dataset.team_row "EUW1_1" dataset_spec.sample_match
                        eleven_minutes) in
  build_dataset.team_row "EUW1_1" dataset_spec.sample_match eleven_minutes = Some r
  ∧ 10 ∈ build_dataset.SNAP_MINUTES
  ∧ 15 ∈ build_dataset.SNAP_MINUTES
  ∧ r !! "delta_m10_gold_100_minus_200" = Some (VInt (-500))
  ∧ r !! "delta_m15_gold_100_minus_200" = None
  ∧ r !! "delta_m15_xp_100_minus_200" = None.
Proof.
  intros r.
  assert (build_dataset.team_row "EUW1_1" dataset_spec.sample_match eleven_minutes
          = Some r) as Hrow.
  { subst r. unfold build_dataset.team_row.
    destruct (decide (length (participants dataset_spec.sample_match) ≠ 10%nat))
      as [Hlen|_]; [by destruct Hlen|].
    by destruct (build_dataset.win_labels (teams dataset_spec.sample_match)). }
  assert (10 ∈ build_dataset.SNAP_MINUTES) as H10 by (by left).
  assert (15 ∈ build_dataset.SNAP_MINUTES) as H15 by (right; by left).
  destruct (delta_only_when_both_snapshots _ _ _ r 10 Hrow H10) as [Hboth _].
  destruct (delta_only_when_both_snapshots _ _ _ r 15 Hrow H15) as [_ Hmissing].
  destruct Hboth as (g100 & g200 & x100 & x200 & Hg100 & Hg200 & _ & _ & Hgold & _);
    [split; discriminate|].
  destruct Hmissing as [Hgold15 Hxp15]; [by left|].
  split_and!; [exact Hrow|exact H10|exact H15| |exact Hgold15|exact Hxp15].
  change (build_dataset.delta_key 10 "gold") with "delta_m10_gold_100_minus_200" in Hgold.
  rewrite Hgold.
  vm_compute in Hg100, Hg200. injection Hg100 as <-. injection Hg200 as <-.
  reflexivity.
Defined.

Lemma cs_sum_over_aggregated_witness :
  dataset_spec.five_a_side dataset_spec.sample_match
  ∧ build_dataset.get_frame dataset_spec.null_gold_timeline 0
    = head (frames dataset_spec.null_gold_timeline)
  ∧ build_dataset.snapshot_get
      (build_dataset.extract_team_snapshot dataset_spec.null_gold_timeline 0
         (dataset_spec.team_ids 100 dataset_spec.sample_match))
      (build_dataset.team_key 0 "cs") = Some 40
  ∧ build_dataset.extract_team_snapshot dataset_spec.null_gold_timeline 0
      (dataset_spec.team_ids 200 dataset_spec.sample_match) = [].
Proof.
  assert (dataset_spec.five_a_side dataset_spec.sample_match) as Hfive
    by (split_and!; reflexivity).
  destruct (head (frames dataset_spec.null_gold_timeline)) as [fr|] eqn:Hfr;
    [|discriminate].
  assert (build_dataset.get_frame dataset_spec.null_gold_timeline 0 = Some fr)
    as Hget by exact Hfr.
  destruct (cs_sum_over_aggregated dataset_spec.sample_match
              dataset_spec.null_gold_timeline 0 100 fr Hfive
              (or_introl eq_refl) Hget) as (_ & Hsum & _).
  destruct (cs_sum_over_aggregated dataset_spec.sample_match
              dataset_spec.null_gold_timeline 0 200 fr Hfive
              (or_intror eq_refl) Hget) as (_ & _ & Hnone).
  injection Hfr as <-.
  split_and!; [exact Hfive|exact Hget| |].
  - rewrite Hsum; [reflexivity|discriminate].
  - apply Hnone. reflexivity.
Defined.

Lemma left_join_keeps_rows_witness :
  let out := merger.merge_left "matchId" base_table feature_table in
  merger_spec.per_match feature_table
  ∧ length out = length base_table
  ∧ out !! 0%nat = Some ({[ "matchId" := VStr "EUW1_1" ]} : row)
  ∧ (out !! 1%nat ≫= (fun o : row => o !! "diff_k10")) = Some (VInt 3).
Proof.
  intros out.
  assert (merger_spec.per_match feature_table) as Hpm.
  { unfold merger_spec.per_match. simpl. apply NoDup_singleton. }
  destruct (left_join_keeps_rows "matchId" base_table feature_table Hpm)
    as (Hlen & _ & _).
  split_and!; [exact Hpm|exact Hlen|reflexivity|reflexivity].
Defined.

(** C6, as it is worded, fails on the code: with ten participants split five
    and five, participant 1 is in the frame with 7 minions and a null
    [totalGold]; the sum over the participants present is 47, the extractor
    skips participant 1 and reports 40. *)
Lemma cs_sum_over_present_fails :
  dataset_spec.five_a_side dataset_spec.sample_match
  ∧ build_dataset.get_frame dataset_spec.null_gold_timeline 0
    = head (frames dataset_spec.null_gold_timeline)
  ∧ (dataset_spec.present
       (from_option participantFrames ∅
          (head (frames dataset_spec.null_gold_timeline)))
     <$> dataset_spec.team_ids 100 dataset_spec.sample_match)
    = [true; true; true; true; true]
  ∧ dataset_spec.sum_cs
      (from_option participantFrames ∅
         (head (frames dataset_spec.null_gold_timeline)))
      (filter
         (fun pid =>
            dataset_spec.present
              (from_option participantFrames ∅
                 (head (frames dataset_spec.null_gold_timeline))) pid)
         (dataset_spec.team_ids 100 dataset_spec.sample_match)) = 47
  ∧ build_dataset.snapshot_get
      (build_dataset.extract_team_snapshot dataset_spec.null_gold_timeline 0
         (dataset_spec.team_ids 100 dataset_spec.sample_match))
      (build_dataset.team_key 0 "cs") = Some 40.
Proof.
  unfold dataset_spec.five_a_side. split_and!; vm_compute; reflexivity.
Qed.


(** * Further properties *)

(** ** The participant-to-team map *)

Section pid2team_facts.

Import augment_objectives scan_laws.

Lemma team_map_foldl (ps : list participant) (m0 : gmap Z Z) (pid : Z) :
  foldl (fun (m : gmap Z Z) p =>
           match participantId p, teamId p with
           | Some pid, Some tid => <[pid := tid]> m
           | _, _ => m
           end) m0 ps !! pid
  = match team_of_last pid ps with
    | Some t => Some t
    | None => m0 !! pid
    end.
Proof.
  unfold team_of_last. revert m0.
  induction ps as [|p ps IH]; intros m0; [done|].
  cbn [foldl omap list_omap]. rewrite IH.
  fold (omap (fun p => match participantId p, teamId p with
                       | Some i, Some t => if decide (i = pid) then Some t else None
                       | _, _ => None
                       end) ps).
  destruct (participantId p) as [i|], (teamId p) as [t|]; try done.
  destruct (decide (i = pid)) as [->|Hne].
  - rewrite last_cons, lookup_insert_eq. by destruct (last _).
  - by rewrite lookup_insert_ne.
Qed.

End pid2team_facts.

(** X1.  The participant-to-team map gives an id the team of the last
    participant that carries this id together with a team id; participants
    lacking either field are left out, an id is in the map exactly when some
    participant carries it with a team, and the two scripts build the same
    map. *)
Theorem team_map_last_wins :
  ∀ (match_json_ : match_json) (pid : Z),
    augment_objectives.get_participant_team_map match_json_ !! pid
    = scan_laws.team_of_last pid (participants match_json_)
    ∧ (is_Some (augment_objectives.get_participant_team_map match_json_ !! pid)
       ↔ ∃ p t, p ∈ participants match_json_
                ∧ participantId p = Some pid ∧ teamId p = Some t)
    ∧ augment_more.get_pid2team match_json_
      = augment_objectives.get_participant_team_map match_json_.
Proof.
  intros match_json_ pid.
  assert (augment_objectives.get_participant_team_map match_json_ !! pid
          = scan_laws.team_of_last pid (participants match_json_)) as Heq.
  { unfold augment_objectives.get_participant_team_map.
    rewrite team_map_foldl, lookup_empty. by destruct (scan_laws.team_of_last _ _). }
  split_and!; [done| |done].
  rewrite Heq. unfold scan_laws.team_of_last. split.
  - intros [t Hlast]. apply last_Some in Hlast as [l Hl].
    assert (t ∈ omap (fun p =>
                match participantId p, teamId p with
                | Some i, Some t => if decide (i = pid) then Some t else None
                | _, _ => None
                end) (participants match_json_)) as Hin
      by (rewrite Hl; set_solver).
    apply list_elem_of_omap in Hin as (p & Hp & Hmatch).
    exists p, t. split; [done|].
    destruct (participantId p) as [i|], (teamId p) as [t'|]; try done.
    destruct (decide (i = pid)) as [->|]; [|done]. by injection Hmatch as ->.
  - intros (p & t & Hp & Hid & Ht).
    destruct (last _) as [t'|] eqn:Hlast; [by eexists|].
    apply last_None in Hlast.
    assert (t ∈ omap (fun p =>
                match participantId p, teamId p with
                | Some i, Some t => if decide (i = pid) then Some t else None
                | _, _ => None
                end) (participants match_json_)) as Hin.
    { apply list_elem_of_omap. exists p. split; [done|].
      rewrite Hid, Ht. by rewrite decide_True. }
    rewrite Hlast in Hin. by apply elem_of_nil in Hin.
Qed.

(** ** The scan as a sum over the events *)

(** Case analysis along the branches of [process_event]. *)
Ltac split_event :=
  unfold augment_objectives.process_event;
  repeat match goal with
         | |- context [match ev_timestamp ?e with _ => _ end] =>
             destruct (ev_timestamp e) eqn:?
         | |- context [if ?a <? ?b then _ else _] => destruct (Z.ltb_spec a b)
         | |- context [if ?a <=? ?b then _ else _] => destruct (Z.leb_spec a b)
         | |- context [decide ?P] => destruct (decide P)
         end;
  cbn [augment_objectives.base objectives_spec.marker
       augment_objectives.first_blood_team augment_objectives.first_drake_team
       augment_objectives.first_tower_team augment_objectives.first_herald_team].

(** Equalities between string literals, decided on the spot. *)
Ltac string_decides :=
  repeat match goal with
         | |- context [decide (?a = ?b)] =>
             first [ rewrite (decide_True (P := a = b)) by reflexivity
                   | rewrite (decide_False (P := a = b)) by discriminate ]
         end.

(** Membership in a list that is written out. *)
Ltac in_list := solve [ left | right; in_list ].

Section scan_laws_facts.

Import augment_objectives objectives_spec scan_laws.

Context (pid2team : gmap Z Z).

Lemma init_counter t f :
  t = 100 ∨ t = 200 → f ∈ counter_fields →
  counter (base init_state) t f = 0.
Proof.
  intros Ht Hf. unfold counter_fields, diff_columns in Hf. cbn in Hf.
  destruct Ht as [->| ->];
    repeat (apply elem_of_cons in Hf as [->|Hf]; [reflexivity|]);
    by apply elem_of_nil in Hf.
Qed.

Lemma process_event_counter st ev t f :
  t = 100 ∨ t = 200 → f ∈ counter_fields →
  counter (base (process_event pid2team st ev)) t f
  = counter (base st) t f + contribution pid2team ev t f.
Proof.
  intros Ht Hf. unfold contribution.
  pose proof (init_counter t f Ht Hf) as Hz.
  split_event;
    rewrite ?counter_assists, ?counter_hit by done;
    rewrite ?counter_assists, ?counter_hit by done;
    rewrite ?Hz; lia.
Qed.

Lemma foldl_counter st evs t f :
  t = 100 ∨ t = 200 → f ∈ counter_fields →
  counter (base (foldl (process_event pid2team) st evs)) t f
  = counter (base st) t f
    + sum_Z ((fun ev => contribution pid2team ev t f) <$> evs).
Proof.
  intros Ht Hf. revert st.
  induction evs as [|ev evs IH]; intros st; [simpl; lia|].
  cbn [foldl fmap list_fmap sum_Z foldr]. rewrite IH, process_event_counter by done.
  unfold sum_Z. lia.
Qed.

Lemma sum_Z_perm l1 l2 : l1 ≡ₚ l2 → sum_Z l1 = sum_Z l2.
Proof.
  unfold sum_Z. induction 1; simpl; lia.
Qed.

Lemma row_diff_column match_id st col f :
  (col, f) ∈ diff_columns →
  row_of_state match_id st !! col
  = Some (VInt (counter (base st) 100 f - counter (base st) 200 f)).
Proof.
  intros Hc. unfold diff_columns in Hc.
  repeat (apply elem_of_cons in Hc as [[= -> ->]|Hc]; [reflexivity|]).
  by apply elem_of_nil in Hc.
Qed.

Lemma marker_step_free m st ev :
  marker m st = 0 →
  marker m (process_event pid2team st ev)
  = marker m (process_event pid2team init_state ev).
Proof.
  intros H0. split_event; destruct m; cbn in *; rewrite ?H0; done.
Qed.

Lemma marker_foldl_first m st evs :
  marker m (foldl (process_event pid2team) st evs)
  = if marker m st =? 0
    then default 0 (head (omap (latch_of pid2team m) evs))
    else marker m st.
Proof.
  revert st. induction evs as [|ev evs IH]; intros st.
  { simpl. by destruct (Z.eqb_spec (marker m st) 0). }
  cbn [foldl omap list_omap]. rewrite IH.
  fold (omap (latch_of pid2team m) evs).
  destruct (Z.eqb_spec (marker m st) 0) as [H0|Hne].
  - rewrite (marker_step_free m st ev H0). unfold latch_of at 2.
    by destruct (Z.eqb_spec (marker m (process_event pid2team init_state ev)) 0).
  - rewrite marker_step_latched by done.
    by destruct (Z.eqb_spec (marker m st) 0).
Qed.

Lemma latch_value team t :
  (if latch 0 team =? 0 then None else Some (latch 0 team)) = Some t
  ↔ team = Some t ∧ (t = 100 ∨ t = 200).
Proof.
  unfold latch. destruct team as [t'|]; [|naive_solver].
  cbn [Z.eqb andb]. destruct (team_in (Some t')) eqn:Hin.
  - apply team_in_spec in Hin.
    destruct (Z.eqb_spec t' 0); naive_solver lia.
  - cbn [Z.eqb]. split; [done|]. intros [[= ->] Ht].
    assert (team_in (Some t) = true) by (apply team_in_spec; naive_solver).
    congruence.
Qed.

Lemma contribution_nonneg ev t f :
  t = 100 ∨ t = 200 → f ∈ counter_fields → 0 ≤ contribution pid2team ev t f.
Proof.
  intros Ht Hf. unfold contribution.
  pose proof (init_counter t f Ht Hf) as Hz.
  split_event;
    rewrite ?counter_assists, ?counter_hit by done;
    rewrite ?counter_assists, ?counter_hit by done;
    rewrite ?Hz; unfold hit, assists_of; repeat case_decide; lia.
Qed.

Lemma contribution_le ev t f10 f15 :
  t = 100 ∨ t = 200 →
  (f10, f15) ∈ [("k10", "k15"); ("d10", "d15"); ("a10", "a15")] →
  contribution pid2team ev t f10 ≤ contribution pid2team ev t f15.
Proof.
  intros Ht Hf. unfold contribution.
  assert (∀ f, f ∈ counter_fields → counter (base init_state) t f = 0) as Hz
    by (intros; by apply init_counter).
  repeat (apply elem_of_cons in Hf as [[= -> ->]|Hf]);
    [..|by apply elem_of_nil in Hf];
    split_event;
    rewrite ?counter_assists, ?counter_hit by done;
    rewrite ?counter_assists, ?counter_hit by done;
    rewrite ?Hz by (unfold counter_fields; cbn; in_list);
    string_decides; unfold hit, assists_of;
    repeat (case_decide; try done); lia.
Qed.

Lemma latch_free team :
  latch 0 team = (if team_in team then default 0 team else 0).
Proof. unfold latch. by destruct team. Qed.

(** The marker value and the two hits of a team that may be unresolved. *)
Lemma latch_hits team :
  let v := latch 0 team in
  (v = 0 ∨ v = 100 ∨ v = 200)
  ∧ hit team 100 + hit team 200 = (if v =? 0 then 0 else 1)
  ∧ (v = 100 → hit team 100 = 1)
  ∧ (v = 200 → hit team 200 = 1).
Proof.
  cbn zeta. rewrite latch_free. unfold hit.
  destruct team as [t|]; cbn [team_in default].
  - destruct (Z.eqb_spec t 100) as [->|H1].
    + rewrite decide_True by done. rewrite decide_False by done.
      cbn. split_and!; auto; done.
    + destruct (Z.eqb_spec t 200) as [->|H2].
      * rewrite decide_False by done. rewrite decide_True by done.
        cbn. split_and!; auto; done.
      * rewrite !decide_False by congruence. cbn. split_and!; auto; done.
  - rewrite !decide_False by done. cbn. split_and!; auto; done.
Qed.

(** An event that can latch a marker adds exactly one to the marker's
    counter, on the side of the team it latches to; any other event adds
    nothing to it. *)
Lemma event_marker_counter m ev :
  let v := marker m (process_event pid2team init_state ev) in
  (v = 0 ∨ v = 100 ∨ v = 200)
  ∧ contribution pid2team ev 100 (marker_field m)
    + contribution pid2team ev 200 (marker_field m)
    = (if v =? 0 then 0 else 1)
  ∧ (v = 100 → contribution pid2team ev 100 (marker_field m) = 1)
  ∧ (v = 200 → contribution pid2team ev 200 (marker_field m) = 1).
Proof.
  cbn zeta. unfold contribution.
  assert (∀ t f, t = 100 ∨ t = 200 → f ∈ counter_fields →
                 counter (base init_state) t f = 0) as Hz
    by (intros; by apply init_counter).
  split_event;
    destruct m; cbn [marker marker_field first_blood_team first_drake_team
                     first_tower_team first_herald_team];
    rewrite ?counter_assists, ?counter_hit by auto;
    rewrite ?counter_assists, ?counter_hit by auto;
    rewrite ?Hz by (auto; unfold counter_fields; cbn; in_list);
    string_decides; rewrite ?Z.add_0_l, ?Z.add_0_r;
    try apply latch_hits; cbn; split_and!; auto; done.
Qed.

Lemma sums_nonneg evs t f :
  t = 100 ∨ t = 200 → f ∈ counter_fields →
  0 ≤ sum_Z ((fun ev => contribution pid2team ev t f) <$> evs).
Proof.
  intros Ht Hf. induction evs as [|ev evs IH]; [done|].
  cbn [fmap list_fmap sum_Z foldr]. fold (sum_Z ((fun ev => contribution pid2team ev t f) <$> evs)).
  pose proof (contribution_nonneg ev t f Ht Hf). lia.
Qed.

Lemma sums_le evs t f10 f15 :
  t = 100 ∨ t = 200 →
  (f10, f15) ∈ [("k10", "k15"); ("d10", "d15"); ("a10", "a15")] →
  sum_Z ((fun ev => contribution pid2team ev t f10) <$> evs)
  ≤ sum_Z ((fun ev => contribution pid2team ev t f15) <$> evs).
Proof.
  intros Ht Hf. induction evs as [|ev evs IH]; [done|].
  cbn [fmap list_fmap sum_Z foldr].
  fold (sum_Z ((fun ev => contribution pid2team ev t f10) <$> evs)).
  fold (sum_Z ((fun ev => contribution pid2team ev t f15) <$> evs)).
  pose proof (contribution_le ev t f10 f15 Ht Hf). lia.
Qed.

Lemma marker_field_known m : marker_field m ∈ counter_fields.
Proof. destruct m; unfold counter_fields; cbn; in_list. Qed.

Lemma sums_latching m evs :
  sum_Z ((fun ev => contribution pid2team ev 100 (marker_field m)) <$> evs)
  + sum_Z ((fun ev => contribution pid2team ev 200 (marker_field m)) <$> evs)
  = Z.of_nat (length (omap (latch_of pid2team m) evs)).
Proof.
  induction evs as [|ev evs IH]; [done|].
  cbn [fmap list_fmap sum_Z foldr omap list_omap].
  fold (sum_Z ((fun ev => contribution pid2team ev 100 (marker_field m)) <$> evs)).
  fold (sum_Z ((fun ev => contribution pid2team ev 200 (marker_field m)) <$> evs)).
  fold (omap (latch_of pid2team m) evs).
  destruct (event_marker_counter m ev) as (_ & Hsum & _).
  unfold latch_of at 1.
  destruct (marker m (process_event pid2team init_state ev) =? 0);
    cbn [length]; lia.
Qed.

Lemma sums_latched_side m evs t :
  t = 100 ∨ t = 200 →
  head (omap (latch_of pid2team m) evs) = Some t →
  1 ≤ sum_Z ((fun ev => contribution pid2team ev t (marker_field m)) <$> evs).
Proof.
  intros Ht. induction evs as [|ev evs IH]; [done|].
  cbn [fmap list_fmap sum_Z foldr omap list_omap].
  fold (sum_Z ((fun ev => contribution pid2team ev t (marker_field m)) <$> evs)).
  fold (omap (latch_of pid2team m) evs).
  pose proof (contribution_nonneg ev t (marker_field m) Ht (marker_field_known m)).
  pose proof (sums_nonneg evs t (marker_field m) Ht (marker_field_known m)).
  destruct (event_marker_counter m ev) as (_ & _ & H100 & H200).
  unfold latch_of at 1.
  destruct (Z.eqb_spec (marker m (process_event pid2team init_state ev)) 0).
  - intros Hhead. specialize (IH Hhead). lia.
  - cbn [head]. intros [= Hv].
    destruct Ht as [->| ->]; [rewrite (H100 Hv)|rewrite (H200 Hv)]; lia.
Qed.

End scan_laws_facts.

(** X2.  Each counter of the objective scan is a sum over the events, each
    event adding what it adds to fresh counters; so the ten difference
    columns of the row depend neither on the order of the events nor on how
    they are spread over the frames. *)
Theorem diff_columns_order_free :
  (∀ (pid2team : gmap Z Z) st frames_ t f,
      t = 100 ∨ t = 200 → f ∈ scan_laws.counter_fields →
      objectives_spec.counter
        (augment_objectives.base (augment_objectives.scan pid2team st frames_)) t f
      = objectives_spec.counter (augment_objectives.base st) t f
        + scan_laws.sum_Z
            ((fun ev => scan_laws.contribution pid2team ev t f)
             <$> objectives_spec.all_events frames_))
  ∧ (∀ match_id match_json_ frames_ frames_' col f,
      (col, f) ∈ scan_laws.diff_columns →
      objectives_spec.all_events frames_ ≡ₚ objectives_spec.all_events frames_' →
      augment_objectives.compute_features match_id match_json_ (Timeline frames_)
        !! col
      = augment_objectives.compute_features match_id match_json_
          (Timeline frames_') !! col).
Proof.
  split.
  - intros pid2team st frames_ t f Ht Hf.
    rewrite scan_all_events. by apply foldl_counter.
  - intros match_id match_json_ frames_ frames_' col f Hcol Hperm.
    unfold augment_objectives.compute_features. cbn [frames].
    rewrite !(row_diff_column _ _ col f) by done.
    assert (f ∈ scan_laws.counter_fields) as Hf.
    { unfold scan_laws.counter_fields. apply list_elem_of_fmap.
      by exists (col, f). }
    rewrite !scan_all_events, !foldl_counter by auto.
    do 2 f_equal.
    rewrite !(sum_Z_perm _ _ (fmap_Permutation _ _ _ Hperm)). done.
Qed.

(** X3.  After the scan a marker holds the team of the first event that can
    latch it, and 0 when no event can.  First blood is latched by a champion
    kill inside the 15-minute window whose killer id resolves to team 100 or
    200; the tower, dragon and herald markers by the matching kill inside the
    window whose killer resolves, by id or else by the event's killerTeamId,
    to team 100 or 200. *)
Theorem marker_first_occurrence :
  ∀ (pid2team : gmap Z Z) (m : objectives_spec.marker_id) (frames_ : list frame),
    objectives_spec.marker m
      (augment_objectives.scan pid2team augment_objectives.init_state frames_)
    = default 0 (head (omap (scan_laws.latch_of pid2team m)
                         (objectives_spec.all_events frames_)))
    ∧ (∀ ev t,
         scan_laws.latch_of pid2team objectives_spec.Blood ev = Some t
         ↔ (∃ ts, ev_timestamp ev = Some ts ∧ ts ≤ augment_objectives.CUT15)
           ∧ ev_type ev = Some "CHAMPION_KILL"
           ∧ augment_objectives.team_from_pid (killerId ev) pid2team = Some t
           ∧ (t = 100 ∨ t = 200))
    ∧ (∀ ev t, m ≠ objectives_spec.Blood →
         scan_laws.latch_of pid2team m ev = Some t
         ↔ (∃ ts, ev_timestamp ev = Some ts ∧ ts ≤ augment_objectives.CUT15)
           ∧ scan_laws.objective_kind ev (scan_laws.marker_field m) m
           ∧ augment_objectives.killer_team_with_fallback pid2team ev = Some t
           ∧ (t = 100 ∨ t = 200)).
Proof.
  intros pid2team m frames_. split_and!.
  - rewrite scan_all_events, marker_foldl_first. by destruct m.
  - intros ev t. unfold scan_laws.latch_of.
    split_event; rewrite ?latch_value; cbn [Z.eqb];
      (split; [try done; intros [-> Ht]; eauto 10|]);
      intros ((ts & Hts & Hle) & Hty & Hk & Ht); simplify_eq; try lia; done.
  - intros ev t Hm. unfold scan_laws.latch_of, scan_laws.objective_kind.
    destruct m; [done|..];
      split_event; rewrite ?latch_value; cbn [Z.eqb scan_laws.marker_field];
      (split; [try done; intros [-> Ht]; split_and!; eauto 10|]);
      intros ((ts & Hts & Hle) & Hkind & Hk & Ht); simplify_eq; try lia;
      try done; naive_solver.
Qed.

Lemma process_event_unknown_type (pid2team : gmap Z Z) st ev :
  ev_type ev ∉ [Some "CHAMPION_KILL"; Some "TURRET_PLATE_DESTROYED";
                Some "BUILDING_KILL"; Some "ELITE_MONSTER_KILL"] →
  augment_objectives.process_event pid2team st ev = st.
Proof.
  intros Hty. split_event; try done; exfalso; apply Hty;
    match goal with H : ev_type ev = _ |- _ => rewrite H end; in_list.
Qed.

(** X4.  The objective scan leaves its whole state alone on an event without
    a timestamp, on an event of any type other than the four it knows, on the
    kill of a building that is not a tower, and on the kill of an elite
    monster that is neither a dragon nor a Rift Herald. *)
Theorem other_events_ignored :
  ∀ (pid2team : gmap Z Z) st ev,
    ev_timestamp ev = None
    ∨ ev_type ev ∉ [Some "CHAMPION_KILL"; Some "TURRET_PLATE_DESTROYED";
                    Some "BUILDING_KILL"; Some "ELITE_MONSTER_KILL"]
    ∨ (ev_type ev = Some "BUILDING_KILL"
       ∧ buildingType ev ≠ Some "TOWER_BUILDING")
    ∨ (ev_type ev = Some "ELITE_MONSTER_KILL"
       ∧ monsterType ev ∉ [Some "DRAGON"; Some "RIFTHERALD"]) →
    augment_objectives.process_event pid2team st ev = st.
Proof.
  intros pid2team st ev Hcase.
  split_event; try done; exfalso;
    destruct Hcase as [?|[Hty|[[Hty Hb]|[Hty Hm]]]];
    try congruence; set_solver.
Qed.

(** X5.  A tower, dragon or Rift Herald kill inside the window is credited
    to the team of the killer id when that id resolves to team 100 or 200,
    whatever the event's killerTeamId says; otherwise to the event's
    killerTeamId when that is 100 or 200; and to nobody, the state staying as
    it was, when neither resolves.  The credited team gets one more on the
    counter of the objective, and the objective's marker when it is still
    free. *)
Theorem killer_team_fallback :
  ∀ (pid2team : gmap Z Z) st ev ts field m,
    scan_laws.objective_kind ev field m →
    ev_timestamp ev = Some ts →
    ts ≤ augment_objectives.CUT15 →
    let st' := augment_objectives.process_event pid2team st ev in
    let by_id := augment_objectives.team_from_pid (killerId ev) pid2team in
    (∀ t, t = 100 ∨ t = 200 →
        by_id = Some t ∨ (team_in by_id = false ∧ killerTeamId ev = Some t) →
        objectives_spec.counter (augment_objectives.base st') t field
        = objectives_spec.counter (augment_objectives.base st) t field + 1
        ∧ (objectives_spec.marker m st = 0 → objectives_spec.marker m st' = t)
        ∧ (objectives_spec.marker m st ≠ 0 →
           objectives_spec.marker m st' = objectives_spec.marker m st))
    ∧ (team_in by_id = false → team_in (killerTeamId ev) = false → st' = st).
Proof.
  intros pid2team st ev ts field m Hkind Hts Hle st' by_id.
  assert (∀ t, t = 100 ∨ t = 200 →
            by_id = Some t ∨ (team_in by_id = false ∧ killerTeamId ev = Some t) →
            augment_objectives.killer_team_with_fallback pid2team ev = Some t)
    as Hres.
  { intros t Ht Hby. unfold augment_objectives.killer_team_with_fallback.
    fold by_id.
    assert (team_in (Some t) = true) as Hin by (apply team_in_spec; naive_solver).
    destruct Hby as [->|[Hno ->]]; [by rewrite Hin|]. by rewrite Hno, Hin. }
  assert (team_in by_id = false → team_in (killerTeamId ev) = false →
          augment_objectives.killer_team_with_fallback pid2team ev = by_id
          ∧ team_in (augment_objectives.killer_team_with_fallback pid2team ev)
            = false) as Hnone.
  { intros Hno Hno'. unfold augment_objectives.killer_team_with_fallback.
    fold by_id. by rewrite Hno, Hno'. }
  subst st'. split.
  - intros t Ht Hby. specialize (Hres t Ht Hby).
    assert (team_in (Some t) = true) as Hin by (apply team_in_spec; naive_solver).
    assert (t ≠ 0) by lia.
    destruct Hkind as [(Hty & Hb & -> & ->)|[(Hty & Hb & -> & ->)|(Hty & Hb & -> & ->)]];
      unfold augment_objectives.process_event;
      rewrite Hts, Hty, Hb, Hres;
      (destruct (Z.ltb_spec augment_objectives.CUT15 ts); [lia|]);
      cbn [decide_rel]; repeat (case_decide; try done);
      cbn [augment_objectives.base objectives_spec.marker
           augment_objectives.first_drake_team
           augment_objectives.first_tower_team
           augment_objectives.first_herald_team];
      rewrite counter_hit by done; unfold objectives_spec.hit;
      rewrite !decide_True by done;
      (split_and!; [done| |apply latch_latched]);
      intros ->; unfold augment_objectives.latch; by rewrite Hin.
  - intros Hno Hno'. destruct (Hnone Hno Hno') as [Hk Hkin].
    assert (∀ b f, augment_objectives.update_counts b
                     (augment_objectives.killer_team_with_fallback pid2team ev)
                     f 1 = b) as Hupd.
    { intros b f. unfold augment_objectives.update_counts.
      destruct (augment_objectives.killer_team_with_fallback pid2team ev);
        [by rewrite Hkin|done]. }
    assert (∀ first, augment_objectives.latch first
                       (augment_objectives.killer_team_with_fallback pid2team ev)
                     = first) as Hlatch.
    { intros first. unfold augment_objectives.latch.
      destruct (augment_objectives.killer_team_with_fallback pid2team ev);
        [|done]. by rewrite Hkin, andb_false_r. }
    destruct Hkind as [(Hty & Hb & -> & ->)|[(Hty & Hb & -> & ->)|(Hty & Hb & -> & ->)]];
      unfold augment_objectives.process_event;
      rewrite Hts, Hty, Hb, !Hupd, !Hlatch;
      (destruct (Z.ltb_spec augment_objectives.CUT15 ts); [lia|]);
      repeat (case_decide; try done); by destruct st.
Qed.

(** X6.  Champion kills and turret plates have no such fallback: when the
    killer id does not resolve to team 100 or 200, a champion kill adds no
    kill to either team and leaves first blood as it was, whatever the
    event's killerTeamId, while the death and the assists still count; and
    a plate is dropped altogether. *)
Theorem kills_and_plates_need_the_killer_id :
  ∀ (pid2team : gmap Z Z) st ev ts,
    ev_timestamp ev = Some ts →
    team_in (augment_objectives.team_from_pid (killerId ev) pid2team) = false →
    let st' := augment_objectives.process_event pid2team st ev in
    (ev_type ev = Some "CHAMPION_KILL" →
       augment_objectives.first_blood_team st'
       = augment_objectives.first_blood_team st
       ∧ ∀ t, t = 100 ∨ t = 200 →
           objectives_spec.counter (augment_objectives.base st') t "k10"
           = objectives_spec.counter (augment_objectives.base st) t "k10"
           ∧ objectives_spec.counter (augment_objectives.base st') t "k15"
             = objectives_spec.counter (augment_objectives.base st) t "k15"
           ∧ (ts ≤ augment_objectives.CUT15 →
              objectives_spec.counter (augment_objectives.base st') t "d15"
              = objectives_spec.counter (augment_objectives.base st) t "d15"
                + objectives_spec.hit
                    (augment_objectives.team_from_pid (victimId ev) pid2team) t))
    ∧ (ev_type ev = Some "TURRET_PLATE_DESTROYED" → st' = st).
Proof.
  intros pid2team st ev ts Hts Hno st'. subst st'.
  assert (∀ t, t = 100 ∨ t = 200 →
            objectives_spec.hit
              (augment_objectives.team_from_pid (killerId ev) pid2team) t = 0)
    as Hhit.
  { intros t Ht. unfold objectives_spec.hit. case_decide as Hk; [|done].
    rewrite Hk in Hno.
    assert (team_in (Some t) = true) by (apply team_in_spec; naive_solver).
    congruence. }
  split.
  - intros Hty. split.
    + unfold augment_objectives.process_event. rewrite Hts, Hty.
      destruct (Z.ltb_spec augment_objectives.CUT15 ts); [done|].
      rewrite decide_True by done.
      cbn [augment_objectives.first_blood_team].
      unfold augment_objectives.latch.
      destruct (augment_objectives.team_from_pid (killerId ev) pid2team);
        [|done]. by rewrite Hno, andb_false_r.
    + intros t Ht.
      destruct (Z.ltb_spec augment_objectives.CUT15 ts) as [Hlate|Hin].
      { rewrite (process_event_late pid2team st ev ts) by done.
        split_and!; [done|done|lia]. }
      rewrite !(champion_kill_counter pid2team st ev ts) by done.
      rewrite Hhit by done.
      destruct (ts <=? augment_objectives.CUT10); simpl; split_and!; lia.
  - intros Hty. unfold augment_objectives.process_event. rewrite Hts, Hty.
    destruct (Z.ltb_spec augment_objectives.CUT15 ts); [done|].
    rewrite decide_False by done. rewrite decide_True by done.
    destruct (ts <=? augment_objectives.CUT14); [|done].
    unfold augment_objectives.update_counts.
    destruct (augment_objectives.team_from_pid (killerId ev) pid2team);
      [rewrite Hno|]; by destruct st.
Qed.

(** X7.  After the scan, for each team, no counter is negative and no
    10-minute counter exceeds its 15-minute counter.  The two teams' counters
    of kills, towers, dragons and heralds add up to the number of events that
    could latch the matching marker, so a marker is 0 exactly when that total
    is 0, and the team a marker names has at least one on that counter. *)
Theorem scan_invariants :
  ∀ (pid2team : gmap Z Z) (frames_ : list frame) (t : Z),
    t = 100 ∨ t = 200 →
    let st := augment_objectives.scan pid2team augment_objectives.init_state
                frames_ in
    let c := objectives_spec.counter (augment_objectives.base st) in
    (∀ f, f ∈ scan_laws.counter_fields → 0 ≤ c t f)
    ∧ c t "k10" ≤ c t "k15" ∧ c t "d10" ≤ c t "d15" ∧ c t "a10" ≤ c t "a15"
    ∧ ∀ m,
        c 100 (scan_laws.marker_field m) + c 200 (scan_laws.marker_field m)
        = Z.of_nat (length (omap (scan_laws.latch_of pid2team m)
                              (objectives_spec.all_events frames_)))
        ∧ (objectives_spec.marker m st = 0
           ↔ c 100 (scan_laws.marker_field m)
             + c 200 (scan_laws.marker_field m) = 0)
        ∧ (objectives_spec.marker m st = t → 1 ≤ c t (scan_laws.marker_field m)).
Proof.
  intros pid2team frames_ t Ht st c.
  assert (∀ t' f, t' = 100 ∨ t' = 200 → f ∈ scan_laws.counter_fields →
            c t' f = scan_laws.sum_Z
                       ((fun ev => scan_laws.contribution pid2team ev t' f)
                        <$> objectives_spec.all_events frames_)) as Hc.
  { intros t' f Ht' Hf. subst c st. rewrite scan_all_events, foldl_counter by done.
    rewrite init_counter by done. lia. }
  assert (∀ f, f ∈ scan_laws.counter_fields → 0 ≤ c t f) as Hpos.
  { intros f Hf. rewrite Hc by done. by apply sums_nonneg. }
  split_and!; [done|..].
  1-3: rewrite !Hc by (auto; unfold scan_laws.counter_fields; cbn; in_list);
       apply sums_le; [done|in_list].
  intros m.
  pose proof (marker_field_known m) as Hm.
  assert (c 100 (scan_laws.marker_field m) + c 200 (scan_laws.marker_field m)
          = Z.of_nat (length (omap (scan_laws.latch_of pid2team m)
                                (objectives_spec.all_events frames_)))) as Htot.
  { rewrite !Hc by auto. apply sums_latching. }
  assert (objectives_spec.marker m st
          = default 0 (head (omap (scan_laws.latch_of pid2team m)
                               (objectives_spec.all_events frames_)))) as Hmark.
  { subst st. rewrite scan_all_events, marker_foldl_first. by destruct m. }
  assert (∀ v, head (omap (scan_laws.latch_of pid2team m)
                       (objectives_spec.all_events frames_)) = Some v → v ≠ 0)
    as Hnz.
  { intros v Hhead. apply head_Some in Hhead as [l Hl].
    assert (v ∈ omap (scan_laws.latch_of pid2team m)
                  (objectives_spec.all_events frames_)) as Hin
      by (rewrite Hl; by left).
    apply list_elem_of_omap in Hin as (ev & _ & Hlatch).
    unfold scan_laws.latch_of in Hlatch.
    destruct (Z.eqb_spec (objectives_spec.marker m
                (augment_objectives.process_event pid2team
                   augment_objectives.init_state ev)) 0); [done|].
    by injection Hlatch as <-. }
  split_and!; [done| |].
  - rewrite Htot, Hmark.
    destruct (omap _ _) as [|v l] eqn:Ho; cbn [head default length].
    + done.
    + specialize (Hnz v eq_refl). unfold id. rewrite Nat2Z.inj_succ. split; lia.
  - rewrite Hmark. intros Hv. rewrite Hc by done.
    apply sums_latched_side; [done|].
    destruct (head _) as [v|]; cbn [default] in Hv; [by subst|lia].
Qed.

(** ** The ward counter *)

Section ward_laws_facts.

Import augment_more objectives_spec ward_laws.

Context (pid2team : gmap Z Z).

Lemma counter_add_to c tid field v t f :
  counter (add_to c tid field v) t f
  = counter c t f
    + (if decide (tid = t) then if decide (field = f) then v else 0 else 0).
Proof.
  unfold add_to, counter.
  destruct (decide (tid = t)) as [->|Hne].
  - rewrite lookup_total_insert_eq.
    destruct (decide (field = f)) as [->|Hf].
    + rewrite lookup_total_insert_eq. lia.
    + rewrite lookup_total_insert_ne by done. lia.
  - rewrite lookup_total_insert_ne by done. lia.
Qed.

Lemma control_spec ev :
  default "" (wardType ev) = "CONTROL_WARD"
  ↔ wardType ev = Some "CONTROL_WARD".
Proof. destruct (wardType ev); cbn; naive_solver. Qed.

Lemma ward_placed_counter c ev ts tid t f :
  ev_type ev = Some "WARD_PLACED" →
  ev_timestamp ev = Some ts → ts ≤ CUT15 →
  team_from_pid (creatorId ev) pid2team = Some tid →
  tid = 100 ∨ tid = 200 →
  counter (ward_event pid2team c ev) t f
  = counter c t f
    + (if decide (tid = t) then
         (if decide ("wp15" = f) then 1 else 0)
         + (if decide ("cwp15" = f) then control ev else 0)
         + (if decide ("wp10" = f) then in10 ts else 0)
         + (if decide ("cwp10" = f) then in10 ts * control ev else 0)
       else 0).
Proof.
  intros Hty Hts Hle Hc Htid.
  assert (team_in (Some tid) = true) as Hin by (apply team_in_spec; naive_solver).
  unfold ward_event, in10, control.
  rewrite Hts, Hty, Hc, Hin. cbn [negb].
  destruct (Z.ltb_spec CUT15 ts); [lia|].
  rewrite decide_True by done.
  pose proof (control_spec ev) as Hctl.
  destruct (Z.leb_spec ts CUT10);
    destruct (decide (default "" (wardType ev) = "CONTROL_WARD")) as [Hw|Hw];
    destruct (decide (wardType ev = Some "CONTROL_WARD")) as [Hw'|Hw'];
    try (exfalso; tauto);
    rewrite !counter_add_to;
    destruct (decide (tid = t)) as [->|Hne];
    repeat case_decide; lia.
Qed.

Lemma ward_kill_counter c ev ts tid t f :
  ev_type ev = Some "WARD_KILL" →
  ev_timestamp ev = Some ts → ts ≤ CUT15 →
  team_from_pid (killerId ev) pid2team = Some tid →
  tid = 100 ∨ tid = 200 →
  counter (ward_event pid2team c ev) t f
  = counter c t f
    + (if decide (tid = t) then
         (if decide ("wk15" = f) then 1 else 0)
         + (if decide ("wk10" = f) then in10 ts else 0)
       else 0).
Proof.
  intros Hty Hts Hle Hc Htid.
  assert (team_in (Some tid) = true) as Hin by (apply team_in_spec; naive_solver).
  unfold ward_event, in10.
  rewrite Hts, Hty, Hc, Hin. cbn [negb].
  destruct (Z.ltb_spec CUT15 ts); [lia|].
  rewrite decide_False by done. rewrite decide_True by done.
  destruct (Z.leb_spec ts CUT10);
    rewrite !counter_add_to;
    destruct (decide (tid = t)) as [->|Hne];
    repeat case_decide; lia.
Qed.

End ward_laws_facts.

Section ward_scan_facts.

Import augment_more objectives_spec ward_laws.

Context (pid2team : gmap Z Z).

(** What an event is to the ward counter: nothing, a counted placement or a
    counted kill. *)
Lemma ward_event_cases c ev :
  ward_event pid2team c ev = c
  ∨ (∃ ts tid, ev_type ev = Some "WARD_PLACED" ∧ ev_timestamp ev = Some ts
       ∧ ts ≤ CUT15 ∧ team_from_pid (creatorId ev) pid2team = Some tid
       ∧ (tid = 100 ∨ tid = 200))
  ∨ (∃ ts tid, ev_type ev = Some "WARD_KILL" ∧ ev_timestamp ev = Some ts
       ∧ ts ≤ CUT15 ∧ team_from_pid (killerId ev) pid2team = Some tid
       ∧ (tid = 100 ∨ tid = 200)).
Proof.
  unfold ward_event.
  destruct (ev_timestamp ev) as [ts|] eqn:Hts; [|by left].
  destruct (Z.ltb_spec CUT15 ts); [by left|].
  destruct (decide (ev_type ev = Some "WARD_PLACED")) as [Hp|Hp].
  - destruct (team_from_pid (creatorId ev) pid2team) as [tid|] eqn:Hc; [|by left].
    destruct (team_in (Some tid)) eqn:Hin; [|by left].
    apply team_in_spec in Hin.
    right; left. exists ts, tid. split_and!; try done.
    destruct Hin as [[= ->]|[= ->]]; auto.
  - destruct (decide (ev_type ev = Some "WARD_KILL")) as [Hk|Hk]; [|by left].
    destruct (team_from_pid (killerId ev) pid2team) as [tid|] eqn:Hc; [|by left].
    destruct (team_in (Some tid)) eqn:Hin; [|by left].
    apply team_in_spec in Hin.
    right; right. exists ts, tid. split_and!; try done.
    destruct Hin as [[= ->]|[= ->]]; auto.
Qed.

(** The inequalities the ward counters of a team keep. *)
Lemma ward_step_invariant c ev t :
  t = 100 ∨ t = 200 →
  let inv c :=
    0 ≤ counter c t "cwp10" ∧ counter c t "cwp10" ≤ counter c t "wp10"
    ∧ counter c t "wp10" ≤ counter c t "wp15"
    ∧ counter c t "cwp10" ≤ counter c t "cwp15"
    ∧ counter c t "cwp15" ≤ counter c t "wp15"
    ∧ 0 ≤ counter c t "wk10" ∧ counter c t "wk10" ≤ counter c t "wk15" in
  inv c → inv (ward_event pid2team c ev).
Proof.
  intros Ht inv Hinv. subst inv. cbn beta in *.
  destruct (ward_event_cases c ev)
    as [->|[(ts & tid & Hty & Hts & Hle & Hc & Htid)
           |(ts & tid & Hty & Hts & Hle & Hc & Htid)]]; [done|..].
  - rewrite !(ward_placed_counter pid2team c ev ts tid) by done.
    string_decides. unfold in10, control.
    destruct (decide (tid = t)); destruct (ts <=? CUT10);
      destruct (decide (wardType ev = Some "CONTROL_WARD")); lia.
  - rewrite !(ward_kill_counter pid2team c ev ts tid) by done.
    string_decides. unfold in10.
    destruct (decide (tid = t)); destruct (ts <=? CUT10); lia.
Qed.

Lemma ward_scan_events c frames_ :
  ward_scan pid2team c frames_
  = foldl (ward_event pid2team) c (all_events frames_).
Proof.
  unfold ward_scan, all_events. revert c.
  induction frames_ as [|fr frames_ IH]; intros c; simpl; [done|].
  by rewrite foldl_app, IH.
Qed.

End ward_scan_facts.

(** X8.  A ward placement inside the 15-minute window whose creator resolves
    to team 100 or 200 adds one to that team's 15-minute placements, and one
    to its 15-minute control wards when the ward is a control ward; at or
    before 10 minutes it adds the same to the 10-minute counters, later it
    leaves them.  A ward kill adds one to the killer team's 15-minute kills
    and, at or before 10 minutes, to its 10-minute kills.  Nothing else
    moves, and nothing of the other team. *)
Theorem ward_horizons :
  ∀ (pid2team : gmap Z Z) c ev ts tid,
    ev_timestamp ev = Some ts →
    ts ≤ augment_more.CUT15 →
    tid = 100 ∨ tid = 200 →
    let c' := augment_more.ward_event pid2team c ev in
    let n := objectives_spec.counter in
    (ev_type ev = Some "WARD_PLACED" →
     augment_more.team_from_pid (creatorId ev) pid2team = Some tid →
       n c' tid "wp15" = n c tid "wp15" + 1
       ∧ n c' tid "cwp15" = n c tid "cwp15" + ward_laws.control ev
       ∧ n c' tid "wp10" = n c tid "wp10" + ward_laws.in10 ts
       ∧ n c' tid "cwp10"
         = n c tid "cwp10" + ward_laws.in10 ts * ward_laws.control ev
       ∧ n c' tid "wk10" = n c tid "wk10"
       ∧ n c' tid "wk15" = n c tid "wk15"
       ∧ ∀ t f, t ≠ tid → n c' t f = n c t f)
    ∧ (ev_type ev = Some "WARD_KILL" →
       augment_more.team_from_pid (killerId ev) pid2team = Some tid →
       n c' tid "wk15" = n c tid "wk15" + 1
       ∧ n c' tid "wk10" = n c tid "wk10" + ward_laws.in10 ts
       ∧ (∀ f, f ∉ ["wk10"; "wk15"] → n c' tid f = n c tid f)
       ∧ ∀ t f, t ≠ tid → n c' t f = n c t f).
Proof.
  intros pid2team c ev ts tid Hts Hle Htid c' n. subst c' n. split.
  - intros Hty Hc.
    pose proof (ward_placed_counter pid2team c ev ts tid) as Hcount.
    split_and!; try (rewrite Hcount by done; rewrite decide_True by done;
                     string_decides; lia).
    intros t f Hne. rewrite Hcount by done. rewrite decide_False by done. lia.
  - intros Hty Hc.
    pose proof (ward_kill_counter pid2team c ev ts tid) as Hcount.
    split_and!; try (rewrite Hcount by done; rewrite decide_True by done;
                     string_decides; lia).
    + intros f Hf. rewrite Hcount by done. rewrite decide_True by done.
      rewrite !decide_False; [lia|..]; intros <-; apply Hf; in_list.
    + intros t f Hne. rewrite Hcount by done. rewrite decide_False by done. lia.
Qed.

(** X9.  After the ward scan, for each team: no counter is negative, the
    control wards are among the wards placed at either horizon, and no
    10-minute counter exceeds its 15-minute counter. *)
Theorem ward_invariants :
  ∀ (pid2team : gmap Z Z) (frames_ : list frame) (t : Z),
    t = 100 ∨ t = 200 →
    let c := augment_more.ward_scan pid2team ward_laws.ward_init frames_ in
    let n := objectives_spec.counter c t in
    0 ≤ n "cwp10" ∧ n "cwp10" ≤ n "wp10" ∧ n "wp10" ≤ n "wp15"
    ∧ n "cwp10" ≤ n "cwp15" ∧ n "cwp15" ≤ n "wp15"
    ∧ 0 ≤ n "wk10" ∧ n "wk10" ≤ n "wk15".
Proof.
  intros pid2team frames_ t Ht c n. subst n c.
  rewrite ward_scan_events.
  assert (∀ evs c0,
    (0 ≤ objectives_spec.counter c0 t "cwp10"
     ∧ objectives_spec.counter c0 t "cwp10" ≤ objectives_spec.counter c0 t "wp10"
     ∧ objectives_spec.counter c0 t "wp10" ≤ objectives_spec.counter c0 t "wp15"
     ∧ objectives_spec.counter c0 t "cwp10" ≤ objectives_spec.counter c0 t "cwp15"
     ∧ objectives_spec.counter c0 t "cwp15" ≤ objectives_spec.counter c0 t "wp15"
     ∧ 0 ≤ objectives_spec.counter c0 t "wk10"
     ∧ objectives_spec.counter c0 t "wk10" ≤ objectives_spec.counter c0 t "wk15") →
    let c1 := foldl (augment_more.ward_event pid2team) c0 evs in
    0 ≤ objectives_spec.counter c1 t "cwp10"
    ∧ objectives_spec.counter c1 t "cwp10" ≤ objectives_spec.counter c1 t "wp10"
    ∧ objectives_spec.counter c1 t "wp10" ≤ objectives_spec.counter c1 t "wp15"
    ∧ objectives_spec.counter c1 t "cwp10" ≤ objectives_spec.counter c1 t "cwp15"
    ∧ objectives_spec.counter c1 t "cwp15" ≤ objectives_spec.counter c1 t "wp15"
    ∧ 0 ≤ objectives_spec.counter c1 t "wk10"
    ∧ objectives_spec.counter c1 t "wk10" ≤ objectives_spec.counter c1 t "wk15")
    as Hfold.
  { induction evs as [|ev evs IH]; intros c0 Hinv; [done|].
    cbn [foldl]. apply IH. by apply (ward_step_invariant pid2team c0 ev t Ht). }
  apply Hfold. destruct Ht as [->| ->]; vm_compute; by split_and!.
Qed.

(** X10.  The ward counter leaves its counters alone on an event without a
    timestamp, on an event that is neither a ward placement nor a ward kill,
    and on a placement or kill whose creator or killer does not resolve to
    team 100 or 200.  The two scans never count the same event: a ward event
    leaves the whole objective state alone. *)
Theorem ward_events_apart :
  ∀ (pid2team : gmap Z Z) c st ev,
    (ev_timestamp ev = None
     ∨ ev_type ev ∉ [Some "WARD_PLACED"; Some "WARD_KILL"]
     ∨ (ev_type ev = Some "WARD_PLACED"
        ∧ team_in (augment_more.team_from_pid (creatorId ev) pid2team) = false)
     ∨ (ev_type ev = Some "WARD_KILL"
        ∧ team_in (augment_more.team_from_pid (killerId ev) pid2team) = false) →
     augment_more.ward_event pid2team c ev = c)
    ∧ (ev_type ev ∈ [Some "WARD_PLACED"; Some "WARD_KILL"] →
       augment_objectives.process_event pid2team st ev = st)
    ∧ (augment_objectives.process_event pid2team st ev = st
       ∨ augment_more.ward_event pid2team c ev = c).
Proof.
  intros pid2team c st ev.
  assert (ev_type ev ∈ [Some "WARD_PLACED"; Some "WARD_KILL"] →
          augment_objectives.process_event pid2team st ev = st) as Hobj.
  { intros Hty. apply process_event_unknown_type.
    intros Hin.
    apply elem_of_cons in Hty as [Hty|Hty%elem_of_cons];
      [|destruct Hty as [Hty|Hty%elem_of_nil]; [|done]];
      rewrite Hty in Hin;
      repeat (apply elem_of_cons in Hin as [[=]|Hin]);
      by apply elem_of_nil in Hin. }
  assert (ev_type ev ∉ [Some "WARD_PLACED"; Some "WARD_KILL"] →
          augment_more.ward_event pid2team c ev = c) as Hother.
  { intros Hty. unfold augment_more.ward_event.
    destruct (ev_timestamp ev); [|done].
    destruct (_ <? _); [done|].
    rewrite !decide_False; [done|..]; intros Heq; apply Hty; rewrite Heq; in_list. }
  split_and!; [|done|].
  - intros [Hts|[Hty|[[Hty Hno]|[Hty Hno]]]].
    + unfold augment_more.ward_event. by rewrite Hts.
    + by apply Hother.
    + unfold augment_more.ward_event. rewrite Hty.
      destruct (ev_timestamp ev); [|done]. destruct (_ <? _); [done|].
      rewrite decide_True by done.
      destruct (augment_more.team_from_pid (creatorId ev) pid2team); [|done].
      by rewrite Hno.
    + unfold augment_more.ward_event. rewrite Hty.
      destruct (ev_timestamp ev); [|done]. destruct (_ <? _); [done|].
      rewrite decide_False by done. rewrite decide_True by done.
      destruct (augment_more.team_from_pid (killerId ev) pid2team); [|done].
      by rewrite Hno.
  - destruct (decide (ev_type ev ∈ [Some "WARD_PLACED"; Some "WARD_KILL"]));
      [left; by apply Hobj|right; by apply Hother].
Qed.

(** ** The frame selector without an ordering assumption *)

Section pick_frame_facts.

Import augment_more more_spec ward_laws.

Lemma pick_frame_loop_visited cut_ms frames_ best :
  pick_frame_loop best frames_ cut_ms =
  match last (filter (fun fr => at_or_before cut_ms fr)
                (visited frames_ cut_ms)) with
  | Some fr => Some fr
  | None => best
  end.
Proof.
  revert best. induction frames_ as [|fr rest IH]; intros best; [done|].
  cbn [pick_frame_loop visited].
  pose proof (at_or_before_spec cut_ms fr) as Hb.
  destruct (fr_timestamp fr) as [ts|] eqn:Hts.
  - destruct (Z.leb_spec ts cut_ms) as [Hle|Hgt]; [|done].
    rewrite filter_cons, decide_True by (apply Hb; eauto).
    rewrite IH, last_cons. by destruct (last _).
  - rewrite filter_cons, decide_False by (rewrite Hb; naive_solver).
    apply IH.
Qed.

Lemma visited_prefix cut_ms frames_ :
  visited frames_ cut_ms `prefix_of` frames_.
Proof.
  induction frames_ as [|fr rest IH]; [done|].
  cbn [visited]. destruct (fr_timestamp fr) as [ts|].
  - destruct (ts <=? cut_ms); [by apply prefix_cons|apply prefix_nil].
  - by apply prefix_cons.
Qed.

End pick_frame_facts.

(** X11.  Whatever the order of the timestamps, the frame selector returns
    nothing exactly on an empty list, and otherwise a frame of the list: the
    last frame stamped at or before the cutoff among the frames that come
    before the first frame stamped later than the cutoff, or the first frame
    of the list when there is none.  A frame behind a later-stamped one is
    never looked at; in particular a first frame stamped later than the
    cutoff is the answer whatever follows it. *)
Theorem pick_frame_stops_at_first_late :
  ∀ (frames_ : list frame) (cut_ms : Z),
    augment_more.pick_frame frames_ cut_ms
    = match last (filter (fun fr => more_spec.at_or_before cut_ms fr)
                    (ward_laws.visited frames_ cut_ms)) with
      | Some fr => Some fr
      | None => head frames_
      end
    ∧ (augment_more.pick_frame frames_ cut_ms = None ↔ frames_ = [])
    ∧ (∀ fr, augment_more.pick_frame frames_ cut_ms = Some fr →
         fr ∈ frames_
         ∧ (more_spec.at_or_before cut_ms fr = true ∨ head frames_ = Some fr))
    ∧ (∀ fr rest ts,
         frames_ = fr :: rest → fr_timestamp fr = Some ts → cut_ms < ts →
         augment_more.pick_frame frames_ cut_ms = Some fr).
Proof.
  intros frames_ cut_ms.
  assert (augment_more.pick_frame frames_ cut_ms
          = match last (filter (fun fr => more_spec.at_or_before cut_ms fr)
                          (ward_laws.visited frames_ cut_ms)) with
            | Some fr => Some fr
            | None => head frames_
            end) as Heq.
  { unfold augment_more.pick_frame. rewrite pick_frame_loop_visited.
    by destruct (last _). }
  assert (∀ fr, last (filter (fun fr => more_spec.at_or_before cut_ms fr)
                        (ward_laws.visited frames_ cut_ms)) = Some fr →
                fr ∈ frames_ ∧ more_spec.at_or_before cut_ms fr = true) as Hlast.
  { intros fr Hl. apply last_Some in Hl as [l Hl].
    assert (fr ∈ filter (fun fr => more_spec.at_or_before cut_ms fr)
                   (ward_laws.visited frames_ cut_ms)) as Hin
      by (rewrite Hl; set_solver).
    apply list_elem_of_filter in Hin as [Hb Hin].
    split; [|by apply Is_true_true].
    destruct (visited_prefix cut_ms frames_) as [k Hk].
    rewrite Hk. set_solver. }
  split_and!; [done| | |].
  - rewrite Heq. destruct (last _) as [fr|] eqn:Hl.
    + split; [done|]. intros ->. by destruct (Hlast fr eq_refl) as [?%elem_of_nil _].
    + by destruct frames_.
  - intros fr. rewrite Heq. destruct (last _) as [fr'|] eqn:Hl.
    + intros [= <-]. destruct (Hlast fr' eq_refl). auto.
    + intros Hh. split; [|by right].
      destruct frames_; [done|]. injection Hh as ->. by left.
  - intros fr rest ts -> Hts Hlate. rewrite Heq. cbn [ward_laws.visited].
    rewrite Hts. destruct (Z.leb_spec ts cut_ms); [lia|done].
Qed.

(** ** The team totals of a frame *)

Section totals_facts.

Import augment_more objectives_spec scan_laws ward_laws.

Context (py_int : string → option Z) (pid2team : gmap Z Z).

Lemma zero_totals_counter t f :
  t = 100 ∨ t = 200 → f ∈ total_fields →
  counter (<[100 := zero_totals]> (<[200 := zero_totals]> ∅)) t f = 0.
Proof.
  intros Ht Hf. unfold total_fields in Hf.
  destruct Ht as [->| ->];
    repeat (apply elem_of_cons in Hf as [->|Hf]; [reflexivity|]);
    by apply elem_of_nil in Hf.
Qed.

Lemma sum_entry_counter totals entry t f :
  t = 100 ∨ t = 200 → f ∈ total_fields →
  counter (sum_entry py_int pid2team totals entry) t f
  = counter totals t f + entry_share py_int pid2team entry t f.
Proof.
  intros Ht Hf. unfold entry_share.
  pose proof (zero_totals_counter t f Ht Hf) as Hz.
  unfold sum_entry. destruct entry as [pid_str obj].
  destruct (py_int pid_str) as [pid|]; [|lia].
  destruct (pid2team !! pid) as [tid|]; [|lia].
  destruct (team_in (Some tid)); cbn [negb]; [|lia].
  rewrite !counter_add_to, Hz. repeat case_decide; lia.
Qed.

Lemma foldl_sum_entry totals l t f :
  t = 100 ∨ t = 200 → f ∈ total_fields →
  counter (foldl (sum_entry py_int pid2team) totals l) t f
  = counter totals t f
    + sum_Z ((fun entry => entry_share py_int pid2team entry t f) <$> l).
Proof.
  intros Ht Hf. revert totals.
  induction l as [|entry l IH]; intros totals; [simpl; lia|].
  cbn [foldl fmap list_fmap]. rewrite IH, sum_entry_counter by done.
  unfold sum_Z. cbn [foldr]. lia.
Qed.

(** The share of an entry, field by field. *)
Lemma entry_share_value pid_str obj t f :
  t = 100 ∨ t = 200 →
  entry_share py_int pid2team (pid_str, obj) t f
  = if decide (py_int pid_str ≫= (fun pid => pid2team !! pid) = Some t)
    then
      (if decide ("lvl" = f) then or0 (level obj) else 0)
      + (if decide ("cs" = f)
         then or0 (minionsKilled obj) + or0 (jungleMinionsKilled obj) else 0)
      + (if decide ("xp" = f) then or0 (xp obj) else 0)
      + (if decide ("gold" = f) then or0 (totalGold obj) else 0)
      + counter (<[100 := zero_totals]> (<[200 := zero_totals]> ∅)) t f
    else counter (<[100 := zero_totals]> (<[200 := zero_totals]> ∅)) t f.
Proof.
  intros Ht. unfold entry_share, sum_entry.
  destruct (py_int pid_str) as [pid|]; cbn [mbind option_bind];
    [|by rewrite decide_False].
  destruct (pid2team !! pid) as [tid|] eqn:Hp; [|by rewrite decide_False].
  destruct (team_in (Some tid)) eqn:Hin; cbn [negb].
  - rewrite !counter_add_to.
    destruct (decide (tid = t)) as [->|Hne].
    + rewrite (decide_True (P := Some t = Some t)) by done. lia.
    + rewrite (decide_False (P := Some tid = Some t)) by congruence. lia.
  - rewrite (decide_False (P := Some tid = Some t)); [done|]. intros [= ->].
    assert (team_in (Some t) = true) by (apply team_in_spec; naive_solver).
    congruence.
Qed.

End totals_facts.

(** X12.  A team total of a frame is the sum, over the entries of its
    participantFrames, of what each entry adds on its own; so the totals do
    not depend on the order in which the entries are visited.  An entry adds
    to the team its key resolves to (through int and the participant map) its
    gold, xp, level and minions plus jungle minions, a null counting as 0,
    and adds nothing when it resolves to no team or to another one. *)
Theorem team_totals_order_free :
  ∀ (py_int : string → option Z) (pid2team : gmap Z Z) (fr : frame) (t : Z)
    (f : string),
    t = 100 ∨ t = 200 →
    f ∈ ward_laws.total_fields →
    let total :=
      objectives_spec.counter
        (augment_more.sum_team_from_frame py_int (Some fr) pid2team) t f in
    total
    = scan_laws.sum_Z
        ((fun entry => ward_laws.entry_share py_int pid2team entry t f)
         <$> map_to_list (participantFrames fr))
    ∧ (∀ l, l ≡ₚ map_to_list (participantFrames fr) →
         objectives_spec.counter
           (foldl (augment_more.sum_entry py_int pid2team)
              (<[100 := augment_more.zero_totals]>
                 (<[200 := augment_more.zero_totals]> ∅)) l) t f
         = total)
    ∧ (∀ pid_str obj,
         ward_laws.entry_share py_int pid2team (pid_str, obj) t f
         = if decide (py_int pid_str ≫= (fun pid => pid2team !! pid) = Some t)
           then
             (if decide ("lvl" = f) then or0 (level obj) else 0)
             + (if decide ("cs" = f)
                then or0 (minionsKilled obj) + or0 (jungleMinionsKilled obj)
                else 0)
             + (if decide ("xp" = f) then or0 (xp obj) else 0)
             + (if decide ("gold" = f) then or0 (totalGold obj) else 0)
           else 0).
Proof.
  intros py_int pid2team fr t f Ht Hf total. subst total.
  pose proof (zero_totals_counter t f Ht Hf) as Hz.
  unfold augment_more.sum_team_from_frame. split_and!.
  - rewrite foldl_sum_entry by done. lia.
  - intros l Hl. rewrite !foldl_sum_entry by done.
    f_equal. apply sum_Z_perm. by apply fmap_Permutation.
  - intros pid_str obj. rewrite entry_share_value by done.
    case_decide; lia.
Qed.

(** ** The snapshots of the dataset builder *)

Section snapshot_facts.

Import build_dataset dataset_spec dataset_laws scan_laws.

#[local] Instance participant_key_inj minute : Inj (=) (=) (participant_key minute).
Proof.
  intros a b Heq. unfold participant_key in Heq.
  by repeat apply String.app_inj in Heq.
Qed.

#[local] Existing Instance team_key_inj.

Section totals.

Context (pf : gmap string pframe).

Lemma add_participant_totals acc pid :
  aggregated pf pid = true →
  total_gold (add_participant pf acc pid)
  = total_gold acc + field_of totalGold pf pid
  ∧ total_xp (add_participant pf acc pid) = total_xp acc + field_of xp pf pid
  ∧ total_lvl (add_participant pf acc pid) = total_lvl acc + field_of level pf pid.
Proof.
  unfold aggregated, add_participant, field_of.
  destruct (pf !! py_str pid) as [x|]; [|done]. cbn [mbind option_bind].
  intros Hb. apply bool_decide_eq_true in Hb as ([g ->] & [e ->] & [l ->]).
  done.
Qed.

Lemma foldl_add_participant_totals acc ids :
  let acc' := foldl (add_participant pf) acc ids in
  let counted := filter (fun pid => aggregated pf pid) ids in
  total_gold acc' = total_gold acc + sum_Z (field_of totalGold pf <$> counted)
  ∧ total_xp acc' = total_xp acc + sum_Z (field_of xp pf <$> counted)
  ∧ total_lvl acc' = total_lvl acc + sum_Z (field_of level pf <$> counted).
Proof.
  revert acc. induction ids as [|pid ids IH]; intros acc.
  { unfold sum_Z. simpl. lia. }
  cbn [foldl]. rewrite filter_cons.
  destruct (decide (aggregated pf pid)) as [Hag|Hag].
  - apply Is_true_true in Hag.
    destruct (IH (add_participant pf acc pid)) as (-> & -> & ->).
    destruct (add_participant_totals acc pid Hag) as (-> & -> & ->).
    unfold sum_Z. cbn [fmap list_fmap foldr]. lia.
  - apply Is_true_false in Hag.
    rewrite add_participant_skipped by done. apply IH.
Qed.

End totals.

Lemma snapshot_get_five minute g x c l k :
  let s := [(team_key minute "totalGold", g); (team_key minute "xp", x);
            (team_key minute "cs", c); (team_key minute "levelSum", l);
            (team_key minute "participants_ok", k)] in
  snapshot_get s (team_key minute "totalGold") = Some g
  ∧ snapshot_get s (team_key minute "xp") = Some x
  ∧ snapshot_get s (team_key minute "cs") = Some c
  ∧ snapshot_get s (team_key minute "levelSum") = Some l
  ∧ snapshot_get s (team_key minute "participants_ok") = Some k.
Proof.
  unfold snapshot_get. cbn [list_to_map foldr uncurry fst snd].
  split_and!;
    rewrite ?lookup_insert_ne by (intros Heq%(inj _); done);
    apply lookup_insert_eq.
Qed.

End snapshot_facts.

(** X13.  When the queried frame exists and at least one of the requested
    participants is added up, the team snapshot holds the sums of totalGold,
    xp and level over the participants added up (those in the frame with all
    three present) and their number, which is at least 1 and at most the
    number of ids requested. *)
Theorem team_snapshot_totals :
  ∀ (tl : timeline) (minute : Z) (ids : list (option Z)) (fr : frame),
    build_dataset.get_frame tl minute = Some fr →
    let pf := participantFrames fr in
    let counted := filter (fun pid => dataset_spec.aggregated pf pid) ids in
    let s := build_dataset.extract_team_snapshot tl minute ids in
    counted ≠ [] →
    build_dataset.snapshot_get s (build_dataset.team_key minute "totalGold")
    = Some (scan_laws.sum_Z (dataset_laws.field_of totalGold pf <$> counted))
    ∧ build_dataset.snapshot_get s (build_dataset.team_key minute "xp")
      = Some (scan_laws.sum_Z (dataset_laws.field_of xp pf <$> counted))
    ∧ build_dataset.snapshot_get s (build_dataset.team_key minute "levelSum")
      = Some (scan_laws.sum_Z (dataset_laws.field_of level pf <$> counted))
    ∧ build_dataset.snapshot_get s
        (build_dataset.team_key minute "participants_ok")
      = Some (Z.of_nat (length counted))
    ∧ (1 ≤ length counted ≤ length ids)%nat.
Proof.
  intros tl minute ids fr Hfr pf counted s Hne. subst s.
  rewrite extract_team_snapshot_unfold, Hfr. cbn zeta. fold pf. fold counted.
  rewrite decide_False by done.
  destruct (foldl_add_participant_totals pf (build_dataset.Totals 0 0 0 0 0) ids)
    as (Hg & Hx & Hl).
  cbn [build_dataset.total_gold build_dataset.total_xp build_dataset.total_lvl]
    in Hg, Hx, Hl.
  fold counted in Hg, Hx, Hl. rewrite Hg, Hx, Hl, !Z.add_0_l.
  match goal with
  | |- context [build_dataset.snapshot_get ?l _] =>
      match l with
      | [(_, ?g); (_, ?x); (_, ?c); (_, ?lv); (_, ?k)] =>
          destruct (snapshot_get_five minute g x c lv k)
            as (-> & -> & _ & -> & ->)
      end
  end.
  split_and!; try done.
  - destruct counted; [done|simpl; lia].
  - apply length_filter.
Qed.

(** X14.  The per-participant snapshot is empty exactly when the frame of
    that minute does not exist or does not hold the participant.  Otherwise
    it has six columns with distinct names that carry the raw fields, a null
    field staying a null cell: unlike the team snapshot, which leaves out a
    participant whose gold, xp or level is null, it is kept. *)
Theorem participant_snapshot_raw :
  ∀ (tl : timeline) (minute : Z) (pid : option Z),
    let s := build_dataset.extract_participant_snapshot tl minute pid in
    (s = [] ↔
       build_dataset.get_frame tl minute = None
       ∨ ∃ fr, build_dataset.get_frame tl minute = Some fr
               ∧ participantFrames fr !! build_dataset.py_str pid = None)
    ∧ (∀ fr x,
         build_dataset.get_frame tl minute = Some fr →
         participantFrames fr !! build_dataset.py_str pid = Some x →
         NoDup s.*1
         ∧ s.*2 = build_dataset.of_label
                  <$> [totalGold x; xp x; level x; minionsKilled x;
                       jungleMinionsKilled x; currentGold x]
         ∧ s.*1 = build_dataset.participant_key minute
                  <$> ["totalGold"; "xp"; "level"; "minionsKilled";
                       "jungleMinionsKilled"; "currentGold"])
    ∧ (∀ fr, build_dataset.get_frame tl minute = Some fr →
         dataset_spec.aggregated (participantFrames fr) pid = true → s ≠ []).
Proof.
  intros tl minute pid s. subst s.
  unfold build_dataset.extract_participant_snapshot. split_and!.
  - destruct (build_dataset.get_frame tl minute) as [fr|]; [|naive_solver].
    cbn zeta.
    destruct (participantFrames fr !! build_dataset.py_str pid) as [x|] eqn:Hx.
    + split; [done|]. intros [?|(fr' & [= <-] & Hnone)]; congruence.
    + split; [|done]. intros _. right. by exists fr.
  - intros fr x -> Hx. cbn zeta. rewrite Hx. split_and!; [|done|done].
    cbn [fmap list_fmap fst].
    apply (NoDup_fmap_2 (build_dataset.participant_key minute)
             ["totalGold"; "xp"; "level"; "minionsKilled";
              "jungleMinionsKilled"; "currentGold"]).
    apply (bool_decide_unpack _). by vm_compute.
  - intros fr -> Hag. cbn zeta. unfold dataset_spec.aggregated in Hag.
    by destruct (participantFrames fr !! build_dataset.py_str pid).
Qed.

(** ** The team row *)

Section team_row_facts.

Import build_dataset dataset_spec dataset_laws.

Lemma copy_snapshot_other prefix (tb : row) s k :
  (∀ k', prefix +:+ k' ≠ k) →
  copy_snapshot prefix tb s !! k = tb !! k.
Proof.
  intros Hk. unfold copy_snapshot. revert tb.
  induction s as [|kv s IH]; intros tb; [done|].
  cbn [foldl]. rewrite IH. by apply lookup_insert_ne.
Qed.

Lemma copy_snapshot_own prefix (tb : row) s k :
  NoDup s.*1 →
  copy_snapshot prefix tb s !! (prefix +:+ k)
  = match snapshot_get s k with
    | Some v => Some (VInt v)
    | None => tb !! (prefix +:+ k)
    end.
Proof.
  unfold copy_snapshot, snapshot_get. revert tb.
  induction s as [|[k1 v1] s IH]; intros tb Hnd; [done|].
  apply NoDup_cons in Hnd as [Hnotin Hnd].
  cbn [foldl list_to_map foldr uncurry fst snd]. rewrite IH by done.
  destruct (decide (k1 = k)) as [->|Hne].
  - rewrite !lookup_insert_eq.
    by rewrite (not_elem_of_list_to_map_1 (M := gmap string) s k).
  - rewrite (lookup_insert_ne (list_to_map s)) by done.
    rewrite lookup_insert_ne; [done|]. intros Heq.
    by apply String.app_inj in Heq.
Qed.

Lemma team_key_10_15 name name' : team_key 10 name ≠ team_key 15 name'.
Proof.
  unfold team_key. intros Heq. apply String.app_inj in Heq.
  change (pretty 10) with "10" in Heq. change (pretty 15) with "15" in Heq.
  done.
Qed.

Lemma extract_team_snapshot_keys tl minute ids :
  NoDup (extract_team_snapshot tl minute ids).*1
  ∧ ∀ k, is_Some (snapshot_get (extract_team_snapshot tl minute ids) k) →
         ∃ name, k = team_key minute name.
Proof.
  destruct (extract_team_snapshot_shape tl minute ids)
    as [->|(g & x & c & l & n & ->)].
  { split; [constructor|]. unfold snapshot_get. cbn.
    intros k [v Hv]. by rewrite lookup_empty in Hv. }
  split.
  - cbn [fmap list_fmap fst].
    assert (Inj (=) (=) (team_key minute)) as Hinj.
    { intros a b Heq. unfold team_key in Heq.
      by repeat apply String.app_inj in Heq. }
    apply (NoDup_fmap_2 (team_key minute)
             ["totalGold"; "xp"; "cs"; "levelSum"; "participants_ok"]).
    apply (bool_decide_unpack _). by vm_compute.
  - intros k [v Hv]. unfold snapshot_get in Hv.
    cbn [list_to_map foldr uncurry fst snd] in Hv.
    repeat (apply lookup_insert_Some in Hv as [[<- _]|[_ Hv]]; [by eexists|]).
    by rewrite lookup_empty in Hv.
Qed.

(** One turn of the minute loop seen from a snapshot column. *)
Lemma snap_minute_snapshot tl team100 team200 (tb : row) m k :
  snap_minute tl team100 team200 tb m !! ("t100_" +:+ k)
  = match snapshot_get (extract_team_snapshot tl m team100) k with
    | Some v => Some (VInt v)
    | None => tb !! ("t100_" +:+ k)
    end
  ∧ snap_minute tl team100 team200 tb m !! ("t200_" +:+ k)
    = match snapshot_get (extract_team_snapshot tl m team200) k with
      | Some v => Some (VInt v)
      | None => tb !! ("t200_" +:+ k)
      end.
Proof.
  unfold snap_minute.
  set (s100 := extract_team_snapshot tl m team100).
  set (s200 := extract_team_snapshot tl m team200).
  set (tb2 := copy_snapshot "t200_" (copy_snapshot "t100_" tb s100) s200).
  assert (tb2 !! ("t100_" +:+ k)
          = match snapshot_get s100 k with
            | Some v => Some (VInt v)
            | None => tb !! ("t100_" +:+ k)
            end) as H100.
  { subst tb2. rewrite copy_snapshot_other by done.
    apply copy_snapshot_own, extract_team_snapshot_keys. }
  assert (tb2 !! ("t200_" +:+ k)
          = match snapshot_get s200 k with
            | Some v => Some (VInt v)
            | None => tb !! ("t200_" +:+ k)
            end) as H200.
  { subst tb2. rewrite copy_snapshot_own by apply extract_team_snapshot_keys.
    by rewrite copy_snapshot_other by done. }
  clearbody tb2.
  split;
    repeat match goal with
           | |- context [match snapshot_get ?s (team_key m ?n) with _ => _ end] =>
               destruct (snapshot_get s (team_key m n))
           end;
    rewrite ?lookup_insert_ne by done; done.
Qed.

(** A column that is neither a snapshot nor a delta column goes through the
    minute loop untouched. *)
Lemma snap_minute_other tl team100 team200 (tb : row) m k :
  (∀ k', "t100_" +:+ k' ≠ k) → (∀ k', "t200_" +:+ k' ≠ k) →
  (∀ k', "delta_m" +:+ k' ≠ k) →
  snap_minute tl team100 team200 tb m !! k = tb !! k.
Proof.
  intros H100 H200 Hd. unfold snap_minute.
  assert (∀ name, delta_key m name ≠ k) as Hdk.
  { intros name. unfold delta_key. apply Hd. }
  repeat match goal with
         | |- context [match snapshot_get ?s ?key with _ => _ end] =>
             destruct (snapshot_get s key)
         end;
    rewrite ?lookup_insert_ne by done;
    by rewrite !copy_snapshot_other by done.
Qed.

Lemma win_labels_last teams_ :
  win_labels teams_ = (label_of 100 teams_, label_of 200 teams_).
Proof.
  unfold win_labels, label_of.
  assert (∀ w : option Z * option Z,
    foldl (fun (w : option Z * option Z) t =>
             let w := if decide (team_teamId t = Some 100)
                      then (Some (if team_win t then 1 else 0), w.2) else w in
             if decide (team_teamId t = Some 200)
             then (w.1, Some (if team_win t then 1 else 0)) else w)
          w teams_
    = (match last (omap (fun e => if decide (team_teamId e = Some 100)
                                  then Some (if team_win e then 1 else 0)
                                  else None) teams_) with
       | Some v => Some v
       | None => w.1
       end,
       match last (omap (fun e => if decide (team_teamId e = Some 200)
                                  then Some (if team_win e then 1 else 0)
                                  else None) teams_) with
       | Some v => Some v
       | None => w.2
       end)) as Hgen.
  { induction teams_ as [|e teams_ IH]; intros w; [by destruct w|].
    cbn [foldl omap list_omap]. rewrite IH.
    destruct (decide (team_teamId e = Some 100)) as [H1|H1],
             (decide (team_teamId e = Some 200)) as [H2|H2];
      try congruence; rewrite ?last_cons; cbn [fst snd];
      repeat match goal with
             | |- context [last ?l] => destruct (last l)
             end; done. }
  rewrite Hgen. cbn [fst snd].
  repeat match goal with
         | |- context [last ?l] => destruct (last l)
         end; done.
Qed.

End team_row_facts.

(** X15.  In the team row of a match, for each snapshot minute, each column
    of a team's snapshot is carried over under the team's prefix with the
    same value, and is absent when the snapshot is empty: the columns of the
    other team, of the other minute, the deltas and the labels never write
    over it. *)
Theorem team_row_snapshot_columns :
  ∀ (match_id : string) (match_ : match_json) (tl : timeline) (r : row)
    (m : Z) (name : string),
    build_dataset.team_row match_id match_ tl = Some r →
    m ∈ build_dataset.SNAP_MINUTES →
    r !! ("t100_" +:+ build_dataset.team_key m name)
    = VInt <$> build_dataset.snapshot_get
                 (build_dataset.extract_team_snapshot tl m
                    (dataset_spec.team_ids 100 match_))
                 (build_dataset.team_key m name)
    ∧ r !! ("t200_" +:+ build_dataset.team_key m name)
      = VInt <$> build_dataset.snapshot_get
                   (build_dataset.extract_team_snapshot tl m
                      (dataset_spec.team_ids 200 match_))
                   (build_dataset.team_key m name).
Proof.
  intros match_id match_ tl r m name Hrow Hm.
  unfold build_dataset.team_row in Hrow. case_decide; [done|].
  destruct (build_dataset.win_labels (teams match_)) as [win100 win200].
  injection Hrow as <-.
  fold (dataset_spec.team_ids 100 match_) (dataset_spec.team_ids 200 match_).
  rewrite !lookup_insert_ne by done.
  unfold build_dataset.SNAP_MINUTES in *. cbn [foldl].
  assert (∀ m' ids, m' ≠ m → m' = 10 ∨ m' = 15 → m = 10 ∨ m = 15 →
            build_dataset.snapshot_get
              (build_dataset.extract_team_snapshot tl m' ids)
              (build_dataset.team_key m name) = None) as Hother.
  { intros m' ids Hne Hm' Hm0.
    destruct (build_dataset.snapshot_get _ _) as [v|] eqn:Hv; [|done].
    destruct (extract_team_snapshot_keys tl m' ids) as [_ Hk].
    destruct (Hk _ (ex_intro _ v Hv)) as [name' Heq].
    destruct Hm' as [->| ->], Hm0 as [->| ->]; try done; exfalso;
      first [ by apply (team_key_10_15 name' name)
            | by apply (team_key_10_15 name name') ]. }
  assert (m = 10 ∨ m = 15) as Hm0.
  { apply elem_of_cons in Hm as [->|Hm%elem_of_cons]; [by left|].
    destruct Hm as [->|Hm%elem_of_nil]; [by right|done]. }
  match goal with
  | |- context [build_dataset.snap_minute _ _ _ ?tb 10] => set (tb0 := tb)
  end.
  assert (∀ k, tb0 !! ("t100_" +:+ k) = None ∧ tb0 !! ("t200_" +:+ k) = None)
    as Hbase.
  { intros k. subst tb0. by rewrite !lookup_insert_ne, !lookup_empty by done. }
  clearbody tb0.
  destruct (snap_minute_snapshot tl (dataset_spec.team_ids 100 match_)
              (dataset_spec.team_ids 200 match_)
              (build_dataset.snap_minute tl (dataset_spec.team_ids 100 match_)
                 (dataset_spec.team_ids 200 match_) tb0 10)
              15 (build_dataset.team_key m name)) as [-> ->].
  destruct (snap_minute_snapshot tl (dataset_spec.team_ids 100 match_)
              (dataset_spec.team_ids 200 match_) tb0
              10 (build_dataset.team_key m name)) as [-> ->].
  destruct (Hbase (build_dataset.team_key m name)) as [-> ->].
  destruct Hm0 as [->| ->].
  - rewrite !(Hother 15) by auto.
    split; by destruct (build_dataset.snapshot_get _ _).
  - rewrite !(Hother 10) by auto.
    split; by destruct (build_dataset.snapshot_get _ _).
Qed.

(** X16.  A match gets a team row exactly when it has 10 participants.  The
    row always carries the match id, the six metadata fields and the two win
    labels; a label is 1 or 0 after the win flag of the last entry of teams
    with that team id, and a null cell when there is no such entry.  No
    snapshot or delta column writes over them. *)
Theorem team_row_labels :
  ∀ (match_id : string) (match_ : match_json) (tl : timeline),
    (build_dataset.team_row match_id match_ tl = None
     ↔ length (participants match_) ≠ 10%nat)
    ∧ ∀ r, build_dataset.team_row match_id match_ tl = Some r →
        r !! "team100_win"
        = Some (build_dataset.of_label (dataset_laws.label_of 100 (teams match_)))
        ∧ r !! "team200_win"
          = Some (build_dataset.of_label
                    (dataset_laws.label_of 200 (teams match_)))
        ∧ r !! "matchId" = Some (VStr match_id)
        ∧ r !! "gameCreation" = Some (gameCreation match_)
        ∧ r !! "gameDuration" = Some (gameDuration match_)
        ∧ r !! "gameVersion" = Some (gameVersion match_)
        ∧ r !! "queueId" = Some (queueId match_)
        ∧ r !! "mapId" = Some (mapId match_)
        ∧ r !! "platformId" = Some (platformId match_).
Proof.
  intros match_id match_ tl. split.
  - unfold build_dataset.team_row. case_decide; [done|].
    by destruct (build_dataset.win_labels (teams match_)).
  - intros r Hrow. unfold build_dataset.team_row in Hrow.
    case_decide; [done|]. rewrite win_labels_last in Hrow.
    injection Hrow as <-.
    unfold build_dataset.SNAP_MINUTES. cbn [foldl].
    split_and!;
      [by rewrite lookup_insert_ne, lookup_insert_eq by done
      |by rewrite lookup_insert_eq
      |rewrite !lookup_insert_ne, !snap_minute_other by done; reflexivity..].
Qed.

(** ** The role and champion extractor *)

Section roles_facts.

Import augment_champ_roles roles_laws.

Lemma champ_key_inj tid role tid' role' :
  tid = 100 ∨ tid = 200 → role ∈ ROLES →
  tid' = 100 ∨ tid' = 200 → role' ∈ ROLES →
  champ_key tid role = champ_key tid' role' → tid = tid' ∧ role = role'.
Proof.
  unfold ROLES. intros Ht Hr Ht' Hr'.
  destruct Ht as [->| ->], Ht' as [->| ->];
    repeat (apply elem_of_cons in Hr as [->|Hr]);
    try (by apply elem_of_nil in Hr);
    repeat (apply elem_of_cons in Hr' as [->|Hr']);
    try (by apply elem_of_nil in Hr');
    intros Heq; first [done | by vm_compute in Heq].
Qed.

Lemma init_row_lookup match_id tid role :
  tid = 100 ∨ tid = 200 → role ∈ ROLES →
  init_row match_id !! champ_key tid role = Some VNone.
Proof.
  unfold ROLES. intros Ht Hr.
  destruct Ht as [->| ->];
    repeat (apply elem_of_cons in Hr as [->|Hr]; [reflexivity|]);
    by apply elem_of_nil in Hr.
Qed.

Lemma assign_lookup (row_ : row) p tid role v :
  tid = 100 ∨ tid = 200 → role ∈ ROLES →
  row_ !! champ_key tid role = Some v →
  assign row_ p !! champ_key tid role
  = Some (match v with
          | VNone => champ_cell (pick tid role p)
          | _ => v
          end).
Proof.
  intros Ht Hr Hv. unfold assign, pick.
  assert (team_in (Some tid) = true) as Hin by (apply team_in_spec; naive_solver).
  destruct (rp_teamId p) as [tid'|] eqn:Htid;
    [|rewrite decide_False by (by intros [? ?]); rewrite Hv; by destruct v].
  destruct (teamPosition p) as [role'|] eqn:Hrole;
    [|rewrite decide_False by (by intros [? ?]); rewrite Hv; by destruct v].
  destruct (championId p) as [champ|] eqn:Hchamp;
    [|rewrite Hv; case_decide; by destruct v].
  destruct (team_in (Some tid')) eqn:Hin'; cbn [andb].
  - case_bool_decide as Hr'.
    + apply team_in_spec in Hin'.
      assert (tid' = 100 ∨ tid' = 200) as Ht'
        by (destruct Hin' as [[= ->]|[= ->]]; auto).
      destruct (decide (champ_key tid' role' = champ_key tid role)) as [Heq|Hne].
      * destruct (champ_key_inj tid' role' tid role Ht' Hr' Ht Hr Heq) as [-> ->].
        rewrite Hv, decide_True by done.
        destruct v; rewrite ?lookup_insert_eq; done.
      * rewrite decide_False by (intros [[= ->] [= ->]]; done).
        destruct (row_ !! champ_key tid' role') as [[]|];
          rewrite ?lookup_insert_ne by done; rewrite Hv; by destruct v.
    + rewrite decide_False by (intros [_ [= ->]]; done).
      rewrite Hv. by destruct v.
  - rewrite decide_False by (intros [[= ->] _]; congruence).
    rewrite Hv. by destruct v.
Qed.

Lemma foldl_assign_lookup (row_ : row) parts tid role v :
  tid = 100 ∨ tid = 200 → role ∈ ROLES →
  row_ !! champ_key tid role = Some v →
  foldl assign row_ parts !! champ_key tid role
  = Some (match v with
          | VNone => champ_cell (head (omap (pick tid role) parts))
          | _ => v
          end).
Proof.
  intros Ht Hr. revert row_ v.
  induction parts as [|p parts IH]; intros row_ v Hv; [by destruct v|].
  cbn [foldl omap list_omap]. fold (omap (pick tid role) parts).
  rewrite (IH _ _ (assign_lookup row_ p tid role v Ht Hr Hv)).
  destruct v; try done.
  destruct (pick tid role p) as [c|]; cbn [champ_cell head]; done.
Qed.

Lemma assign_dom (row_ : row) p : dom (assign row_ p) = dom row_.
Proof.
  unfold assign.
  destruct (rp_teamId p) as [tid|]; [|done].
  destruct (teamPosition p) as [role|]; [|done].
  destruct (championId p) as [champ|]; [|done].
  destruct (team_in (Some tid) && bool_decide (role ∈ ROLES)); [|done].
  destruct (row_ !! champ_key tid role) as [[]|] eqn:Hk; try done.
  rewrite dom_insert_L.
  assert (champ_key tid role ∈ dom row_) by (apply elem_of_dom; eauto).
  set_solver.
Qed.

Lemma assign_match_id (row_ : row) p : assign row_ p !! "match_id" = row_ !! "match_id".
Proof.
  unfold assign.
  destruct (rp_teamId p) as [tid|]; [|done].
  destruct (teamPosition p) as [role|]; [|done].
  destruct (championId p) as [champ|]; [|done].
  destruct (team_in (Some tid) && bool_decide (role ∈ ROLES)); [|done].
  destruct (row_ !! champ_key tid role) as [[]|] eqn:Hk; try done.
  by rewrite lookup_insert_ne.
Qed.

Lemma foldl_assign_frame (row_ : row) parts :
  dom (foldl assign row_ parts) = dom row_
  ∧ foldl assign row_ parts !! "match_id" = row_ !! "match_id".
Proof.
  revert row_. induction parts as [|p ps IH]; intros row_; [done|].
  cbn [foldl]. destruct (IH (assign row_ p)) as [-> ->].
  by rewrite assign_dom, assign_match_id.
Qed.

End roles_facts.

(** X17.  In the row of the role extractor, the column of a team and a role
    holds the champion of the first participant of that team in that role
    that has a champion id, and a null cell when there is none: later
    participants in the same slot change nothing.  The row always has the
    same eleven columns, whatever the participants. *)
Theorem first_champion_wins :
  ∀ (match_id : string) (parts : list augment_champ_roles.role_participant)
    (tid : Z) (role : string),
    tid = 100 ∨ tid = 200 →
    role ∈ augment_champ_roles.ROLES →
    let r := augment_champ_roles.match_row match_id parts in
    r !! augment_champ_roles.champ_key tid role
    = Some (roles_laws.champ_cell
              (head (omap (roles_laws.pick tid role) parts)))
    ∧ r !! "match_id" = Some (VStr match_id)
    ∧ dom r = dom (augment_champ_roles.init_row match_id)
    ∧ size r = 11%nat.
Proof.
  intros match_id parts tid role Ht Hr r. subst r.
  unfold augment_champ_roles.match_row.
  destruct (foldl_assign_frame (augment_champ_roles.init_row match_id) parts)
    as [Hdom Hid].
  split_and!.
  - by rewrite (foldl_assign_lookup _ parts tid role VNone Ht Hr
                  (init_row_lookup match_id tid role Ht Hr)).
  - by rewrite Hid.
  - apply Hdom.
  - rewrite <- size_dom, Hdom, size_dom. reflexivity.
Qed.

(** * The further properties on concrete inputs *)

Import more_samples.

Lemma diff_columns_order_free_witness :
  let a := solo_kill_at 60000 in
  let b := revenge_at 120000 in
  ("diff_k15", "k15") ∈ scan_laws.diff_columns
  ∧ all_events [frame_of [a; b]] ≡ₚ all_events [frame_of [b]; frame_of [a]]
  ∧ augment_objectives.compute_features "EUW1_1" dataset_spec.sample_match
      (Timeline [frame_of [a; b]]) !! "diff_k15"
    = augment_objectives.compute_features "EUW1_1" dataset_spec.sample_match
        (Timeline [frame_of [b]; frame_of [a]]) !! "diff_k15".
Proof.
  intros a b.
  assert (("diff_k15", "k15") ∈ scan_laws.diff_columns) as Hcol
    by (unfold scan_laws.diff_columns; in_list).
  assert (all_events [frame_of [a; b]] ≡ₚ all_events [frame_of [b]; frame_of [a]])
    as Hperm by apply perm_swap.
  destruct diff_columns_order_free as [_ Hrow].
  split_and!; [exact Hcol|exact Hperm|].
  exact (Hrow "EUW1_1" dataset_spec.sample_match _ _ _ _ Hcol Hperm).
Defined.

Lemma marker_first_occurrence_witness :
  let frames_ := [frame_of [revenge_at 120000; solo_kill_at 180000]] in
  scan_laws.latch_of pid2team Blood (revenge_at 120000) = Some 200
  ∧ marker Blood
      (augment_objectives.scan pid2team augment_objectives.init_state frames_)
    = 200.
Proof.
  intros frames_.
  destruct (marker_first_occurrence pid2team Blood frames_) as (Hm & Hb & _).
  assert (scan_laws.latch_of pid2team Blood (revenge_at 120000) = Some 200)
    as Hlatch.
  { apply Hb. split_and!; [|reflexivity|reflexivity|by right].
    exists 120000. split; [reflexivity|vm_compute; discriminate]. }
  split; [exact Hlatch|].
  rewrite Hm. subst frames_.
  change (all_events [frame_of [revenge_at 120000; solo_kill_at 180000]])
    with [revenge_at 120000; solo_kill_at 180000].
  cbn [omap list_omap]. rewrite Hlatch. reflexivity.
Defined.

Lemma other_events_ignored_witness :
  (ev_type (ward_at 60000)
     ∉ [Some "CHAMPION_KILL"; Some "TURRET_PLATE_DESTROYED";
        Some "BUILDING_KILL"; Some "ELITE_MONSTER_KILL"])
  ∧ augment_objectives.process_event pid2team augment_objectives.init_state
      (ward_at 60000) = augment_objectives.init_state.
Proof.
  assert (ev_type (ward_at 60000)
            ∉ [Some "CHAMPION_KILL"; Some "TURRET_PLATE_DESTROYED";
               Some "BUILDING_KILL"; Some "ELITE_MONSTER_KILL"]) as Hty.
  { intros Hin. repeat (apply elem_of_cons in Hin as [Hin|Hin]; [discriminate|]).
    by apply elem_of_nil in Hin. }
  split; [exact Hty|].
  apply other_events_ignored. right. left. exact Hty.
Defined.

Lemma killer_team_fallback_witness :
  let st' := augment_objectives.process_event pid2team
               augment_objectives.init_state (tower_at 300000) in
  scan_laws.objective_kind (tower_at 300000) "towers15" Tower
  ∧ 300000 ≤ augment_objectives.CUT15
  ∧ team_in (augment_objectives.team_from_pid (killerId (tower_at 300000))
               pid2team) = false
  ∧ counter (augment_objectives.base st') 200 "towers15" = 1
  ∧ marker Tower st' = 200.
Proof.
  intros st'.
  assert (scan_laws.objective_kind (tower_at 300000) "towers15" Tower) as Hkind
    by (left; split_and!; reflexivity).
  assert (300000 ≤ augment_objectives.CUT15) as Hle
    by (vm_compute; discriminate).
  destruct (killer_team_fallback pid2team augment_objectives.init_state
              (tower_at 300000) 300000 "towers15" Tower Hkind eq_refl Hle)
    as [Hteam _].
  destruct (Hteam 200 (or_intror eq_refl) (or_intror (conj eq_refl eq_refl)))
    as (Hc & Hm & _).
  split_and!; [exact Hkind|exact Hle|reflexivity| |].
  - subst st'. rewrite Hc. reflexivity.
  - apply Hm. reflexivity.
Defined.

Lemma kills_and_plates_need_the_killer_id_witness :
  let st' := augment_objectives.process_event pid2team
               augment_objectives.init_state (execution_at 300000) in
  team_in (augment_objectives.team_from_pid (killerId (execution_at 300000))
             pid2team) = false
  ∧ augment_objectives.first_blood_team st'
    = augment_objectives.first_blood_team augment_objectives.init_state
  ∧ counter (augment_objectives.base st') 200 "k15" = 0
  ∧ counter (augment_objectives.base st') 100 "d15" = 1.
Proof.
  intros st'.
  destruct (kills_and_plates_need_the_killer_id pid2team
              augment_objectives.init_state (execution_at 300000) 300000
              eq_refl eq_refl) as [Hkill _].
  destruct (Hkill eq_refl) as [Hfb Hcount].
  destruct (Hcount 200 (or_intror eq_refl)) as (_ & Hk15 & _).
  destruct (Hcount 100 (or_introl eq_refl)) as (_ & _ & Hd15).
  split_and!; [reflexivity|exact Hfb| |].
  - subst st'. rewrite Hk15. reflexivity.
  - subst st'. rewrite Hd15 by (vm_compute; discriminate). reflexivity.
Defined.

Lemma scan_invariants_witness :
  let st := augment_objectives.scan pid2team augment_objectives.init_state
              [frame_of [solo_kill_at 60000; revenge_at 720000]] in
  let c := counter (augment_objectives.base st) in
  0 ≤ c 100 "d15" ∧ c 100 "k10" ≤ c 100 "k15"
  ∧ c 100 "k15" + c 200 "k15" = 2.
Proof.
  intros st c.
  destruct (scan_invariants pid2team
              [frame_of [solo_kill_at 60000; revenge_at 720000]] 100
              (or_introl eq_refl)) as (Hpos & Hk & _ & _ & Hm).
  destruct (Hm Blood) as (Hsum & _ & _).
  split_and!.
  - apply Hpos. unfold scan_laws.counter_fields, scan_laws.diff_columns.
    cbn [fmap list_fmap snd]. in_list.
  - exact Hk.
  - subst c st. cbn [scan_laws.marker_field] in Hsum. rewrite Hsum.
    reflexivity.
Defined.

Lemma ward_horizons_witness :
  let c' := augment_more.ward_event pid2team ward_laws.ward_init
              (ward_at 60000) in
  60000 ≤ augment_more.CUT15
  ∧ augment_more.team_from_pid (creatorId (ward_at 60000)) pid2team = Some 200
  ∧ counter c' 200 "wp15" = 1
  ∧ counter c' 200 "cwp10" = 1
  ∧ counter c' 200 "wk15" = 0
  ∧ counter c' 100 "wp15" = 0.
Proof.
  intros c'.
  assert (60000 ≤ augment_more.CUT15) as Hle by (vm_compute; discriminate).
  destruct (ward_horizons pid2team ward_laws.ward_init (ward_at 60000) 60000
              200 eq_refl Hle (or_intror eq_refl)) as [Hplaced _].
  destruct (Hplaced eq_refl eq_refl)
    as (Hwp15 & _ & _ & Hcwp10 & _ & Hwk15 & Hother).
  split_and!; [exact Hle|reflexivity| | | |]; subst c'.
  - rewrite Hwp15. reflexivity.
  - rewrite Hcwp10. reflexivity.
  - rewrite Hwk15. reflexivity.
  - rewrite (Hother 100 "wp15") by discriminate. reflexivity.
Defined.

Lemma ward_invariants_witness :
  let c := augment_more.ward_scan pid2team ward_laws.ward_init
             [frame_of [ward_at 60000; ward_at 720000]] in
  counter c 200 "cwp10" ≤ counter c 200 "wp10"
  ∧ counter c 200 "wp10" ≤ counter c 200 "wp15"
  ∧ 0 ≤ counter c 200 "wk10".
Proof.
  intros c.
  destruct (ward_invariants pid2team [frame_of [ward_at 60000; ward_at 720000]]
              200 (or_intror eq_refl)) as (_ & H1 & H2 & _ & _ & H3 & _).
  split_and!; [exact H1|exact H2|exact H3].
Defined.

Lemma ward_events_apart_witness :
  augment_more.ward_event pid2team ward_laws.ward_init (kill_at 60000)
  = ward_laws.ward_init
  ∧ augment_objectives.process_event pid2team augment_objectives.init_state
      (ward_at 60000) = augment_objectives.init_state.
Proof.
  split.
  - destruct (ward_events_apart pid2team ward_laws.ward_init
                augment_objectives.init_state (kill_at 60000)) as (Hward & _).
    apply Hward. right. left. intros Hin.
    repeat (apply elem_of_cons in Hin as [Hin|Hin]; [discriminate|]).
    by apply elem_of_nil in Hin.
  - destruct (ward_events_apart pid2team ward_laws.ward_init
                augment_objectives.init_state (ward_at 60000)) as (_ & Hobj & _).
    apply Hobj. by left.
Defined.

Lemma pick_frame_stops_at_first_late_witness :
  let frames_ := frame_at <$> [700000; 0; 60000] in
  augment_more.CUT10 < 700000
  ∧ more_spec.at_or_before augment_more.CUT10 (frame_at 60000) = true
  ∧ augment_more.pick_frame frames_ augment_more.CUT10
    = Some (frame_at 700000).
Proof.
  intros frames_.
  assert (augment_more.CUT10 < 700000) as Hlate by reflexivity.
  destruct (pick_frame_stops_at_first_late frames_ augment_more.CUT10)
    as (_ & _ & _ & Hfirst).
  split_and!; [exact Hlate|reflexivity|].
  exact (Hfirst (frame_at 700000) [frame_at 0; frame_at 60000] 700000
           eq_refl eq_refl Hlate).
Defined.

Lemma team_totals_order_free_witness :
  let entries := map_to_list (participantFrames (full_frame 600000)) in
  "gold" ∈ ward_laws.total_fields
  ∧ counter
      (foldl (augment_more.sum_entry int_of_digits pid2team)
         (<[100 := augment_more.zero_totals]>
            (<[200 := augment_more.zero_totals]> ∅)) (reverse entries))
      100 "gold"
    = counter
        (augment_more.sum_team_from_frame int_of_digits
           (Some (full_frame 600000)) pid2team) 100 "gold".
Proof.
  intros entries.
  assert ("gold" ∈ ward_laws.total_fields) as Hf by (by left).
  destruct (team_totals_order_free int_of_digits pid2team (full_frame 600000)
              100 "gold" (or_introl eq_refl) Hf) as (_ & Hperm & _).
  split; [exact Hf|].
  apply Hperm, reverse_Permutation.
Defined.

Lemma team_snapshot_totals_witness :
  let ids := dataset_spec.team_ids 100 dataset_spec.sample_match in
  let s := build_dataset.extract_team_snapshot eleven_minutes 10 ids in
  build_dataset.get_frame eleven_minutes 10 = Some (full_frame 600000)
  ∧ build_dataset.snapshot_get s (build_dataset.team_key 10 "totalGold")
    = Some 15000
  ∧ build_dataset.snapshot_get s (build_dataset.team_key 10 "levelSum")
    = Some 30
  ∧ build_dataset.snapshot_get s (build_dataset.team_key 10 "participants_ok")
    = Some 5.
Proof.
  intros ids s.
  assert (build_dataset.get_frame eleven_minutes 10 = Some (full_frame 600000))
    as Hfr by reflexivity.
  assert (filter (fun pid => dataset_spec.aggregated
                               (participantFrames (full_frame 600000)) pid) ids
          = ids) as Hall by (vm_compute; reflexivity).
  destruct (team_snapshot_totals eleven_minutes 10 ids (full_frame 600000) Hfr)
    as (Hg & _ & Hl & Hk & _); [rewrite Hall; discriminate|].
  rewrite Hall in Hg, Hl, Hk.
  split_and!; [exact Hfr| | |]; subst s.
  - rewrite Hg. vm_compute. reflexivity.
  - rewrite Hl. vm_compute. reflexivity.
  - rewrite Hk. reflexivity.
Defined.

Lemma participant_snapshot_raw_witness :
  let s := build_dataset.extract_participant_snapshot eleven_minutes 10
             (Some 1) in
  let x := PFrame (Some 3000) (Some 2500) (Some 6) (Some 60) (Some 4) (Some 0) in
  participantFrames (full_frame 600000) !! build_dataset.py_str (Some 1)
  = Some x
  ∧ s.*2 = [VInt 3000; VInt 2500; VInt 6; VInt 60; VInt 4; VInt 0]
  ∧ build_dataset.extract_participant_snapshot eleven_minutes 9 (Some 1) = [].
Proof.
  intros s x.
  assert (participantFrames (full_frame 600000) !! build_dataset.py_str (Some 1)
          = Some x) as Hx by (vm_compute; reflexivity).
  destruct (participant_snapshot_raw eleven_minutes 10 (Some 1))
    as (_ & Hraw & _).
  destruct (Hraw (full_frame 600000) x eq_refl Hx) as (_ & Hvals & _).
  destruct (participant_snapshot_raw eleven_minutes 9 (Some 1))
    as (Hempty & _ & _).
  split_and!; [exact Hx|exact Hvals|].
  apply Hempty. right. exists (frame_at 540000). split; reflexivity.
Defined.

Lemma sample_team_row :
  build_dataset.team_row "EUW1_1" dataset_spec.sample_match eleven_minutes
  = Some (default ∅ (build_dataset.team_row "EUW1_1" dataset_spec.sample_match
                       eleven_minutes)).
Proof.
  unfold build_dataset.team_row.
  destruct (decide (length (participants dataset_spec.sample_match) ≠ 10%nat))
    as [Hlen|_]; [by destruct Hlen|].
  by destruct (build_dataset.win_labels (teams dataset_spec.sample_match)).
Qed.

Lemma team_row_snapshot_columns_witness :
  let r := default ∅ (build_dataset.team_row "EUW1_1" dataset_spec.sample_match
                        eleven_minutes) in
  build_dataset.team_row "EUW1_1" dataset_spec.sample_match eleven_minutes = Some r
  ∧ 10 ∈ build_dataset.SNAP_MINUTES
  ∧ r !! "t100_team_m10_totalGold" = Some (VInt 15000)
  ∧ r !! "t200_team_m10_totalGold" = Some (VInt 15500)
  ∧ r !! "t100_team_m15_totalGold" = None.
Proof.
  intros r.
  assert (10 ∈ build_dataset.SNAP_MINUTES) as H10 by (by left).
  assert (15 ∈ build_dataset.SNAP_MINUTES) as H15 by (right; by left).
  destruct (team_row_snapshot_columns _ _ _ r 10 "totalGold" sample_team_row H10)
    as [H100 H200].
  destruct (team_row_snapshot_columns _ _ _ r 15 "totalGold" sample_team_row H15)
    as [H100' _].
  split_and!; [exact sample_team_row|exact H10| | |].
  - change ("t100_" +:+ build_dataset.team_key 10 "totalGold")
      with "t100_team_m10_totalGold" in H100.
    rewrite H100. vm_compute. reflexivity.
  - change ("t200_" +:+ build_dataset.team_key 10 "totalGold")
      with "t200_team_m10_totalGold" in H200.
    rewrite H200. vm_compute. reflexivity.
  - change ("t100_" +:+ build_dataset.team_key 15 "totalGold")
      with "t100_team_m15_totalGold" in H100'.
    rewrite H100'. vm_compute. reflexivity.
Defined.

Lemma team_row_labels_witness :
  let r := default ∅ (build_dataset.team_row "EUW1_1" dataset_spec.sample_match
                        eleven_minutes) in
  length (participants dataset_spec.sample_match) = 10%nat
  ∧ r !! "team100_win" = Some (VInt 1)
  ∧ r !! "team200_win" = Some (VInt 0)
  ∧ r !! "matchId" = Some (VStr "EUW1_1").
Proof.
  intros r.
  destruct (team_row_labels "EUW1_1" dataset_spec.sample_match eleven_minutes)
    as [_ Hrow].
  destruct (Hrow r sample_team_row) as (Hw100 & Hw200 & Hid & _).
  split_and!; [reflexivity|exact Hw100|exact Hw200|exact Hid].
Defined.

Lemma first_champion_wins_witness :
  "TOP" ∈ augment_champ_roles.ROLES
  ∧ augment_champ_roles.match_row "EUW1_1" two_tops !! "t100_TOP_champ"
    = Some (VInt 86)
  ∧ augment_champ_roles.match_row "EUW1_1" two_tops !! "t200_TOP_champ"
    = Some VNone
  ∧ size (augment_champ_roles.match_row "EUW1_1" two_tops) = 11%nat.
Proof.
  assert ("TOP" ∈ augment_champ_roles.ROLES) as Hr by (by left).
  destruct (first_champion_wins "EUW1_1" two_tops 100 "TOP"
              (or_introl eq_refl) Hr) as (H100 & _ & _ & Hsize).
  destruct (first_champion_wins "EUW1_1" two_tops 200 "TOP"
              (or_intror eq_refl) Hr) as (H200 & _).
  split_and!; [exact Hr|exact H100|exact H200|exact Hsize].
Defined.
